(** * The Referee: a shallow embedding of the weighting, scoring and
      recommendation pipeline, with the properties stated about it.

    The Python sources under [lib/referee] are embedded function by function.
    Conventions of the embedding:

    - a Python [float] is an exact rational ([Q]); comparisons are the exact
      ones and no rounding takes place: the rounding to binary64 is not
      embedded, so that a value the program computes may differ from the
      embedded one in its last digits, and a comparison that is an exact
      tie here may fall either way there;
    - a [Dict[str, float]] whose iteration order matters is an association
      list in insertion order; a dictionary that is only looked up is a
      [gmap];
    - a function that can raise returns a [Result]; the exception classes
      are the constructors of [Exception];
    - [sorted(..., key=..., reverse=...)] is the stable sort: its result is
      determined by stability, and it is embedded as a stable insertion
      sort. *)

From Stdlib Require Import QArith Qminmax Qround Lqa ZArith Lia Ascii String.
From Stdlib Require Import Sorted Permutation.
From stdpp Require Import gmap strings list pretty.

Local Open Scope string_scope.
Local Open Scope list_scope.
Local Open Scope Q_scope.

(** ** Exceptions and results *)

Inductive Exception : Type :=
| ValueError
| KeyError
| IndexError
| ValidationError
| RequirementsProcessingError
| ConflictingRequirementsError (conflicts : list string)
| InsufficientDataError
| ComparisonError
| InputValidationError
| TechnologyNotFoundError.

Inductive Result (A : Type) : Type :=
| Ok (a : A)
| Raise (e : Exception).

Arguments Ok {A} a.
Arguments Raise {A} e.

#[global] Instance Result_ret : MRet Result := fun _ a => Ok a.

#[global] Instance Result_bind : MBind Result := fun _ _ k r =>
  match r with
  | Ok a => k a
  | Raise e => Raise e
  end.

Definition raise_if (b : bool) (e : Exception) : Result unit :=
  if b then Raise e else Ok tt.

Definition is_Ok {A : Type} (r : Result A) : bool :=
  match r with Ok _ => true | Raise _ => false end.

(** ** Rational helpers *)

Definition Qlt_bool (x y : Q) : bool := negb (Qle_bool y x).

(** Python's [sum]: left to right, starting from 0. *)
Definition sum (l : list Q) : Q := fold_left Qplus l 0.

(** Python's [max(l)] and [min(l)] on a list: the first extremal element;
    [ValueError] on the empty list. *)
Definition list_max (l : list Q) : option Q :=
  match l with
  | [] => None
  | x :: l' => Some (fold_left (fun m y => if Qlt_bool m y then y else m) l' x)
  end.

Definition list_min (l : list Q) : option Q :=
  match l with
  | [] => None
  | x :: l' => Some (fold_left (fun m y => if Qlt_bool y m then y else m) l' x)
  end.

(** ** Ordered dictionaries [Dict[str, float]] *)

Definition Dict : Type := list (string * Q).

Definition keys (d : Dict) : list string := map fst d.
Definition values (d : Dict) : list Q := map snd d.

Fixpoint dict_get (d : Dict) (k : string) : option Q :=
  match d with
  | [] => None
  | (k', v) :: d' => if String.eqb k' k then Some v else dict_get d' k
  end.

(** [d[k]] where the key is present; every read below is of a key that the
    dictionary holds ([KeyError] cannot arise at those reads). *)
Definition getitem (d : Dict) (k : string) : Q :=
  match dict_get d k with Some v => v | None => 0 end.

(** [d.get(k, dflt)] *)
Definition get_default (d : Dict) (k : string) (dflt : Q) : Q :=
  match dict_get d k with Some v => v | None => dflt end.

(** [d[k] = v]: an existing key keeps its position, a new key goes last. *)
Fixpoint setitem (d : Dict) (k : string) (v : Q) : Dict :=
  match d with
  | [] => [(k, v)]
  | (k', v') :: d' =>
      if String.eqb k' k then (k', v) :: d' else (k', v') :: setitem d' k v
  end.

Definition contains (l : list string) (k : string) : bool :=
  existsb (String.eqb k) l.

(** ** Stable sorting

    [sorted(l, key=f, reverse=True)] keeps equal keys in input order: an
    element is inserted before the first later element whose key is not
    strictly greater. *)

Section StableSort.
Context {A : Type} (key : A -> Q).

Fixpoint insert_desc (x : A) (l : list A) : list A :=
  match l with
  | [] => [x]
  | y :: l' =>
      if Qlt_bool (key x) (key y) then y :: insert_desc x l' else x :: l
  end.

Definition sorted_desc (l : list A) : list A := fold_right insert_desc [] l.

Fixpoint insert_asc (x : A) (l : list A) : list A :=
  match l with
  | [] => [x]
  | y :: l' =>
      if Qlt_bool (key y) (key x) then y :: insert_asc x l' else x :: l
  end.

Definition sorted_asc (l : list A) : list A := fold_right insert_asc [] l.

(** Non-increasing in the key. *)
Definition descending : list A -> Prop :=
  StronglySorted (fun a b => key b <= key a).
End StableSort.

(** ** models.py: the enumerations and the requirement record *)

Inductive BudgetLevel : Type := BUDGET_LOW | BUDGET_MEDIUM | BUDGET_HIGH.
Inductive TimelineLevel : Type := TIGHT | MODERATE | FLEXIBLE.
Inductive ScaleLevel : Type := SMALL | SCALE_MEDIUM | LARGE.
Inductive ExpertiseLevel : Type := BEGINNER | INTERMEDIATE | EXPERT.
Inductive ConfidenceLevel : Type := CONF_LOW | CONF_MEDIUM | CONF_HIGH.
Inductive MaturityLevel : Type := EXPERIMENTAL | STABLE | MATURE.

Record ProjectRequirements : Type := {
  team_size : Z;
  budget : BudgetLevel;
  timeline : TimelineLevel;
  scalability_needs : ScaleLevel;
  expertise_level : ExpertiseLevel
}.

Record WeightedCriteria : Type := {
  dimension_weights : Dict;
  priority_factors : list string
}.

Definition standard_dimensions : list string :=
  ["cost"; "scalability"; "complexity"; "ecosystem"; "performance"].

(** [WeightedCriteria.validate_weights]: every weight lies in [0, 1]. *)
Definition WeightedCriteria_validate_weights (v : Dict) : Result Dict :=
  if forallb (fun w => Qle_bool 0 w && Qle_bool w 1) (values v)
  then Ok v else Raise ValidationError.

Definition mk_WeightedCriteria (w : Dict) (p : list string)
  : Result WeightedCriteria :=
  w' ← WeightedCriteria_validate_weights w;
  Ok {| dimension_weights := w'; priority_factors := p |}.

(** ** requirements_processor.py *)

(** [RequirementsProcessor._validate_requirements].  The enumeration checks
    of the source cannot fail on a typed value. *)
Definition _validate_requirements (r : ProjectRequirements) : Result unit :=
  raise_if (team_size r <? 1)%Z ValueError;;
  raise_if (1000 <? team_size r)%Z ValueError.

(** [RequirementsProcessor._detect_requirement_conflicts] *)
Definition conflict_1 : string :=
  "Low budget, large scalability needs, and tight timeline create competing priorities".
Definition conflict_2 : string :=
  "Beginner expertise with tight timeline and large scale requirements may be unrealistic".
Definition conflict_3 : string :=
  "Low budget with large expert team suggests potential resource mismatch".
Definition conflict_4 : string :=
  "Small scalability needs with large team may lead to over-engineering".
Definition conflict_5 : string :=
  "High budget with tight timeline and beginner team may indicate poor planning".

Definition _detect_requirement_conflicts (r : ProjectRequirements)
  : list string :=
  let conflicts := [] in
  let conflicts :=
    match budget r, scalability_needs r, timeline r with
    | BUDGET_LOW, LARGE, TIGHT => conflicts ++ [conflict_1]
    | _, _, _ => conflicts
    end in
  let conflicts :=
    match expertise_level r, timeline r, scalability_needs r with
    | BEGINNER, TIGHT, LARGE => conflicts ++ [conflict_2]
    | _, _, _ => conflicts
    end in
  let conflicts :=
    match budget r, expertise_level r with
    | BUDGET_LOW, EXPERT =>
        if (5 <=? team_size r)%Z then conflicts ++ [conflict_3] else conflicts
    | _, _ => conflicts
    end in
  let conflicts :=
    match scalability_needs r with
    | SMALL =>
        if (8 <=? team_size r)%Z then conflicts ++ [conflict_4] else conflicts
    | _ => conflicts
    end in
  let conflicts :=
    match budget r, timeline r, expertise_level r with
    | BUDGET_HIGH, TIGHT, BEGINNER => conflicts ++ [conflict_5]
    | _, _, _ => conflicts
    end in
  conflicts.

(** The boosts of [_calculate_dimension_weights], in the insertion order of
    [dimension_boosts]: cost, complexity, scalability, performance,
    ecosystem. *)
Definition dimension_boosts_of (r : ProjectRequirements) : Dict :=
  let boosts : Dict := [] in
  let boosts :=
    match budget r with
    | BUDGET_LOW => setitem boosts "cost" 0.15
    | BUDGET_MEDIUM => setitem boosts "cost" 0.05
    | BUDGET_HIGH => setitem boosts "cost" (-0.03)
    end in
  let boosts :=
    match timeline r with
    | TIGHT => setitem boosts "complexity" 0.15
    | MODERATE => setitem boosts "complexity" 0.06
    | FLEXIBLE => setitem boosts "complexity" (-0.06)
    end in
  let boosts :=
    match expertise_level r with
    | BEGINNER =>
        setitem boosts "complexity" (get_default boosts "complexity" 0 + 0.10)
    | EXPERT =>
        setitem boosts "complexity" (get_default boosts "complexity" 0 - 0.05)
    | INTERMEDIATE => boosts
    end in
  let boosts :=
    match scalability_needs r with
    | LARGE => setitem (setitem boosts "scalability" 0.18) "performance" 0.18
    | SCALE_MEDIUM =>
        setitem (setitem boosts "scalability" 0.06) "performance" 0.05
    | SMALL =>
        setitem (setitem boosts "scalability" (-0.04)) "performance" (-0.03)
    end in
  let size_boost := inject_Z (team_size r) * 0.015 in
  let expertise_ecosystem_boost :=
    match expertise_level r with
    | BEGINNER => 0.12
    | INTERMEDIATE => 0.04
    | EXPERT => -0.04
    end in
  setitem boosts "ecosystem" (size_boost + expertise_ecosystem_boost).

(** [{dim: weight / total for dim, weight in weights.items()}] with
    [total = sum(weights.values())].  The quotient is stored in lowest
    terms ([Qred] does not change the number). *)
Definition normalize (weights : Dict) : Dict :=
  let total := sum (values weights) in
  map (fun '(dim, weight) => (dim, Qred (weight / total))) weights.

(** [next(i for i, (dim, _) in enumerate(items) if dim == k)]; the key is
    among the items at both uses. *)
Fixpoint rank_of (k : string) (items : Dict) : nat :=
  match items with
  | [] => 0%nat
  | (dim, _) :: rest => if String.eqb dim k then 0%nat else S (rank_of k rest)
  end.

(** The loop that takes [remaining_boost] from the lowest weights first. *)
Fixpoint take_from_lowest (target_dim : string) (sorted_by_weight : Dict)
    (remaining_boost : Q) (normalized_weights : Dict) : Dict :=
  match sorted_by_weight with
  | [] => normalized_weights
  | (dim, weight) :: rest =>
      if negb (String.eqb dim target_dim) && Qlt_bool 0 remaining_boost then
        let available_reduction := Qmax 0 (weight - 0.05) in
        let reduction := Qmin remaining_boost available_reduction in
        let normalized_weights :=
          setitem normalized_weights dim
            (getitem normalized_weights dim - reduction) in
        let remaining_boost := remaining_boost - reduction in
        if Qle_bool remaining_boost 0 then normalized_weights
        else take_from_lowest target_dim rest remaining_boost normalized_weights
      else take_from_lowest target_dim rest remaining_boost normalized_weights
  end.

(** The special handling of large scalability needs. *)
Definition scale_priority_override (r : ProjectRequirements)
    (normalized_weights : Dict) : Dict :=
  match scalability_needs r with
  | LARGE =>
      let competing_high_priority :=
        ((match budget r with BUDGET_LOW => 1 | _ => 0 end)
         + (match timeline r with TIGHT => 1 | _ => 0 end)
         + (match expertise_level r with BEGINNER => 1 | _ => 0 end))%nat in
      if (2 <=? competing_high_priority)%nat then
        let sorted_weights := sorted_desc snd normalized_weights in
        let scalability_rank := rank_of "scalability" sorted_weights in
        let performance_rank := rank_of "performance" sorted_weights in
        if (2 <? Nat.min scalability_rank performance_rank)%nat then
          let target_dim :=
            if Qle_bool (getitem normalized_weights "performance")
                        (getitem normalized_weights "scalability")
            then "scalability" else "performance" in
          let third_highest_weight :=
            match sorted_weights !! 2%nat with Some (_, w) => w | None => 0 end in
          let target_weight := third_highest_weight + 0.01 in
          let current_weight := getitem normalized_weights target_dim in
          let needed_boost := target_weight - current_weight in
          let sorted_by_weight := sorted_asc snd normalized_weights in
          let normalized_weights :=
            take_from_lowest target_dim sorted_by_weight needed_boost
              normalized_weights in
          let normalized_weights :=
            setitem normalized_weights target_dim target_weight in
          normalize normalized_weights
        else normalized_weights
      else normalized_weights
  | _ => normalized_weights
  end.

Definition baseline_threshold : Q := 0.2.

(** One iteration of the loop over [highlighted_dimensions[:max_highlights]]. *)
Definition guarantee_step (top_highlighted : Dict) (normalized_weights : Dict)
    (item : string * Q) : Dict :=
  let dimension := fst item in
  if Qle_bool (getitem normalized_weights dimension) baseline_threshold then
    let target_weight := baseline_threshold + 0.01 in
    let current_weight := getitem normalized_weights dimension in
    let needed_boost := target_weight - current_weight in
    let non_highlighted :=
      List.filter (fun d => negb (contains (keys top_highlighted) d))
        (keys normalized_weights) in
    match non_highlighted with
    | [] => normalized_weights
    | _ :: _ =>
        let total_non_highlighted_weight :=
          sum (map (getitem normalized_weights) non_highlighted) in
        if Qlt_bool needed_boost total_non_highlighted_weight then
          let normalized_weights :=
            fold_left
              (fun w other_dim =>
                 let reduction_ratio :=
                   getitem w other_dim / total_non_highlighted_weight in
                 let reduction := needed_boost * reduction_ratio in
                 setitem w other_dim (Qmax 0.05 (getitem w other_dim - reduction)))
              non_highlighted normalized_weights in
          let normalized_weights :=
            setitem normalized_weights dimension target_weight in
          normalize normalized_weights
        else normalized_weights
    end
  else normalized_weights.

(** [RequirementsProcessor._calculate_dimension_weights] *)
Definition _calculate_dimension_weights (r : ProjectRequirements) : Dict :=
  let base_weight := 0.2 in
  let weights : Dict :=
    [("cost", base_weight); ("scalability", base_weight);
     ("complexity", base_weight); ("ecosystem", base_weight);
     ("performance", base_weight)] in
  let dimension_boosts := dimension_boosts_of r in
  let weights :=
    fold_left (fun w '(dimension, boost) =>
                 setitem w dimension (getitem w dimension + boost))
      dimension_boosts weights in
  let weights :=
    fold_left (fun w dimension =>
                 setitem w dimension (Qmax 0.05 (getitem w dimension)))
      (keys weights) weights in
  let normalized_weights := normalize weights in
  let highlighted_dimensions :=
    List.filter (fun '(_, boost) => Qlt_bool 0.02 boost) dimension_boosts in
  let highlighted_dimensions := sorted_desc snd highlighted_dimensions in
  let normalized_weights := scale_priority_override r normalized_weights in
  let max_highlights := Nat.min 3 (length highlighted_dimensions) in
  let top_highlighted := take max_highlights highlighted_dimensions in
  fold_left (guarantee_step top_highlighted) top_highlighted normalized_weights.

(** [RequirementsProcessor._identify_priority_factors] *)
Fixpoint unique_in_order (seen : list string) (factors : list string)
  : list string :=
  match factors with
  | [] => []
  | f :: rest =>
      if contains seen f then unique_in_order seen rest
      else f :: unique_in_order (f :: seen) rest
  end.

Definition _identify_priority_factors (r : ProjectRequirements)
  : list string :=
  let factors :=
    match budget r with
    | BUDGET_LOW =>
        ["Cost optimization and budget constraints";
         "Open-source solutions preferred"]
    | BUDGET_MEDIUM => ["Balanced cost considerations"]
    | BUDGET_HIGH => []
    end in
  let factors :=
    factors ++
    match timeline r with
    | TIGHT =>
        ["Rapid development and deployment";
         "Minimal learning curve required";
         "Simple implementation approach"]
    | MODERATE => ["Reasonable learning curve acceptable"]
    | FLEXIBLE => []
    end in
  let factors :=
    factors ++
    match scalability_needs r with
    | LARGE =>
        ["Horizontal scalability requirements";
         "High performance optimization";
         "Enterprise-grade reliability"]
    | SCALE_MEDIUM => ["Moderate scalability needs"; "Performance considerations"]
    | SMALL => []
    end in
  let factors :=
    factors ++
    (if (5 <=? team_size r)%Z
     then ["Team collaboration features"; "Mature tooling ecosystem"]
     else []) in
  let factors :=
    factors ++
    match expertise_level r with
    | BEGINNER =>
        ["Strong ecosystem and community support";
         "Comprehensive documentation needed";
         "Gentle learning curve essential"]
    | INTERMEDIATE => ["Good community support helpful"]
    | EXPERT =>
        ["Advanced customization capabilities";
         "Cutting-edge features available"]
    end in
  unique_in_order [] factors.

(** [RequirementsProcessor._validate_weights] *)
Definition _validate_weights (weights : Dict) : Result unit :=
  raise_if (match weights with [] => true | _ => false end) ValueError;;
  raise_if (negb (forallb (contains (keys weights)) standard_dimensions))
    ValueError;;
  raise_if (negb (forallb (fun w => Qle_bool 0 w && Qle_bool w 1)
                    (values weights))) ValueError;;
  let total_weight := sum (values weights) in
  raise_if (negb (Qle_bool 0.95 total_weight && Qle_bool total_weight 1.05))
    ValueError;;
  max_weight ← match list_max (values weights) with
               | Some m => Ok m | None => Raise ValueError end;
  raise_if (Qlt_bool 0.6 max_weight) ValueError;;
  min_weight ← match list_min (values weights) with
               | Some m => Ok m | None => Raise ValueError end;
  raise_if (Qlt_bool min_weight 0.05) ValueError.

(** The [except] clauses of [process_requirements]: a conflict error passes
    through, any other exception becomes [RequirementsProcessingError]. *)
Definition reraise_processing {A : Type} (r : Result A) : Result A :=
  match r with
  | Ok a => Ok a
  | Raise (ConflictingRequirementsError c) =>
      Raise (ConflictingRequirementsError c)
  | Raise _ => Raise RequirementsProcessingError
  end.

(** [RequirementsProcessor.process_requirements].  The conflict detector is
    a parameter: it is an attribute of the processor object, which the
    command-line application replaces for its second attempt. *)
Definition process_requirements_with
    (detect : ProjectRequirements -> list string)
    (requirements : ProjectRequirements) : Result WeightedCriteria :=
  reraise_processing (
    _validate_requirements requirements;;
    let conflicts := detect requirements in
    raise_if (match conflicts with [] => false | _ => true end)
      (ConflictingRequirementsError conflicts);;
    let dimension_weights := _calculate_dimension_weights requirements in
    let priority_factors := _identify_priority_factors requirements in
    _validate_weights dimension_weights;;
    mk_WeightedCriteria dimension_weights priority_factors).

Definition process_requirements
  : ProjectRequirements -> Result WeightedCriteria :=
  process_requirements_with _detect_requirement_conflicts.

(** ** cli.py: the requirement-processing step of [RefereeApplication.run]

    The first attempt runs with conflict detection.  On a
    [ConflictingRequirementsError] the conflicts are printed as warnings and
    the requirements are processed again with the detector replaced by
    [lambda req: []].  The result pairs the warnings with the outcome; a
    failure of the second attempt ends the run ([return 1]). *)
Definition run_process_requirements (requirements : ProjectRequirements)
  : list string * Result WeightedCriteria :=
  match process_requirements requirements with
  | Raise (ConflictingRequirementsError conflicts) =>
      (conflicts, process_requirements_with (fun _ => []) requirements)
  | other => ([], other)
  end.


(** ** Strings

    A Python [str] is embedded as a string of 8-bit characters; [lower],
    [strip] and [split] act on the ASCII range as Python does.  Outside
    that range Python's methods also map the case of other letters and
    strip other white space; names with such characters are not covered. *)

Definition is_space (c : ascii) : bool :=
  let n := nat_of_ascii c in
  ((n =? 32) || ((9 <=? n) && (n <=? 13)) || ((28 <=? n) && (n <=? 31)))%nat.

Definition lower_ascii (c : ascii) : ascii :=
  let n := nat_of_ascii c in
  if ((65 <=? n) && (n <=? 90))%nat then ascii_of_nat (n + 32) else c.

(** [s.lower()] *)
Fixpoint lower (s : string) : string :=
  match s with
  | EmptyString => EmptyString
  | String c s' => String (lower_ascii c) (lower s')
  end.

Fixpoint lstrip (s : string) : string :=
  match s with
  | EmptyString => EmptyString
  | String c s' => if is_space c then lstrip s' else s
  end.

(** [s.strip()] *)
Definition strip (s : string) : string :=
  String.rev (lstrip (String.rev (lstrip s))).

(** [s in t] for strings. *)
Fixpoint substring_of (s t : string) : bool :=
  String.prefix s t ||
  match t with
  | EmptyString => false
  | String _ t' => substring_of s t'
  end.

(** [s.split()]: the maximal runs of non-space characters. *)
Fixpoint split_go (cur : option string) (s : string) : list string :=
  match s with
  | EmptyString => option_list (String.rev <$> cur)
  | String a s' =>
      if is_space a
      then option_list (String.rev <$> cur) ++ split_go None s'
      else split_go (Some (String a (default EmptyString cur))) s'
  end.

Definition split (s : string) : list string := split_go None s.

Definition nonempty (s : string) : bool :=
  match s with EmptyString => false | String _ _ => true end.

(** ** models.py: technology profiles

    The presentation-only fields of a profile ([pros], [cons], [best_for],
    [license], [maintainer]) take no part in any computation below and are
    left out of the record. *)

Record DimensionScore : Type := {
  ds_score : Q;
  ds_explanation : string
}.

Record TechnologyProfile : Type := {
  name : string;
  category : string;
  dimensions : gmap string DimensionScore;
  maturity : MaturityLevel
}.

(** The field constraints and [validate_required_dimensions] of
    [TechnologyProfile] and [DimensionScore]. *)
Definition valid_DimensionScore (d : DimensionScore) : Prop :=
  0 <= ds_score d /\ ds_score d <= 5 /\ ds_explanation d <> "".

Definition valid_TechnologyProfile (t : TechnologyProfile) : Prop :=
  name t <> "" /\ category t <> "" /\
  map_Forall (fun _ d => valid_DimensionScore d) (dimensions t) /\
  Forall (fun d => is_Some (dimensions t !! d)) standard_dimensions.

(** [CompatibilityScore]; the reasoning text is not part of the embedding
    (it is never empty and does not influence the score). *)
Record CompatibilityScore : Type := {
  cs_technology : string;
  cs_score : Q
}.

Definition mk_CompatibilityScore (technology : string) (score : Q)
  : Result CompatibilityScore :=
  raise_if (negb (nonempty technology)) ValidationError;;
  raise_if (negb (Qle_bool 0 score && Qle_bool score 1)) ValidationError;;
  Ok {| cs_technology := technology; cs_score := score |}.

Record TradeoffHighlight : Type := {
  th_dimension : string;
  th_leader : string;
  th_explanation : string
}.

Definition mk_TradeoffHighlight (dimension leader explanation : string)
  : Result TradeoffHighlight :=
  raise_if (negb (nonempty dimension && nonempty leader && nonempty explanation))
    ValidationError;;
  Ok {| th_dimension := dimension; th_leader := leader;
        th_explanation := explanation |}.

Record TradeoffMatrix : Type := {
  tm_technologies : list string;
  tm_dimensions : list string;
  tm_scores : list (list Q);
  tm_explanations : list (list string);
  tm_highlights : list TradeoffHighlight
}.

(** The field constraints of [TradeoffMatrix] with [validate_scores_dimensions]
    and [validate_explanations_dimensions]. *)
Definition mk_TradeoffMatrix (technologies dimensions : list string)
    (scores : list (list Q)) (explanations : list (list string))
    (highlights : list TradeoffHighlight) : Result TradeoffMatrix :=
  let rows := length technologies in
  let cols := length dimensions in
  raise_if (rows <? 2)%nat ValidationError;;
  raise_if (cols <? 1)%nat ValidationError;;
  raise_if (negb ((length scores =? rows)%nat &&
                  forallb (fun row => (length row =? cols)%nat) scores))
    ValidationError;;
  raise_if (negb ((length explanations =? rows)%nat &&
                  forallb (fun row => (length row =? cols)%nat) explanations))
    ValidationError;;
  Ok {| tm_technologies := technologies; tm_dimensions := dimensions;
        tm_scores := scores; tm_explanations := explanations;
        tm_highlights := highlights |}.

(** ** comparison_engine.py *)

(** The [except Exception] clauses that wrap into [ComparisonError]. *)
Definition wrap_ComparisonError {A : Type} (r : Result A) : Result A :=
  match r with
  | Ok a => Ok a
  | Raise _ => Raise ComparisonError
  end.

Definition clamp01 (x : Q) : Q := Qmax 0 (Qmin 1 x).

(** The body of the loop over [dimension_weights.items()]; the state is
    [(total_weighted_score, total_weight)]. *)
Definition compatibility_step (technology : TechnologyProfile)
    (acc : Q * Q) (item : string * Q) : Q * Q :=
  let '(total_weighted_score, total_weight) := acc in
  let '(dimension, weight) := item in
  if Qle_bool weight 0 then acc
  else
    match dimensions technology !! dimension with
    | Some d =>
        let dim_score := ds_score d in
        let normalized_score := clamp01 (dim_score / 5) in
        let weighted_contribution := normalized_score * weight in
        (total_weighted_score + weighted_contribution, total_weight + weight)
    | None =>
        let neutral_score := 0.5 in
        let weighted_contribution := neutral_score * weight * 0.5 in
        (total_weighted_score + weighted_contribution,
         total_weight + weight * 0.5)
    end.

(** [ComparisonEngine.calculate_compatibility] *)
Definition calculate_compatibility (technology : TechnologyProfile)
    (weighted_criteria : WeightedCriteria) : Result CompatibilityScore :=
  wrap_ComparisonError (
    raise_if (match dimension_weights weighted_criteria with
              | [] => true | _ => false end) ValueError;;
    let '(total_weighted_score, total_weight) :=
      fold_left (compatibility_step technology)
        (dimension_weights weighted_criteria) (0, 0) in
    let final_score :=
      if Qlt_bool 0 total_weight then total_weighted_score / total_weight
      else 0.5 in
    mk_CompatibilityScore (name technology) (clamp01 final_score)).

(** [ComparisonEngine._create_fallback_compatibility_score] *)
Definition _create_fallback_compatibility_score (technology : TechnologyProfile)
  : Result CompatibilityScore :=
  mk_CompatibilityScore (name technology) 0.5.

(** [ComparisonEngine._get_comparison_dimensions]: the collision test is the
    intersection of two sets of strings. *)
Definition _get_comparison_dimensions (custom_dimensions : option (list string))
  : Result (list string) :=
  let dimensions := standard_dimensions in
  match custom_dimensions with
  | Some (c :: cs) =>
      let conflicts := List.filter (contains standard_dimensions) (c :: cs) in
      raise_if (match conflicts with [] => false | _ => true end) ValueError;;
      Ok (dimensions ++ c :: cs)
  | _ => Ok dimensions
  end.

(** [ComparisonEngine._validate_comparison_inputs] *)
Definition _validate_comparison_inputs (technologies : list TechnologyProfile)
    (weighted_criteria : WeightedCriteria) : Result unit :=
  raise_if (match technologies with [] => true | _ => false end) ValueError;;
  raise_if (length technologies <? 2)%nat ValueError;;
  raise_if (5 <? length technologies)%nat ValueError;;
  raise_if (match dimension_weights weighted_criteria with
            | [] => true | _ => false end) InsufficientDataError;;
  let insufficient_data_count :=
    length (List.filter (fun tech => (size (dimensions tech) <? 3)%nat)
              technologies) in
  raise_if (Qlt_bool (inject_Z (Z.of_nat (length technologies)) / 2)
              (inject_Z (Z.of_nat insufficient_data_count)))
    InsufficientDataError.

(** [ComparisonEngine._validate_matrix_inputs] *)
Definition _validate_matrix_inputs (technologies : list TechnologyProfile)
    (dimensions : list string) : Result unit :=
  raise_if (match technologies with [] => true | _ => false end) ValueError;;
  raise_if (match dimensions with [] => true | _ => false end) ValueError;;
  raise_if (10 <? length dimensions)%nat ValueError.

(** The first failure stops a comprehension or a loop. *)
Fixpoint collect {A B : Type} (f : A -> Result B) (l : list A)
  : Result (list B) :=
  match l with
  | [] => Ok []
  | x :: l' => y ← f x; ys ← collect f l'; Ok (y :: ys)
  end.

Definition from_option {A : Type} (o : option A) (e : Exception) : Result A :=
  match o with Some a => Ok a | None => Raise e end.

(** [l.index(x)]: the first position holding a value equal to [x]. *)
Fixpoint index_of (x : Q) (l : list Q) : option nat :=
  match l with
  | [] => None
  | y :: l' => if Qeq_bool y x then Some 0%nat else S <$> index_of x l'
  end.

(** [f"{x:.1f}"] for a non-negative value: one decimal, the nearest one,
    a tie going to the even digit. *)
Definition round_half_even (q : Q) : Z :=
  let f := Qfloor q in
  match Qcompare (q - inject_Z f) 0.5 with
  | Lt => f
  | Gt => (f + 1)%Z
  | Eq => if Z.even f then f else (f + 1)%Z
  end.

Definition format_1f (q : Q) : string :=
  let n := round_half_even (q * 10) in
  pretty (n / 10)%Z +:+ "." +:+ pretty (n mod 10)%Z.

(** The cell of the trade-off matrix for one technology and one dimension:
    the profile's own score and explanation, or the neutral 3.0. *)
Definition matrix_cell (tech : TechnologyProfile) (dimension : string)
  : Q * string :=
  match dimensions tech !! dimension with
  | Some dim_score => (ds_score dim_score, ds_explanation dim_score)
  | None => (3.0, "No specific data available for " +:+ dimension)
  end.

(** One iteration of the loop of [_identify_highlights]. *)
Definition highlight_at (technologies : list TechnologyProfile)
    (scores : list (list Q)) (dim_idx : nat) (dimension : string)
  : Result (option TradeoffHighlight) :=
  dim_scores ←
    collect (fun tech_idx =>
               row ← from_option (scores !! tech_idx) IndexError;
               from_option (row !! dim_idx) IndexError)
      (seq 0 (length technologies));
  max_score ← from_option (list_max dim_scores) ValueError;
  max_tech_idx ← from_option (index_of max_score dim_scores) ValueError;
  leader ← from_option (technologies !! max_tech_idx) IndexError;
  let leader_tech := name leader in
  let sorted_scores := sorted_desc id dim_scores in
  match sorted_scores with
  | s0 :: s1 :: _ =>
      if Qle_bool 0.5 (s0 - s1) then
        let explanation :=
          match dimensions leader !! dimension with
          | Some d => ds_explanation d
          | None =>
              "Leads in " +:+ dimension +:+ " with score of "
                +:+ format_1f max_score
          end in
        h ← mk_TradeoffHighlight dimension leader_tech explanation;
        Ok (Some h)
      else Ok None
  | _ => Ok None
  end.

Fixpoint identify_highlights_from (technologies : list TechnologyProfile)
    (scores : list (list Q)) (dim_idx : nat) (dimensions : list string)
  : Result (list TradeoffHighlight) :=
  match dimensions with
  | [] => Ok []
  | dimension :: rest =>
      h ← highlight_at technologies scores dim_idx dimension;
      hs ← identify_highlights_from technologies scores (S dim_idx) rest;
      Ok (option_list h ++ hs)
  end.

(** [ComparisonEngine._identify_highlights] *)
Definition _identify_highlights (technologies : list TechnologyProfile)
    (dimensions : list string) (scores : list (list Q))
  : Result (list TradeoffHighlight) :=
  identify_highlights_from technologies scores 0 dimensions.

(** [ComparisonEngine.create_tradeoff_matrix].  Reading a cell cannot raise,
    so the per-cell fallback of the source is never taken; a failure of the
    highlight pass leaves the highlights empty. *)
Definition create_tradeoff_matrix (technologies : list TechnologyProfile)
    (dimensions : list string) : Result TradeoffMatrix :=
  wrap_ComparisonError (
    _validate_matrix_inputs technologies dimensions;;
    let tech_names := map name technologies in
    let scores :=
      map (fun tech => map (fun d => fst (matrix_cell tech d)) dimensions)
        technologies in
    let explanations :=
      map (fun tech => map (fun d => snd (matrix_cell tech d)) dimensions)
        technologies in
    let highlights :=
      match _identify_highlights technologies dimensions scores with
      | Ok hs => hs
      | Raise _ => []
      end in
    mk_TradeoffMatrix tech_names dimensions scores explanations highlights).

(** The result of [generate_comparison]; the side-by-side presentation
    data is left out. *)
Record ComparisonResult : Type := {
  cr_technologies : list string;
  cr_tradeoff_matrix : TradeoffMatrix;
  cr_compatibility_scores : list CompatibilityScore;
  cr_weighted_criteria : WeightedCriteria
}.

(** [ComparisonEngine.generate_comparison] *)
Definition generate_comparison (technologies : list TechnologyProfile)
    (weighted_criteria : WeightedCriteria)
    (custom_dimensions : option (list string)) : Result ComparisonResult :=
  _validate_comparison_inputs technologies weighted_criteria;;
  wrap_ComparisonError (
    dimensions ← _get_comparison_dimensions custom_dimensions;
    tradeoff_matrix ← create_tradeoff_matrix technologies dimensions;
    compatibility_scores ←
      collect (fun tech =>
                 match calculate_compatibility tech weighted_criteria with
                 | Ok score => Ok score
                 | Raise _ => _create_fallback_compatibility_score tech
                 end) technologies;
    Ok {| cr_technologies := map name technologies;
          cr_tradeoff_matrix := tradeoff_matrix;
          cr_compatibility_scores := compatibility_scores;
          cr_weighted_criteria := weighted_criteria |}).

(** ** recommendation_engine.py

    The reasoning texts, the decision factors and the caveats are text
    only; they are left out.  They raise nothing that
    [_create_ranked_choices] has not raised before them. *)

Record RankedChoice : Type := {
  rc_technology : string;
  rc_score : Q;
  rc_confidence : ConfidenceLevel
}.

Definition mk_RankedChoice (technology : string) (score : Q)
    (confidence : ConfidenceLevel) : Result RankedChoice :=
  raise_if (negb (nonempty technology)) ValidationError;;
  raise_if (negb (Qle_bool 0 score && Qle_bool score 1)) ValidationError;;
  Ok {| rc_technology := technology; rc_score := score;
        rc_confidence := confidence |}.

Record AlternativeScenario : Type := {
  as_scenario : string;
  as_recommended_tech : string;
  as_explanation : string
}.

Definition mk_AlternativeScenario (scenario recommended_tech explanation : string)
  : Result AlternativeScenario :=
  raise_if (negb (nonempty scenario && nonempty recommended_tech
                  && nonempty explanation)) ValidationError;;
  Ok {| as_scenario := scenario; as_recommended_tech := recommended_tech;
        as_explanation := explanation |}.

Record Recommendation : Type := {
  ranked_choices : list RankedChoice;
  alternative_scenarios : option (list AlternativeScenario)
}.

(** [==] on lists of floats. *)
Fixpoint list_Qeq_bool (l1 l2 : list Q) : bool :=
  match l1, l2 with
  | [], [] => true
  | x :: l1', y :: l2' => Qeq_bool x y && list_Qeq_bool l1' l2'
  | _, _ => false
  end.

(** The constraints of [Recommendation]: at least one ranked choice,
    [validate_unique_technologies_in_ranking], [validate_score_ordering]. *)
Definition mk_Recommendation (ranked : list RankedChoice)
    (scenarios : option (list AlternativeScenario)) : Result Recommendation :=
  raise_if (match ranked with [] => true | _ => false end) ValidationError;;
  let technologies := map rc_technology ranked in
  raise_if (negb (length technologies
                  =? size (list_to_set technologies : gset string))%nat)
    ValidationError;;
  let scores := map rc_score ranked in
  raise_if (negb (list_Qeq_bool scores (sorted_desc id scores)))
    ValidationError;;
  Ok {| ranked_choices := ranked; alternative_scenarios := scenarios |}.

(** [RecommendationEngine._calculate_confidence] *)
Definition _calculate_confidence (comp_score : CompatibilityScore)
    (all_scores : list CompatibilityScore) (rank : nat) : ConfidenceLevel :=
  let score := cs_score comp_score in
  match rank, all_scores with
  | O, _ :: second :: _ =>
      let second_score := cs_score second in
      if Qlt_bool 0 second_score then
        let percentage_gap := (score - second_score) / second_score in
        if Qle_bool percentage_gap 0.02 then CONF_LOW
        else if Qle_bool percentage_gap 0.05 then
          if Qle_bool 0.85 score then CONF_MEDIUM else CONF_LOW
        else if Qle_bool percentage_gap 0.15 then
          if Qle_bool 0.8 score then CONF_HIGH
          else if Qle_bool 0.6 score then CONF_MEDIUM
          else CONF_LOW
        else
          if Qle_bool 0.7 score then CONF_HIGH
          else if Qle_bool 0.5 score then CONF_MEDIUM
          else CONF_LOW
      else
        if Qle_bool 0.8 score then CONF_HIGH
        else if Qle_bool 0.6 score then CONF_MEDIUM
        else CONF_LOW
  | _, _ =>
      if Qle_bool 0.8 score then CONF_HIGH
      else if Qle_bool 0.6 score then CONF_MEDIUM
      else CONF_LOW
  end.

(** [{tech.name: tech for tech in technologies}]: a later profile replaces
    an earlier one of the same name. *)
Definition tech_lookup_of (technologies : list TechnologyProfile)
  : gmap string TechnologyProfile :=
  fold_left (fun m tech => <[name tech := tech]> m) technologies ∅.

Fixpoint ranked_from (tech_lookup : gmap string TechnologyProfile)
    (sorted_scores : list CompatibilityScore) (i : nat)
    (rest : list CompatibilityScore) : Result (list RankedChoice) :=
  match rest with
  | [] => Ok []
  | comp_score :: rest' =>
      technology ← from_option (tech_lookup !! cs_technology comp_score) KeyError;
      let confidence := _calculate_confidence comp_score sorted_scores i in
      ranked_choice ←
        mk_RankedChoice (cs_technology comp_score) (cs_score comp_score)
          confidence;
      ranked_choices ← ranked_from tech_lookup sorted_scores (S i) rest';
      Ok (ranked_choice :: ranked_choices)
  end.

(** [RecommendationEngine._create_ranked_choices] *)
Definition _create_ranked_choices (technologies : list TechnologyProfile)
    (compatibility_scores : list CompatibilityScore)
  : Result (list RankedChoice) :=
  let tech_lookup := tech_lookup_of technologies in
  let sorted_scores := sorted_desc cs_score compatibility_scores in
  ranked_from tech_lookup sorted_scores 0 sorted_scores.

(** The three search loops of [_generate_alternative_scenarios] share one
    shape: among the technologies that have the dimension, keep the name of
    the first one whose measure strictly improves on the best so far. *)
Fixpoint focused_tech (tech_lookup : gmap string TechnologyProfile)
    (dimension : string) (measure : Q -> Q) (improves : Q -> Q -> bool)
    (compatibility_scores : list CompatibilityScore)
    (best : Q) (focused : option string) : Result (option string) :=
  match compatibility_scores with
  | [] => Ok focused
  | score :: rest =>
      tech ← from_option (tech_lookup !! cs_technology score) KeyError;
      match dimensions tech !! dimension with
      | Some d =>
          let candidate := measure (ds_score d) in
          if improves candidate best
          then focused_tech tech_lookup dimension measure improves rest
                 candidate (Some (name tech))
          else focused_tech tech_lookup dimension measure improves rest
                 best focused
      | None =>
          focused_tech tech_lookup dimension measure improves rest best focused
      end
  end.

(** The truth value of an optional name: [None] and the empty string are
    false. *)
Definition truthy (o : option string) : option string :=
  match o with
  | Some s => if nonempty s then Some s else None
  | None => None
  end.

(** [RecommendationEngine._generate_alternative_scenarios] *)
Definition _generate_alternative_scenarios
    (technologies : list TechnologyProfile)
    (compatibility_scores : list CompatibilityScore)
  : Result (option (list AlternativeScenario)) :=
  let scenarios := [] in
  let tech_lookup := tech_lookup_of technologies in
  budget_focused_tech ←
    focused_tech tech_lookup "cost" (fun s => 5.0 - s)
      (fun c best => Qlt_bool best c) compatibility_scores 0 None;
  scenarios ←
    match truthy budget_focused_tech with
    | Some t =>
        s ← mk_AlternativeScenario "If budget becomes the primary constraint" t
              "This option offers the best cost-effectiveness for the project requirements";
        Ok (scenarios ++ [s])
    | None => Ok scenarios
    end;
  scalability_focused_tech ←
    focused_tech tech_lookup "scalability" (fun s => s)
      (fun c best => Qlt_bool best c) compatibility_scores 0 None;
  scenarios ←
    match truthy scalability_focused_tech with
    | Some t =>
        first ← from_option (head compatibility_scores) IndexError;
        if negb (String.eqb t (cs_technology first)) then
          s ← mk_AlternativeScenario "If scalability becomes the top priority" t
                "This option provides the strongest scalability capabilities";
          Ok (scenarios ++ [s])
        else Ok scenarios
    | None => Ok scenarios
    end;
  simplicity_focused_tech ←
    focused_tech tech_lookup "complexity" (fun s => s)
      (fun c best => Qlt_bool c best) compatibility_scores 6.0 None;
  scenarios ←
    match truthy simplicity_focused_tech with
    | Some t =>
        first ← from_option (head compatibility_scores) IndexError;
        if negb (String.eqb t (cs_technology first)) then
          s ← mk_AlternativeScenario
                "If team expertise is limited or learning curve is a concern" t
                "This option offers the lowest complexity and easiest learning curve";
          Ok (scenarios ++ [s])
        else Ok scenarios
    | None => Ok scenarios
    end;
  Ok (match scenarios with [] => None | _ => Some scenarios end).

(** [RecommendationEngine.generate_recommendation] *)
Definition generate_recommendation (technologies : list TechnologyProfile)
    (compatibility_scores : list CompatibilityScore)
    (weighted_criteria : WeightedCriteria) : Result Recommendation :=
  raise_if (match technologies with [] => true | _ => false end) ValueError;;
  raise_if (negb (length compatibility_scores =? length technologies)%nat)
    ValueError;;
  ranked_choices ← _create_ranked_choices technologies compatibility_scores;
  alternative_scenarios ←
    _generate_alternative_scenarios technologies compatibility_scores;
  mk_Recommendation ranked_choices alternative_scenarios.

(** ** analyzer.py *)

Definition dims_of (l : list (string * Q * string))
  : gmap string DimensionScore :=
  fold_left
    (fun m '(d, score, explanation) =>
       <[d := {| ds_score := score; ds_explanation := explanation |}]> m)
    l ∅.

(** The profiles of [_build_knowledge_base], in insertion order. *)
Definition REST_profile : TechnologyProfile := {|
  name := "REST";
  category := "API";
  dimensions :=
    dims_of
      [("cost", 4.5,
        "Low implementation cost, uses standard HTTP infrastructure");
       ("scalability", 4.0,
        "Scales well with caching and CDNs, stateless nature helps");
       ("complexity", 4.5,
        "Simple to understand and implement, follows HTTP conventions");
       ("ecosystem", 5.0,
        "Mature ecosystem with extensive tooling and library support");
       ("performance", 3.5,
        "Good performance but can be chatty with multiple round trips")];
  maturity := MATURE
|}.

Definition GraphQL_profile : TechnologyProfile := {|
  name := "GraphQL";
  category := "API";
  dimensions :=
    dims_of
      [("cost", 3.0,
        "Higher implementation complexity increases development costs");
       ("scalability", 4.5,
        "Excellent query optimization and single endpoint scaling");
       ("complexity", 2.5,
        "Steep learning curve, complex schema design and resolver logic");
       ("ecosystem", 4.0,
        "Growing ecosystem with good tooling, but less mature than REST");
       ("performance", 4.5,
        "Efficient data fetching, reduces over-fetching significantly")];
  maturity := STABLE
|}.

Definition AWS_Lambda_profile : TechnologyProfile := {|
  name := "AWS Lambda";
  category := "Cloud Service";
  dimensions :=
    dims_of
      [("cost", 4.0,
        "Pay-per-execution model, cost-effective for variable workloads");
       ("scalability", 5.0,
        "Automatic scaling to handle any load, virtually unlimited");
       ("complexity", 3.0,
        "Serverless paradigm requires different thinking, cold start considerations");
       ("ecosystem", 4.5,
        "Rich AWS ecosystem integration, extensive third-party support");
       ("performance", 3.5,
        "Good performance but cold starts can impact latency")];
  maturity := MATURE
|}.

Definition EC2_profile : TechnologyProfile := {|
  name := "EC2";
  category := "Cloud Service";
  dimensions :=
    dims_of
      [("cost", 3.0,
        "Predictable costs but requires capacity planning and optimization");
       ("scalability", 4.0,
        "Good scaling with auto-scaling groups, but requires configuration");
       ("complexity", 2.5,
        "Requires server management, security patching, and infrastructure knowledge");
       ("ecosystem", 4.5,
        "Mature ecosystem with extensive AWS integration and tooling");
       ("performance", 4.5,
        "Excellent performance with full control over compute resources")];
  maturity := MATURE
|}.

Definition React_profile : TechnologyProfile := {|
  name := "React";
  category := "Frontend Framework";
  dimensions :=
    dims_of
      [("cost", 4.5,
        "Free and open-source with large talent pool reducing costs");
       ("scalability", 4.0,
        "Scales well for large applications with proper architecture");
       ("complexity", 3.5,
        "Moderate learning curve, requires understanding of modern JS concepts");
       ("ecosystem", 5.0,
        "Largest ecosystem with extensive libraries and community support");
       ("performance", 4.0,
        "Good performance with virtual DOM, requires optimization for large apps")];
  maturity := MATURE
|}.

Definition Vue_profile : TechnologyProfile := {|
  name := "Vue";
  category := "Frontend Framework";
  dimensions :=
    dims_of
      [("cost", 4.5,
        "Free and open-source with growing talent pool");
       ("scalability", 4.0,
        "Scales well with good architecture, excellent for medium-large apps");
       ("complexity", 4.5,
        "Gentle learning curve, intuitive template syntax");
       ("ecosystem", 3.5,
        "Growing ecosystem but smaller than React, good official tooling");
       ("performance", 4.5,
        "Excellent performance with efficient reactivity system")];
  maturity := STABLE
|}.

Definition PostgreSQL_profile : TechnologyProfile := {|
  name := "PostgreSQL";
  category := "Database";
  dimensions :=
    dims_of
      [("cost", 5.0,
        "Free and open-source with no licensing costs");
       ("scalability", 4.0,
        "Good vertical scaling, horizontal scaling requires additional setup");
       ("complexity", 3.0,
        "Rich feature set requires learning, but well-documented");
       ("ecosystem", 4.5,
        "Mature ecosystem with extensive extensions and tooling");
       ("performance", 4.5,
        "Excellent performance for complex queries and ACID compliance")];
  maturity := MATURE
|}.

Definition MongoDB_profile : TechnologyProfile := {|
  name := "MongoDB";
  category := "Database";
  dimensions :=
    dims_of
      [("cost", 3.5,
        "Free community version, but enterprise features require licensing");
       ("scalability", 5.0,
        "Excellent horizontal scaling with built-in sharding");
       ("complexity", 4.0,
        "Easy to get started, but requires understanding of NoSQL concepts");
       ("ecosystem", 4.0,
        "Good ecosystem with strong driver support across languages");
       ("performance", 4.0,
        "Good performance for read-heavy workloads and flexible schemas")];
  maturity := MATURE
|}.

Definition knowledge_base : list (string * TechnologyProfile) :=
  [("REST", REST_profile);
   ("GraphQL", GraphQL_profile);
   ("AWS Lambda", AWS_Lambda_profile);
   ("EC2", EC2_profile);
   ("React", React_profile);
   ("Vue", Vue_profile);
   ("PostgreSQL", PostgreSQL_profile);
   ("MongoDB", MongoDB_profile)].

(** [TechnologyAnalyzer._is_abbreviation_match] *)
Definition abbreviation_map : list (string * string) :=
  [("js", "javascript"); ("ts", "typescript"); ("py", "python");
   ("pg", "postgresql"); ("mongo", "mongodb"); ("k8s", "kubernetes");
   ("aws", "amazon web services")].

Definition first_letters (words : list string) : string :=
  fold_right
    (fun word acc =>
       match word with
       | EmptyString => acc
       | String c _ => String c acc
       end)
    EmptyString words.

Definition _is_abbreviation_match (abbrev full_name : string) : bool :=
  if (String.length abbrev <? 2)%nat then false
  else
    let words := split (lower full_name) in
    if (2 <=? length words)%nat && String.eqb abbrev (first_letters words)
    then true
    else
      match List.find (fun '(short, _) => String.eqb short abbrev)
              abbreviation_map with
      | Some (_, long) => substring_of long (lower full_name)
      | None => false
      end.

(** [self._knowledge_base.get(k)] *)
Definition kb_get (kb : list (string * TechnologyProfile)) (k : string)
  : option TechnologyProfile :=
  snd <$> List.find (fun '(known, _) => String.eqb known k) kb.

(** [TechnologyAnalyzer.get_technology_profile]; the knowledge base is the
    attribute [self._knowledge_base]. *)
Definition get_technology_profile (kb : list (string * TechnologyProfile))
    (technology_name : string) : option TechnologyProfile :=
  if negb (nonempty technology_name) || negb (nonempty (strip technology_name))
  then None
  else
    match kb_get kb technology_name with
    | Some profile => Some profile
    | None =>
        match List.find
                (fun '(known_tech, _) =>
                   String.eqb (lower known_tech) (lower technology_name)) kb with
        | Some (_, profile) => Some profile
        | None =>
            let normalized_input := strip (lower technology_name) in
            snd <$>
              List.find
                (fun '(known_tech, _) =>
                   let known_lower := lower known_tech in
                   substring_of normalized_input known_lower
                   || substring_of known_lower normalized_input
                   || _is_abbreviation_match normalized_input known_lower)
                kb
        end
    end.

(** [TechnologyAnalyzer._guess_technology_category] *)
Definition any_keyword (keywords : list string) (name_lower : string) : bool :=
  existsb (fun keyword => substring_of keyword name_lower) keywords.

Definition _guess_technology_category (technology_name : string) : string :=
  let name_lower := lower technology_name in
  if any_keyword ["db"; "database"; "sql"; "mongo"; "redis"; "elastic"] name_lower
  then "Database"
  else if any_keyword ["api"; "rest"; "graphql"; "grpc"] name_lower
  then "API"
  else if any_keyword ["aws"; "azure"; "gcp"; "cloud"; "lambda"; "function"]
            name_lower
  then "Cloud Service"
  else if any_keyword ["react"; "vue"; "angular"; "svelte"; "frontend"; "ui"]
            name_lower
  then "Frontend Framework"
  else if any_keyword ["express"; "django"; "flask"; "spring"; "fastapi"]
            name_lower
  then "Backend Framework"
  else "Technology".

(** [TechnologyAnalyzer._create_fallback_profile]; the construction fails on
    an empty name. *)
Definition _create_fallback_profile (technology_name : string)
  : Result TechnologyProfile :=
  let category := _guess_technology_category technology_name in
  let neutral_dimensions :=
    dims_of
      (map (fun d => (d, 3.0,
                      "No specific " +:+ d +:+ " data available for "
                        +:+ technology_name))
         standard_dimensions) in
  raise_if (negb (nonempty technology_name)) ValidationError;;
  Ok {| name := technology_name; category := category;
        dimensions := neutral_dimensions; maturity := STABLE |}.

(** [TechnologyAnalyzer.get_technology_profile_with_fallback]; the flag
    tells whether the profile was synthesized. *)
Definition get_technology_profile_with_fallback
    (kb : list (string * TechnologyProfile)) (technology_name : string)
  : Result (TechnologyProfile * bool) :=
  match get_technology_profile kb technology_name with
  | Some profile => Ok (profile, false)
  | None =>
      match _create_fallback_profile technology_name with
      | Ok fallback_profile => Ok (fallback_profile, true)
      | Raise _ => Raise TechnologyNotFoundError
      end
  end.

(** ** Checks on custom dimension names *)

(** [ComparisonRequest.validate_custom_dimensions] (models.py) *)
Definition validate_custom_dimensions (v : option (list string))
  : Result (option (list string)) :=
  match v with
  | None => Ok v
  | Some l =>
      let conflicts := List.filter (contains standard_dimensions) l in
      raise_if (match conflicts with [] => false | _ => true end)
        ValidationError;;
      Ok v
  end.

(** [InputParser._validate_custom_dimensions] (input_parser.py) *)
Definition _validate_custom_dimensions (custom_dimensions : list string)
  : Result unit :=
  let conflicts :=
    List.filter (fun dimension =>
                   contains standard_dimensions (strip (lower dimension)))
      custom_dimensions in
  raise_if (match conflicts with [] => false | _ => true end)
    InputValidationError;;
  let unique_dimensions : gset string :=
    list_to_set (map (fun dim => strip (lower dim)) custom_dimensions) in
  raise_if (negb (size unique_dimensions =? length custom_dimensions)%nat)
    InputValidationError;;
  raise_if (existsb (fun dimension => negb (nonempty (strip dimension)))
              custom_dimensions) InputValidationError.

(** ** Specification-level definitions and decision procedures *)

(** The input invariant of [ProjectRequirements] together with the upper
    bound that request validation accepts. *)
Definition valid_requirements (r : ProjectRequirements) : Prop :=
  (1 <= team_size r <= 1000)%Z.

(** The output contract on dimension weights. *)
Definition weights_invariant (w : Dict) : Prop :=
  keys w = standard_dimensions /\
  0.95 <= sum (values w) /\ sum (values w) <= 1.05 /\
  Forall (fun x => 0.05 <= x /\ x <= 0.6) (values w).

Definition weights_invariant_bool (w : Dict) : bool :=
  bool_decide (keys w = standard_dimensions)
  && Qle_bool 0.95 (sum (values w)) && Qle_bool (sum (values w)) 1.05
  && forallb (fun x => Qle_bool 0.05 x && Qle_bool x 0.6) (values w).

Definition default_requirements : ProjectRequirements :=
  {| team_size := 3; budget := BUDGET_MEDIUM; timeline := MODERATE;
     scalability_needs := SCALE_MEDIUM; expertise_level := INTERMEDIATE |}.

(** A team of 1000 with every level at its default. *)
Definition team_of_1000 : ProjectRequirements :=
  {| team_size := 1000; budget := BUDGET_MEDIUM; timeline := MODERATE;
     scalability_needs := SCALE_MEDIUM; expertise_level := INTERMEDIATE |}.

(** The conflicting scenario: low budget, tight timeline, large scale. *)
Definition conflicting_requirements : ProjectRequirements :=
  {| team_size := 3; budget := BUDGET_LOW; timeline := TIGHT;
     scalability_needs := LARGE; expertise_level := INTERMEDIATE |}.

(** Conflict-free requirements are processed to a result. *)
Definition accepted_check (r : ProjectRequirements) : bool :=
  match _detect_requirement_conflicts r with
  | [] => is_Ok (process_requirements r)
  | _ :: _ => true
  end.

(** The smallest conflict-free request that is rejected. *)
Definition team_of_26 : ProjectRequirements :=
  {| team_size := 26; budget := BUDGET_MEDIUM; timeline := FLEXIBLE;
     scalability_needs := SCALE_MEDIUM; expertise_level := EXPERT |}.

Definition for_all_budgets (f : BudgetLevel -> bool) : bool :=
  f BUDGET_LOW && f BUDGET_MEDIUM && f BUDGET_HIGH.
Definition for_all_timelines (f : TimelineLevel -> bool) : bool :=
  f TIGHT && f MODERATE && f FLEXIBLE.
Definition for_all_scales (f : ScaleLevel -> bool) : bool :=
  f SMALL && f SCALE_MEDIUM && f LARGE.
Definition for_all_expertise (f : ExpertiseLevel -> bool) : bool :=
  f BEGINNER && f INTERMEDIATE && f EXPERT.

Definition for_all_levels (f : ProjectRequirements -> bool) (n : Z) : bool :=
  for_all_budgets (fun b =>
  for_all_timelines (fun t =>
  for_all_scales (fun s =>
  for_all_expertise (fun e =>
    f {| team_size := n; budget := b; timeline := t;
         scalability_needs := s; expertise_level := e |})))).

(** [f] holds on every team size from 1 to [n]. *)
Fixpoint for_all_upto (n : nat) (f : Z -> bool) : bool :=
  match n with
  | O => true
  | S n' => f (Z.of_nat n) && for_all_upto n' f
  end.


(** The compatibility score in the words of the specification: over the
    dimensions of positive weight, [T] adds up the contributions and [W] the
    weights actually used. *)
Definition positive_items (wc : WeightedCriteria) : Dict :=
  List.filter (fun item => Qlt_bool 0 (snd item)) (dimension_weights wc).

Definition contribution (technology : TechnologyProfile) (item : string * Q)
  : Q :=
  match dimensions technology !! fst item with
  | Some d => clamp01 (ds_score d / 5) * snd item
  | None => 0.5 * snd item * 0.5
  end.

Definition used_weight (technology : TechnologyProfile) (item : string * Q)
  : Q :=
  match dimensions technology !! fst item with
  | Some _ => snd item
  | None => snd item * 0.5
  end.

Definition compatibility_spec (technology : TechnologyProfile)
    (wc : WeightedCriteria) : Q :=
  let T := sum (map (contribution technology) (positive_items wc)) in
  let W := sum (map (used_weight technology) (positive_items wc)) in
  clamp01 (if Qeq_bool W 0 then 0.5 else T / W).

(** The confidence tables of the specification, as conditions on the
    level [c] assigned to a score [s]. *)
Definition absolute_thresholds (s : Q) (c : ConfidenceLevel) : Prop :=
  (0.8 <= s -> c = CONF_HIGH) /\
  (0.6 <= s -> s < 0.8 -> c = CONF_MEDIUM) /\
  (s < 0.6 -> c = CONF_LOW).

(** [r] is the positive score of the runner-up; the gap is relative to it. *)
Definition gap_thresholds (s r : Q) (c : ConfidenceLevel) : Prop :=
  let gap := (s - r) / r in
  (gap <= 0.02 -> c = CONF_LOW) /\
  (0.02 < gap -> gap <= 0.05 ->
     (0.85 <= s -> c = CONF_MEDIUM) /\ (s < 0.85 -> c = CONF_LOW)) /\
  (0.05 < gap -> gap <= 0.15 ->
     (0.8 <= s -> c = CONF_HIGH) /\
     (0.6 <= s -> s < 0.8 -> c = CONF_MEDIUM) /\
     (s < 0.6 -> c = CONF_LOW)) /\
  (0.15 < gap ->
     (0.7 <= s -> c = CONF_HIGH) /\
     (0.5 <= s -> s < 0.7 -> c = CONF_MEDIUM) /\
     (s < 0.5 -> c = CONF_LOW)).

(** A two-technology request used to exercise the engines. *)
Definition sample_scores : list CompatibilityScore :=
  [{| cs_technology := "GraphQL"; cs_score := 0.74 |};
   {| cs_technology := "REST"; cs_score := 0.86 |}].

Definition sample_criteria : WeightedCriteria :=
  {| dimension_weights :=
       [("cost", 0.2); ("scalability", 0.2); ("complexity", 0.2);
        ("ecosystem", 0.2); ("performance", 0.2)];
     priority_factors := [] |}.

(** A profile outside the knowledge base whose cost score is the best
    possible one, 5.0, like that of PostgreSQL. *)
Definition SQLite_profile : TechnologyProfile := {|
  name := "SQLite";
  category := "Database";
  dimensions :=
    dims_of
      [("cost", 5.0, "Public domain, no licensing or server costs");
       ("scalability", 2.0, "Single-writer embedded engine");
       ("complexity", 4.5, "Zero configuration, a single file");
       ("ecosystem", 4.0, "Bindings for every major language");
       ("performance", 3.5, "Fast for local workloads")];
  maturity := MATURE
|}.

Definition database_scores : list CompatibilityScore :=
  [{| cs_technology := "PostgreSQL"; cs_score := 0.84 |};
   {| cs_technology := "SQLite"; cs_score := 0.76 |}].

(** The score a technology shows in the matrix for a dimension. *)
Definition cell_score (t : TechnologyProfile) (d : string) : Q :=
  fst (matrix_cell t d).

(** [leader] is one of the technologies and every other entry of the list
    scores at least 0.5 lower in dimension [d]: the maximum exceeds the
    second-highest score by at least 0.5. *)
Definition leads_by_half (technologies : list TechnologyProfile) (d : string)
    (leader : TechnologyProfile) : Prop :=
  exists before after,
    technologies = before ++ leader :: after /\
    Forall (fun t => cell_score t d + 0.5 <= cell_score leader d)
      (before ++ after).

(** The highlight the specification describes for a leader. *)
Definition highlight_for (d : string) (leader : TechnologyProfile)
  : TradeoffHighlight :=
  {| th_dimension := d;
     th_leader := name leader;
     th_explanation :=
       match dimensions leader !! d with
       | Some ds => ds_explanation ds
       | None =>
           "Leads in " +:+ d +:+ " with score of "
             +:+ format_1f (cell_score leader d)
       end |}.

(** The profile invariant as a test. *)
Definition valid_profile_bool (t : TechnologyProfile) : bool :=
  nonempty (name t) && nonempty (category t)
  && forallb (fun kd => Qle_bool 0 (ds_score (snd kd))
                        && Qle_bool (ds_score (snd kd)) 5
                        && nonempty (ds_explanation (snd kd)))
       (map_to_list (dimensions t))
  && forallb (fun d => match dimensions t !! d with
                       | Some _ => true | None => false end)
       standard_dimensions.

(** Scores as [generate_comparison] hands them on: one per technology, in
    the order of the technologies, which have distinct non-empty names,
    each score in [0, 1]. *)
Definition scores_match (technologies : list TechnologyProfile)
    (compatibility_scores : list CompatibilityScore) : Prop :=
  technologies <> [] /\
  map cs_technology compatibility_scores = map name technologies /\
  NoDup (map name technologies) /\
  Forall (fun t => name t <> "") technologies /\
  Forall (fun cs => 0 <= cs_score cs /\ cs_score cs <= 1) compatibility_scores.

(** ** requirements_processor.py: the adjustment helpers *)

(** [RequirementsProcessor._calculate_cost_weight_adjustment] *)
Definition _calculate_cost_weight_adjustment (budget : BudgetLevel) : Q :=
  match budget with
  | BUDGET_LOW => 0.3
  | BUDGET_MEDIUM => 0.1
  | BUDGET_HIGH => -0.1
  end.

(** [RequirementsProcessor._calculate_complexity_weight_adjustment] *)
Definition _calculate_complexity_weight_adjustment (timeline : TimelineLevel)
    (expertise : ExpertiseLevel) : Q :=
  let timeline_adjustment :=
    match timeline with
    | TIGHT => 0.3
    | MODERATE => 0.1
    | FLEXIBLE => -0.1
    end in
  let expertise_modifier :=
    match expertise with
    | BEGINNER => 0.1
    | INTERMEDIATE => 0.0
    | EXPERT => -0.1
    end in
  timeline_adjustment + expertise_modifier.

(** [RequirementsProcessor._calculate_scalability_weight_adjustment] *)
Definition _calculate_scalability_weight_adjustment
    (scalability_needs : ScaleLevel) : Q :=
  match scalability_needs with
  | LARGE => 0.3
  | SCALE_MEDIUM => 0.1
  | SMALL => -0.1
  end.

(** [RequirementsProcessor._calculate_ecosystem_weight_adjustment] *)
Definition _calculate_ecosystem_weight_adjustment (team_size : Z)
    (expertise : ExpertiseLevel) : Q :=
  let size_adjustment := Qmin 0.1 (inject_Z team_size * 0.02) in
  let expertise_adjustment :=
    match expertise with
    | BEGINNER => 0.1
    | INTERMEDIATE => 0.05
    | EXPERT => -0.05
    end in
  size_adjustment + expertise_adjustment.

(** [RequirementsProcessor.get_requirement_conflicts_with_suggestions] *)
Record ConflictAnalysis : Type := {
  has_conflicts : bool;
  ca_conflicts : list string;
  ca_suggestions : list string
}.

Definition any_conflict (test : string -> bool) (conflicts : list string)
  : bool := existsb test conflicts.

(** The part of the analysis that follows the detection. *)
Definition conflict_analysis_of (conflicts : list string) : ConflictAnalysis :=
  match conflicts with
  | [] => {| has_conflicts := false; ca_conflicts := []; ca_suggestions := [] |}
  | _ :: _ =>
      let suggestions := [] in
      let suggestions :=
        if any_conflict (substring_of "competing priorities") conflicts
        then suggestions ++
             ["Consider relaxing one constraint: increase budget, extend timeline, or reduce scale requirements"]
        else suggestions in
      let suggestions :=
        if any_conflict
             (fun conflict => substring_of "beginner expertise" (lower conflict))
             conflicts
        then suggestions ++
             ["Consider adding experienced team members or extending timeline for learning"]
        else suggestions in
      let suggestions :=
        if any_conflict (substring_of "resource mismatch") conflicts
        then suggestions ++
             ["Re-evaluate budget allocation or team composition for better alignment"]
        else suggestions in
      let suggestions :=
        if any_conflict (substring_of "over-engineering") conflicts
        then suggestions ++
             ["Consider reducing team size or increasing scalability requirements to match effort"]
        else suggestions in
      let suggestions :=
        if any_conflict (substring_of "poor planning") conflicts
        then suggestions ++
             ["Review project planning: tight timelines typically require experienced teams"]
        else suggestions in
      {| has_conflicts := true; ca_conflicts := conflicts;
         ca_suggestions := suggestions |}
  end.

Definition get_requirement_conflicts_with_suggestions
    (requirements : ProjectRequirements) : ConflictAnalysis :=
  let conflicts := _detect_requirement_conflicts requirements in
  conflict_analysis_of conflicts.

(** ** recommendation_engine.py: caveats *)

Definition general_caveat : string :=
  "Recommendations may change if project requirements or constraints are updated".

(** The loop over the scores that warns about experimental technologies. *)
Fixpoint experimental_caveats (tech_lookup : gmap string TechnologyProfile)
    (compatibility_scores : list CompatibilityScore) (caveats : list string)
  : Result (list string) :=
  match compatibility_scores with
  | [] => Ok caveats
  | score :: rest =>
      tech ← from_option (tech_lookup !! cs_technology score) KeyError;
      let caveats :=
        match maturity tech with
        | EXPERIMENTAL =>
            if Qle_bool 0.7 (cs_score score)
            then caveats ++
                 [name tech +:+
                  " is experimental technology - evaluate production readiness carefully"]
            else caveats
        | _ => caveats
        end in
      experimental_caveats tech_lookup rest caveats
  end.

(** [RecommendationEngine._generate_caveats] *)
Definition _generate_caveats (technologies : list TechnologyProfile)
    (compatibility_scores : list CompatibilityScore)
    (weighted_criteria : WeightedCriteria) : Result (list string) :=
  let caveats := [] in
  max_score ← from_option (list_max (map cs_score compatibility_scores))
                ValueError;
  let caveats :=
    if Qlt_bool max_score 0.6
    then caveats ++
         ["All options show moderate compatibility - consider additional requirements analysis"]
    else caveats in
  let tech_lookup := tech_lookup_of technologies in
  caveats ← experimental_caveats tech_lookup compatibility_scores caveats;
  let high_weight_dims :=
    List.filter (fun item => Qlt_bool 0.3 (snd item))
      (dimension_weights weighted_criteria) in
  let caveats :=
    if (3 <=? length high_weight_dims)%nat
    then caveats ++
         ["Multiple high-priority requirements may require trade-off decisions"]
    else caveats in
  let sorted_scores := sorted_desc cs_score compatibility_scores in
  let caveats :=
    match sorted_scores with
    | first :: second :: _ =>
        let gap := cs_score first - cs_score second in
        if Qlt_bool gap 0.05
        then caveats ++
             ["Top choices are very close - consider team preferences and existing expertise"]
        else caveats
    | _ => caveats
    end in
  Ok (caveats ++ [general_caveat]).

(** ** models.py: the comparison request *)

(** [ComparisonRequest.validate_unique_technologies] *)
Definition validate_unique_technologies (v : list string)
  : Result (list string) :=
  raise_if (negb (length v =? size (list_to_set v : gset string))%nat)
    ValidationError;;
  Ok v.

Record OutputPreferences : Type := {
  include_matrix : bool;
  include_recommendation : bool;
  max_technologies : Z
}.

(** The field constraint [ge=2, le=5] of [OutputPreferences]. *)
Definition mk_OutputPreferences (matrix recommendation : bool) (maximum : Z)
  : Result OutputPreferences :=
  raise_if ((maximum <? 2)%Z || (5 <? maximum)%Z) ValidationError;;
  Ok {| include_matrix := matrix; include_recommendation := recommendation;
        max_technologies := maximum |}.

(** The field constraint [ge=1] of [ProjectRequirements]. *)
Definition mk_ProjectRequirements (size : Z) (b : BudgetLevel)
    (t : TimelineLevel) (s : ScaleLevel) (e : ExpertiseLevel)
  : Result ProjectRequirements :=
  raise_if (size <? 1)%Z ValidationError;;
  Ok {| team_size := size; budget := b; timeline := t;
        scalability_needs := s; expertise_level := e |}.

Record ComparisonRequest : Type := {
  req_technologies : list string;
  req_project_requirements : ProjectRequirements;
  req_custom_dimensions : option (list string);
  req_output_preferences : OutputPreferences
}.

(** The constraints of [ComparisonRequest]: 2 to 5 technologies,
    [validate_unique_technologies], [validate_custom_dimensions]. *)
Definition mk_ComparisonRequest (technologies : list string)
    (requirements : ProjectRequirements)
    (custom : option (list string)) (preferences : OutputPreferences)
  : Result ComparisonRequest :=
  raise_if ((length technologies <? 2)%nat || (5 <? length technologies)%nat)
    ValidationError;;
  technologies ← validate_unique_technologies technologies;
  custom ← validate_custom_dimensions custom;
  Ok {| req_technologies := technologies;
        req_project_requirements := requirements;
        req_custom_dimensions := custom;
        req_output_preferences := preferences |}.

(** ** input_parser.py *)

(** The namespace that [argparse] hands to the converter; the level
    arguments are restricted to the enumeration values by [choices]. *)
Record ParsedArgs : Type := {
  arg_technologies : list string;
  arg_team_size : Z;
  arg_budget : BudgetLevel;
  arg_timeline : TimelineLevel;
  arg_scalability : ScaleLevel;
  arg_expertise : ExpertiseLevel;
  arg_custom_dimensions : option (list string);
  arg_no_matrix : bool;
  arg_no_recommendation : bool;
  arg_max_technologies : Z
}.

(** [InputParser._validate_technology_count] *)
Definition _validate_technology_count (technologies : list string)
  : Result unit :=
  raise_if (length technologies <? 2)%nat InputValidationError;;
  raise_if (5 <? length technologies)%nat InputValidationError;;
  let unique_technologies : gset string :=
    list_to_set (map (fun tech => strip (lower tech)) technologies) in
  raise_if (negb (size unique_technologies =? length technologies)%nat)
    InputValidationError.

(** [InputParser._validate_team_size] *)
Definition _validate_team_size (size : Z) : Result unit :=
  raise_if (size <? 1)%Z InputValidationError;;
  raise_if (1000 <? size)%Z InputValidationError.

(** [InputParser._validate_max_technologies] *)
Definition _validate_max_technologies (maximum : Z) : Result unit :=
  raise_if (maximum <? 2)%Z InputValidationError;;
  raise_if (5 <? maximum)%Z InputValidationError.

(** The [except Exception] clause around the model constructors. *)
Definition wrap_InputValidationError {A : Type} (r : Result A) : Result A :=
  match r with
  | Ok a => Ok a
  | Raise _ => Raise InputValidationError
  end.

(** [InputParser._convert_to_comparison_request] *)
Definition _convert_to_comparison_request (args : ParsedArgs)
  : Result ComparisonRequest :=
  _validate_technology_count (arg_technologies args);;
  _validate_team_size (arg_team_size args);;
  match arg_custom_dimensions args with
  | Some (c :: cs) => _validate_custom_dimensions (c :: cs)
  | _ => Ok tt
  end;;
  _validate_max_technologies (arg_max_technologies args);;
  wrap_InputValidationError (
    project_requirements ←
      mk_ProjectRequirements (arg_team_size args) (arg_budget args)
        (arg_timeline args) (arg_scalability args) (arg_expertise args);
    output_preferences ←
      mk_OutputPreferences (negb (arg_no_matrix args))
        (negb (arg_no_recommendation args)) (arg_max_technologies args);
    mk_ComparisonRequest (arg_technologies args) project_requirements
      (match arg_custom_dimensions args with
       | Some (c :: cs) => Some (c :: cs)
       | _ => None
       end)
      output_preferences).

(** ** analyzer.py: queries on the knowledge base *)

(** [TechnologyAnalyzer.is_known_technology] *)
Definition is_known_technology (kb : list (string * TechnologyProfile))
    (technology_name : string) : bool :=
  match kb_get kb technology_name with Some _ => true | None => false end.

(** [TechnologyAnalyzer.get_known_technologies] *)
Definition get_known_technologies (kb : list (string * TechnologyProfile))
  : list string := map fst kb.

(** [TechnologyAnalyzer.get_technologies_by_category] *)
Definition get_technologies_by_category
    (kb : list (string * TechnologyProfile)) (wanted : string) : list string :=
  map fst (List.filter (fun entry => String.eqb (category (snd entry)) wanted) kb).

(** [TechnologyAnalyzer.evaluate_dimension] *)
Definition evaluate_dimension (kb : list (string * TechnologyProfile))
    (technology_name dimension : string) : option DimensionScore :=
  match get_technology_profile kb technology_name with
  | Some profile => dimensions profile !! dimension
  | None => None
  end.

(** ** cli.py: from the request to the data handed to the formatter *)

(** The loop of [run] that resolves the technology names; the state is
    [(technology_profiles, unknown_technologies, fallback_technologies)]. *)
Definition resolve_step (kb : list (string * TechnologyProfile))
    (state : list TechnologyProfile * list string * list string)
    (tech_name : string)
  : list TechnologyProfile * list string * list string :=
  let '(technology_profiles, unknown_technologies, fallback_technologies) :=
    state in
  match get_technology_profile kb tech_name with
  | None =>
      match get_technology_profile_with_fallback kb tech_name with
      | Ok (profile, _) =>
          (technology_profiles ++ [profile], unknown_technologies,
           fallback_technologies ++ [tech_name])
      | Raise _ =>
          (technology_profiles, unknown_technologies ++ [tech_name],
           fallback_technologies)
      end
  | Some profile =>
      (technology_profiles ++ [profile], unknown_technologies,
       fallback_technologies)
  end.

Definition resolve_technologies (kb : list (string * TechnologyProfile))
    (names : list string)
  : list TechnologyProfile * list string * list string :=
  fold_left (resolve_step kb) names ([], [], []).

(** How [run] ends before formatting: with the data for the formatter, or
    with exit code 1 at one of its stages. *)
Inductive RunOutcome : Type :=
| Analysed (profiles : list TechnologyProfile) (comparison : ComparisonResult)
    (recommendation : option Recommendation)
| RequirementsFailed
| TooFewTechnologies
| ComparisonFailed
| UnexpectedError.

(** [RefereeApplication.run] from the parsed request to the call of the
    formatter.  The handler of [InsufficientDataError] calls
    [self._generate_fallback_comparison], which the class does not define
    (the function of that name is written after the [__main__] guard): the
    call raises [AttributeError], which ends the run as an unexpected error,
    as does a [ValueError] of the comparison. *)
Definition run_analysis (kb : list (string * TechnologyProfile))
    (comparison_request : ComparisonRequest) : RunOutcome :=
  match snd (run_process_requirements
               (req_project_requirements comparison_request)) with
  | Raise _ => RequirementsFailed
  | Ok weighted_criteria =>
      let '(technology_profiles, unknown_technologies, fallback_technologies) :=
        resolve_technologies kb (req_technologies comparison_request) in
      if (length technology_profiles <? 2)%nat then TooFewTechnologies
      else
        match generate_comparison technology_profiles weighted_criteria
                (req_custom_dimensions comparison_request) with
        | Raise ComparisonError => ComparisonFailed
        | Raise _ => UnexpectedError
        | Ok comparison_result =>
            let recommendation :=
              if include_recommendation
                   (req_output_preferences comparison_request)
              then
                match generate_recommendation technology_profiles
                        (cr_compatibility_scores comparison_result)
                        weighted_criteria with
                | Ok recommendation => Some recommendation
                | Raise _ => None
                end
              else None in
            Analysed technology_profiles comparison_result recommendation
        end
  end.

(** ** Properties of the calculated weights *)

Definition positive_weights (w : Dict) : Prop :=
  Forall (fun x => 0 < x) (values w).

(** A distribution over the five standard dimensions. *)
Definition weight_distribution (w : Dict) : Prop :=
  keys w = standard_dimensions /\ positive_weights w /\ sum (values w) == 1.

(** The team-size test of [_validate_requirements]. *)
Definition team_size_in_range (r : ProjectRequirements) : bool :=
  (1 <=? team_size r)%Z && (team_size r <=? 1000)%Z.

(** The range test of the last two checks of [_validate_weights]. *)
Definition within_limits (w : Dict) : bool :=
  forallb (fun x => Qle_bool 0.05 x && Qle_bool x 0.6) (values w).

(** The resolution that the conflict analysis offers for each conflict
    message. *)
Definition suggestion_of (conflict : string) : string :=
  if String.eqb conflict conflict_1 then
    "Consider relaxing one constraint: increase budget, extend timeline, or reduce scale requirements"
  else if String.eqb conflict conflict_2 then
    "Consider adding experienced team members or extending timeline for learning"
  else if String.eqb conflict conflict_3 then
    "Re-evaluate budget allocation or team composition for better alignment"
  else if String.eqb conflict conflict_4 then
    "Consider reducing team size or increasing scalability requirements to match effort"
  else if String.eqb conflict conflict_5 then
    "Review project planning: tight timelines typically require experienced teams"
  else "".

(** The conflict lists that the detector can produce, and the check of one
    analysis against its list. *)
Definition possible_conflict_lists : list (list string) :=
  [[]; [conflict_1]; [conflict_2]; [conflict_3]; [conflict_4]; [conflict_5];
   [conflict_1; conflict_2]; [conflict_1; conflict_3];
   [conflict_2; conflict_5]; [conflict_3; conflict_4];
   [conflict_4; conflict_5]].

Definition conflict_analysis_ok (conflicts : list string) : bool :=
  let analysis := conflict_analysis_of conflicts in
  bool_decide (ca_conflicts analysis = conflicts) &&
  bool_decide (has_conflicts analysis = negb (bool_decide (conflicts = []))) &&
  bool_decide (ca_suggestions analysis = map suggestion_of conflicts) &&
  (length conflicts <=? 2)%nat.

(** ** Properties of the comparison *)

(** The dimensions of a comparison: the standard ones, then the custom
    ones. *)
Definition comparison_dimensions (custom : option (list string)) : list string :=
  standard_dimensions ++ match custom with Some l => l | None => [] end.

(** Custom dimensions that the engine takes: none of them is a standard
    dimension, and there are at most five (ten dimensions in all). *)
Definition custom_dimensions_accepted (custom : option (list string)) : Prop :=
  match custom with
  | Some l =>
      Forall (fun d => ~ In d standard_dimensions) l /\ (length l <= 5)%nat
  | None => True
  end.

(** The number of technologies with fewer than three scored dimensions. *)
Definition data_poor (technologies : list TechnologyProfile) : nat :=
  length (List.filter (fun tech => (size (dimensions tech) <? 3)%nat)
            technologies).

(** A profile with the score of one dimension replaced. *)
Definition with_dimension_score (t : TechnologyProfile) (d : string)
    (ds : DimensionScore) : TechnologyProfile :=
  {| name := name t; category := category t;
     dimensions := <[d := ds]> (dimensions t); maturity := maturity t |}.

(** The consistency of one entry of a knowledge base, as a test. *)
Definition known_technology_ok (kb : list (string * TechnologyProfile))
    (technology_name : string) : bool :=
  is_known_technology kb technology_name &&
  match get_technology_profile kb technology_name with
  | Some profile =>
      String.eqb (name profile) technology_name
      && valid_profile_bool profile
      && contains (get_technologies_by_category kb (category profile))
           technology_name
      && forallb
           (fun d =>
              match evaluate_dimension kb technology_name d with
              | Some ds => Qle_bool 0 (ds_score ds) && Qle_bool (ds_score ds) 5
              | None => false
              end) standard_dimensions
  | None => false
  end.

(** ** Properties of the recommendation *)

(** A score that can be ranked: it belongs to one of the compared
    technologies, which has a name, and lies between 0 and 1. *)
Definition rankable (technologies : list TechnologyProfile)
    (cs : CompatibilityScore) : Prop :=
  In (cs_technology cs) (map name technologies) /\
  cs_technology cs <> "" /\ 0 <= cs_score cs /\ cs_score cs <= 1.

(** An alternative scenario of the given kind that recommends one of the
    compared technologies. *)
Definition recommends (technologies : list TechnologyProfile)
    (scenario : string) (s : AlternativeScenario) : Prop :=
  as_scenario s = scenario /\
  In (as_recommended_tech s) (map name technologies) /\
  as_recommended_tech s <> "".

(** The technology of the first compatibility score differs from the one
    that a scenario recommends. *)
Definition not_first_listed (scores : list CompatibilityScore)
    (s : AlternativeScenario) : Prop :=
  forall first, head scores = Some first ->
    as_recommended_tech s <> cs_technology first.

(** The caveat about several high-priority requirements. *)
Definition tradeoff_caveat : string :=
  "Multiple high-priority requirements may require trade-off decisions".

(** ** Properties of the input parser *)

(** What the parser asks of the custom dimensions, when there are any. *)
Definition accepted_custom_dimensions (custom_dimensions : list string) : Prop :=
  Forall (fun d => ~ In (strip (lower d)) standard_dimensions) custom_dimensions /\
  List.NoDup (map (fun d => strip (lower d)) custom_dimensions) /\
  Forall (fun d => strip d <> "") custom_dimensions.

(** What the parser asks of its arguments. *)
Definition accepted_arguments (args : ParsedArgs) : Prop :=
  (2 <= length (arg_technologies args) <= 5)%nat /\
  List.NoDup (map (fun tech => strip (lower tech)) (arg_technologies args)) /\
  (1 <= arg_team_size args <= 1000)%Z /\
  match arg_custom_dimensions args with
  | Some (c :: cs) => accepted_custom_dimensions (c :: cs)
  | _ => True
  end /\
  (2 <= arg_max_technologies args <= 5)%Z.

(** The request that mirrors the arguments. *)
Definition request_of (args : ParsedArgs) : ComparisonRequest :=
  {| req_technologies := arg_technologies args;
     req_project_requirements :=
       {| team_size := arg_team_size args; budget := arg_budget args;
          timeline := arg_timeline args;
          scalability_needs := arg_scalability args;
          expertise_level := arg_expertise args |};
     req_custom_dimensions :=
       match arg_custom_dimensions args with
       | Some (c :: cs) => Some (c :: cs)
       | _ => None
       end;
     req_output_preferences :=
       {| include_matrix := negb (arg_no_matrix args);
          include_recommendation := negb (arg_no_recommendation args);
          max_technologies := arg_max_technologies args |} |}.

(** Arguments used as a sample input. *)
Definition sample_arguments : ParsedArgs :=
  {| arg_technologies := ["React"; "Vue"]; arg_team_size := 3;
     arg_budget := BUDGET_MEDIUM; arg_timeline := MODERATE;
     arg_scalability := SCALE_MEDIUM; arg_expertise := INTERMEDIATE;
     arg_custom_dimensions := Some ["TypeScript Support"; "Bundle Size"];
     arg_no_matrix := false; arg_no_recommendation := false;
     arg_max_technologies := 5 |}.

(** ** Properties of the command-line run *)

(** The requested names that are not empty. *)
Definition named (names : list string) : list string :=
  List.filter nonempty names.

(** A profile that the run can work with: one of the knowledge base or the
    fallback profile of some name. *)
Definition resolved_profile (kb : list (string * TechnologyProfile))
    (profile : TechnologyProfile) : Prop :=
  In profile (map snd kb) \/
  exists technology_name, _create_fallback_profile technology_name = Ok profile.

(** The number of custom dimensions of a request. *)
Definition custom_count (request : ComparisonRequest) : nat :=
  length (default [] (req_custom_dimensions request)).
(** * Properties *)

(** ** Rational comparisons *)

Lemma Qlt_bool_iff (x y : Q) : Qlt_bool x y = true <-> x < y.
Proof.
  unfold Qlt_bool. rewrite negb_true_iff.
  split; intros H.
  - apply Qnot_le_lt. intros Hle. apply Qle_bool_iff in Hle. congruence.
  - destruct (Qle_bool y x) eqn:E; [|reflexivity].
    apply Qle_bool_iff in E. exfalso. apply (Qlt_not_le _ _ H E).
Qed.

Lemma Qlt_bool_false_iff (x y : Q) : Qlt_bool x y = false <-> y <= x.
Proof.
  unfold Qlt_bool. rewrite negb_false_iff. apply Qle_bool_iff.
Qed.

Lemma Qle_bool_false_iff (x y : Q) : Qle_bool x y = false <-> y < x.
Proof.
  rewrite <- Qlt_bool_iff. unfold Qlt_bool.
  destruct (Qle_bool x y); simpl; split; congruence.
Qed.


(** ** Finite enumeration *)

Lemma for_all_upto_spec (n : nat) (f : Z -> bool) :
  for_all_upto n f = true ->
  forall z : Z, (1 <= z <= Z.of_nat n)%Z -> f z = true.
Proof.
  induction n as [|n IH]; intros H z Hz.
  - lia.
  - cbn [for_all_upto] in H. apply andb_true_iff in H as [Hn Hrest].
    destruct (decide (z = Z.of_nat (S n))) as [->|Hne]; [exact Hn|].
    apply IH; [exact Hrest|lia].
Qed.

Lemma for_all_levels_spec (f : ProjectRequirements -> bool) (r : ProjectRequirements) :
  for_all_levels f (team_size r) = true -> f r = true.
Proof.
  unfold for_all_levels, for_all_budgets, for_all_timelines, for_all_scales,
    for_all_expertise.
  intros H. destruct r as [n b t s e]; cbn [team_size] in H.
  repeat match goal with
         | Hc : (_ && _)%bool = true |- _ => apply andb_true_iff in Hc as [? ?]
         end.
  destruct b, t, s, e; assumption.
Qed.

Lemma weights_invariant_bool_sound (w : Dict) :
  weights_invariant_bool w = true -> weights_invariant w.
Proof.
  unfold weights_invariant_bool, weights_invariant. intros H.
  apply andb_true_iff in H as [H Hall].
  apply andb_true_iff in H as [H Hhi].
  apply andb_true_iff in H as [Hkeys Hlo].
  apply bool_decide_eq_true in Hkeys.
  repeat split; try (apply Qle_bool_iff; assumption); [assumption|].
  apply Forall_forall. intros x Hx.
  rewrite forallb_forall in Hall. apply list_elem_of_In in Hx.
  specialize (Hall x Hx).
  apply andb_true_iff in Hall as [? ?]. split; apply Qle_bool_iff; assumption.
Qed.


(** ** Profiles *)

Lemma nonempty_true (s : string) : s <> "" -> nonempty s = true.
Proof. destruct s; [congruence|reflexivity]. Qed.

Lemma nonempty_neq (s : string) : nonempty s = true -> s <> "".
Proof. destruct s; [discriminate|discriminate]. Qed.

Lemma valid_profile_bool_sound (t : TechnologyProfile) :
  valid_profile_bool t = true -> valid_TechnologyProfile t.
Proof.
  unfold valid_profile_bool, valid_TechnologyProfile. intros H.
  apply andb_true_iff in H as [H Hstd].
  apply andb_true_iff in H as [H Hdims].
  apply andb_true_iff in H as [Hname Hcat].
  split; [apply nonempty_neq, Hname|].
  split; [apply nonempty_neq, Hcat|]. split.
  - apply map_Forall_to_list. apply Forall_forall. intros [d ds] Hin.
    rewrite forallb_forall in Hdims.
    specialize (Hdims (d, ds) (proj1 (list_elem_of_In _ _) Hin)).
    cbn [snd] in Hdims.
    apply andb_true_iff in Hdims as [Hdims Hexp].
    apply andb_true_iff in Hdims as [Hlo Hhi].
    apply Qle_bool_iff in Hlo, Hhi.
    repeat split; [exact Hlo|exact Hhi|apply nonempty_neq, Hexp].
  - apply Forall_forall. intros d Hin.
    rewrite forallb_forall in Hstd.
    specialize (Hstd d (proj1 (list_elem_of_In _ _) Hin)).
    destruct (dimensions t !! d); [eauto|discriminate].
Qed.

(** Validity of a list of concrete profiles, by running the test. *)
Ltac valid_profiles :=
  repeat (apply List.Forall_cons;
          [apply valid_profile_bool_sound; vm_compute; reflexivity|]);
  apply List.Forall_nil.

(** ** Extremal elements *)

Lemma fold_max_spec (l : list Q) (a : Q) :
  let m := fold_left (fun m y => if Qlt_bool m y then y else m) l a in
  (m = a \/ In m l) /\ a <= m /\ Forall (fun y => y <= m) l.
Proof.
  revert a. induction l as [|x l IH]; intros a; cbn [fold_left].
  - cbv zeta. split; [left; reflexivity|]. split; [lra|constructor].
  - cbv zeta. destruct (Qlt_bool a x) eqn:Hax.
    + apply Qlt_bool_iff in Hax.
      destruct (IH x) as (Hin & Hle & Hall). cbv zeta in *.
      split; [right; destruct Hin as [->|Hin]; [left; reflexivity|right; exact Hin]|].
      split; [lra|]. constructor; assumption.
    + apply Qlt_bool_false_iff in Hax.
      destruct (IH a) as (Hin & Hle & Hall). cbv zeta in *.
      split; [destruct Hin as [Hin|Hin]; [left; exact Hin|right; right; exact Hin]|].
      split; [exact Hle|]. constructor; [lra|exact Hall].
Qed.

Lemma list_max_spec (l : list Q) (mx : Q) :
  list_max l = Some mx -> In mx l /\ Forall (fun y => y <= mx) l.
Proof.
  destruct l as [|x l]; [discriminate|]. cbn [list_max]. intros [= <-].
  destruct (fold_max_spec l x) as (Hin & Hle & Hall). cbv zeta in *.
  split; [destruct Hin as [->|Hin]; [left; reflexivity|right; exact Hin]|].
  constructor; assumption.
Qed.

Lemma fold_min_spec (l : list Q) (a : Q) :
  let m := fold_left (fun m y => if Qlt_bool y m then y else m) l a in
  m <= a /\ Forall (fun y => m <= y) l.
Proof.
  revert a. induction l as [|x l IH]; intros a; cbn [fold_left]; cbv zeta.
  - split; [lra|constructor].
  - destruct (Qlt_bool x a) eqn:Hxa.
    + apply Qlt_bool_iff in Hxa.
      destruct (IH x) as (Hle & Hall). cbv zeta in *.
      split; [lra|]. constructor; assumption.
    + apply Qlt_bool_false_iff in Hxa.
      destruct (IH a) as (Hle & Hall). cbv zeta in *.
      split; [exact Hle|]. constructor; [lra|exact Hall].
Qed.

Lemma list_min_spec (l : list Q) (mn : Q) :
  list_min l = Some mn -> Forall (fun y => mn <= y) l.
Proof.
  destruct l as [|x l]; [discriminate|]. cbn [list_min]. intros [= <-].
  destruct (fold_min_spec l x) as (Hle & Hall). cbv zeta in *.
  constructor; assumption.
Qed.

(** ** The stable sort *)

Section StableSortFacts.
Context {A : Type} (key : A -> Q).

Lemma insert_desc_perm (x : A) (l : list A) :
  Permutation (insert_desc key x l) (x :: l).
Proof.
  induction l as [|y l IH]; simpl; [reflexivity|].
  destruct (Qlt_bool (key x) (key y)); [|reflexivity].
  rewrite IH. apply perm_swap.
Qed.

Lemma sorted_desc_perm (l : list A) : Permutation (sorted_desc key l) l.
Proof.
  induction l as [|x l IH]; simpl; [reflexivity|].
  rewrite insert_desc_perm. apply perm_skip, IH.
Qed.

Lemma sorted_desc_length (l : list A) :
  length (sorted_desc key l) = length l.
Proof. apply Permutation_length, sorted_desc_perm. Qed.

Lemma insert_desc_descending (x : A) (l : list A) :
  descending key l -> descending key (insert_desc key x l).
Proof.
  unfold descending.
  induction l as [|y l IH]; intros Hl; simpl.
  - repeat constructor.
  - apply StronglySorted_inv in Hl as [Hl Hy].
    destruct (Qlt_bool (key x) (key y)) eqn:Hxy.
    + apply Qlt_bool_iff in Hxy. constructor; [apply IH, Hl|].
      eapply Permutation_Forall; [symmetry; apply insert_desc_perm|].
      constructor; [lra|exact Hy].
    + apply Qlt_bool_false_iff in Hxy.
      constructor; [constructor; assumption|].
      constructor; [exact Hxy|].
      eapply Forall_impl; [exact Hy|]. intros z Hz; simpl in Hz. lra.
Qed.

Lemma sorted_desc_descending (l : list A) : descending key (sorted_desc key l).
Proof.
  induction l as [|x l IH]; simpl; [constructor|].
  apply insert_desc_descending, IH.
Qed.

(** Stability: the elements of any one key value keep their input order. *)
Lemma insert_desc_stable (s : Q) (x : A) (l : list A) :
  List.filter (fun a => Qeq_bool (key a) s) (insert_desc key x l) =
  List.filter (fun a => Qeq_bool (key a) s) (x :: l).
Proof.
  induction l as [|y l IH]; [reflexivity|].
  cbn [insert_desc].
  destruct (Qlt_bool (key x) (key y)) eqn:Hxy; [|reflexivity].
  apply Qlt_bool_iff in Hxy.
  cbn [List.filter] in *. rewrite IH.
  destruct (Qeq_bool (key y) s) eqn:Hy, (Qeq_bool (key x) s) eqn:Hx;
    try reflexivity.
  apply Qeq_bool_iff in Hy, Hx. lra.
Qed.

Lemma sorted_desc_stable (s : Q) (l : list A) :
  List.filter (fun a => Qeq_bool (key a) s) (sorted_desc key l) =
  List.filter (fun a => Qeq_bool (key a) s) l.
Proof.
  induction l as [|x l IH]; [reflexivity|].
  cbn [sorted_desc fold_right]. rewrite insert_desc_stable.
  cbn [List.filter]. fold (sorted_desc key l). rewrite IH. reflexivity.
Qed.

Lemma descending_lookup (l : list A) (i j : nat) (a b : A) :
  descending key l -> (i <= j)%nat ->
  l !! i = Some a -> l !! j = Some b -> key b <= key a.
Proof.
  unfold descending. intros Hl. revert i j.
  induction Hl as [|x l Hl IH Hx]; intros i j Hij Hi Hj.
  - rewrite lookup_nil in Hi. discriminate.
  - destruct i as [|i], j as [|j]; simpl in Hi, Hj.
    + inversion Hi; inversion Hj; subst. lra.
    + inversion Hi; subst. rewrite Forall_forall in Hx.
      apply Hx. eapply list_elem_of_lookup_2, Hj.
    + lia.
    + apply (IH i j); [lia|assumption..].
Qed.
End StableSortFacts.

(** ** Requirements to weights *)

(** *** The keys of the weight dictionary *)

Lemma contains_In (l : list string) (k : string) :
  contains l k = true <-> In k l.
Proof.
  unfold contains. rewrite existsb_exists. split.
  - intros (x & Hx & Heq). apply String.eqb_eq in Heq. subst x. exact Hx.
  - intros Hin. exists k. split; [exact Hin|apply String.eqb_refl].
Qed.

Lemma keys_setitem (d : Dict) (k : string) (v : Q) :
  In k (keys d) -> keys (setitem d k v) = keys d.
Proof.
  induction d as [|[k' v'] d IH]; [intros []|].
  intros Hin. cbn [setitem]. destruct (String.eqb k' k) eqn:Heq.
  - reflexivity.
  - cbn [keys map fst]. f_equal. apply IH.
    destruct Hin as [Hin|Hin]; [|exact Hin].
    cbn [fst] in Hin. subst k'. rewrite String.eqb_refl in Heq. discriminate.
Qed.

Lemma keys_normalize (d : Dict) : keys (normalize d) = keys d.
Proof.
  unfold normalize, keys. rewrite map_map. apply map_ext.
  intros [k v]. reflexivity.
Qed.

(** A loop of assignments to keys that are present keeps the keys. *)
Lemma keys_fold_setitem {A : Type} (key_of : A -> string)
    (value_of : Dict -> A -> Q) (l : list A) (d : Dict) :
  Forall (fun a => In (key_of a) (keys d)) l ->
  keys (fold_left (fun w a => setitem w (key_of a) (value_of w a)) l d) = keys d.
Proof.
  revert d. induction l as [|a l IH]; intros d Hl; [reflexivity|].
  apply Forall_cons in Hl as [Ha Hl]. cbn [fold_left].
  rewrite IH.
  - apply keys_setitem, Ha.
  - rewrite keys_setitem by exact Ha. exact Hl.
Qed.

Lemma keys_take_from_lowest (target_dim : string) (items : Dict)
    (remaining : Q) (w : Dict) :
  Forall (fun item => In (fst item) (keys w)) items ->
  keys (take_from_lowest target_dim items remaining w) = keys w.
Proof.
  revert remaining w. induction items as [|[dim weight] items IH];
    intros remaining w Hitems; [reflexivity|].
  apply Forall_cons in Hitems as [Hdim Hitems]. cbn [fst] in Hdim.
  cbn [take_from_lowest].
  destruct (negb (String.eqb dim target_dim) && Qlt_bool 0 remaining).
  - destruct (Qle_bool _ 0).
    + apply keys_setitem, Hdim.
    + rewrite IH.
      * apply keys_setitem, Hdim.
      * rewrite keys_setitem by exact Hdim. exact Hitems.
  - apply IH, Hitems.
Qed.

Lemma entries_in_keys (w : Dict) :
  Forall (fun item => In (fst item) (keys w)) w.
Proof.
  apply Forall_forall. intros item Hin. apply list_elem_of_In in Hin.
  unfold keys. apply in_map, Hin.
Qed.

Lemma sorted_asc_perm {A : Type} (key : A -> Q) (l : list A) :
  Permutation (sorted_asc key l) l.
Proof.
  induction l as [|x l IH]; [reflexivity|].
  cbn [sorted_asc fold_right]. fold (sorted_asc key l).
  transitivity (x :: sorted_asc key l); [|apply perm_skip, IH].
  generalize (sorted_asc key l). intros s.
  induction s as [|y s IHs]; cbn [insert_asc]; [reflexivity|].
  destruct (Qlt_bool (key y) (key x)); [|reflexivity].
  rewrite IHs. apply perm_swap.
Qed.

Lemma keys_scale_priority_override (r : ProjectRequirements) (w : Dict) :
  keys w = standard_dimensions ->
  keys (scale_priority_override r w) = standard_dimensions.
Proof.
  intros Hw. unfold scale_priority_override.
  destruct (scalability_needs r); try exact Hw.
  destruct (2 <=? _)%nat; [|exact Hw].
  destruct (2 <? _)%nat; [|exact Hw].
  rewrite keys_normalize.
  set (target := if Qle_bool _ _ then "scalability" else "performance").
  assert (Htarget : In target standard_dimensions).
  { unfold target. destruct (Qle_bool _ _); cbn; auto 10. }
  rewrite keys_setitem.
  - rewrite keys_take_from_lowest; [exact Hw|].
    eapply Permutation_Forall; [symmetry; apply sorted_asc_perm|].
    apply entries_in_keys.
  - rewrite keys_take_from_lowest; [rewrite Hw; exact Htarget|].
    eapply Permutation_Forall; [symmetry; apply sorted_asc_perm|].
    apply entries_in_keys.
Qed.

Lemma keys_guarantee_step (top : Dict) (w : Dict) (item : string * Q) :
  keys w = standard_dimensions ->
  In (fst item) standard_dimensions ->
  keys (guarantee_step top w item) = standard_dimensions.
Proof.
  intros Hw Hitem. unfold guarantee_step.
  destruct (Qle_bool _ baseline_threshold); [|exact Hw].
  destruct (List.filter _ (keys w)) as [|d0 ds] eqn:Hnh; [exact Hw|].
  destruct (Qlt_bool _ _); [|exact Hw].
  rewrite keys_normalize.
  assert (Hfold : keys
            (fold_left
               (fun w0 other_dim =>
                  setitem w0 other_dim
                    (Qmax 0.05
                       (getitem w0 other_dim
                        - (0.2 + 0.01 - getitem w (fst item))
                          * (getitem w0 other_dim
                             / sum (map (getitem w) (d0 :: ds))))))
               (d0 :: ds) w) = keys w).
  { apply (keys_fold_setitem (fun d => d)
             (fun w0 other_dim =>
                Qmax 0.05
                  (getitem w0 other_dim
                   - (0.2 + 0.01 - getitem w (fst item))
                     * (getitem w0 other_dim
                        / sum (map (getitem w) (d0 :: ds)))))).
    rewrite <- Hnh. apply Forall_forall. intros d Hd.
    apply list_elem_of_In, filter_In in Hd as [Hd _]. exact Hd. }
  unfold baseline_threshold.
  rewrite keys_setitem; rewrite Hfold; [exact Hw|rewrite Hw; exact Hitem].
Qed.

Lemma keys_fold_guarantee (top : Dict) (items : Dict) (w : Dict) :
  keys w = standard_dimensions ->
  Forall (fun item => In (fst item) standard_dimensions) items ->
  keys (fold_left (guarantee_step top) items w) = standard_dimensions.
Proof.
  revert w. induction items as [|item items IH]; intros w Hw Hitems;
    [exact Hw|].
  apply Forall_cons in Hitems as [Hitem Hitems]. cbn [fold_left].
  apply IH; [apply keys_guarantee_step; assumption|exact Hitems].
Qed.

Lemma keys_dimension_boosts (r : ProjectRequirements) :
  keys (dimension_boosts_of r) =
    ["cost"; "complexity"; "scalability"; "performance"; "ecosystem"].
Proof.
  destruct r as [n b t s e]. destruct b, t, s, e; reflexivity.
Qed.

Lemma boosts_in_standard (r : ProjectRequirements) :
  Forall (fun item => In (fst item) standard_dimensions) (dimension_boosts_of r).
Proof.
  apply Forall_forall. intros item Hin. apply list_elem_of_In in Hin.
  assert (Hk : In (fst item) (keys (dimension_boosts_of r)))
    by (apply in_map, Hin).
  rewrite keys_dimension_boosts in Hk. cbn in Hk |- *. intuition.
Qed.

Lemma keys_fold {A : Type} (f : Dict -> A -> Dict) (P : A -> Prop)
    (l : list A) (d : Dict) :
  (forall w a, P a -> keys w = keys d -> keys (f w a) = keys w) ->
  Forall P l ->
  keys (fold_left f l d) = keys d.
Proof.
  intros Hf Hl. revert d Hf.
  induction Hl as [|a l Ha _ IH]; intros d Hf; [reflexivity|].
  cbn [fold_left]. rewrite IH.
  - apply Hf; [exact Ha|reflexivity].
  - intros w b Hb Hw. apply Hf; [exact Hb|].
    rewrite Hw. apply Hf; [exact Ha|reflexivity].
Qed.

(** The weights are always over exactly the five standard dimensions. *)
Lemma keys_calculate_dimension_weights (r : ProjectRequirements) :
  keys (_calculate_dimension_weights r) = standard_dimensions.
Proof.
  unfold _calculate_dimension_weights. cbv zeta.
  apply keys_fold_guarantee.
  - apply keys_scale_priority_override. rewrite keys_normalize.
    match goal with
    | |- keys (fold_left _ (keys ?w1) ?w1) = _ =>
        assert (H1 : keys w1 = standard_dimensions)
    end.
    { rewrite (keys_fold _ (fun item => In (fst item) standard_dimensions)).
      - reflexivity.
      - intros w [dimension boost] Hin Hw. apply keys_setitem.
        rewrite Hw. exact Hin.
      - apply boosts_in_standard. }
    rewrite (keys_fold _ (fun d => In d standard_dimensions)).
    + exact H1.
    + intros w d Hin Hw. apply keys_setitem. rewrite Hw, H1. exact Hin.
    + rewrite H1. apply Forall_forall. intros d Hd.
      apply list_elem_of_In, Hd.
  - apply Forall_take.
    eapply Permutation_Forall; [symmetry; apply sorted_desc_perm|].
    apply Forall_forall. intros item Hin.
    apply list_elem_of_In, filter_In in Hin as [Hin _].
    pose proof (boosts_in_standard r) as Hall.
    rewrite Forall_forall in Hall. apply Hall, list_elem_of_In, Hin.
Qed.

(** *** Validation is the guard of the output contract *)

Lemma validate_weights_sound (w : Dict) :
  _validate_weights w = Ok tt ->
  0.95 <= sum (values w) /\ sum (values w) <= 1.05 /\
  Forall (fun x => 0.05 <= x /\ x <= 0.6) (values w).
Proof.
  unfold _validate_weights. intros H.
  destruct w as [|item w']; [discriminate H|].
  set (weights := item :: w') in *.
  cbn [raise_if mbind Result_bind] in H.
  destruct (negb (forallb (contains (keys weights)) standard_dimensions));
    [discriminate H|].
  cbn [raise_if mbind Result_bind] in H.
  destruct (negb (forallb _ (values weights))); [discriminate H|].
  cbn [raise_if mbind Result_bind] in H.
  destruct (Qle_bool 0.95 (sum (values weights))
            && Qle_bool (sum (values weights)) 1.05) eqn:Htotal;
    [|discriminate H].
  cbn [negb raise_if mbind Result_bind] in H.
  apply andb_true_iff in Htotal as [Hlo Hhi].
  apply Qle_bool_iff in Hlo, Hhi.
  destruct (list_max (values weights)) as [mx|] eqn:Hmax; [|discriminate H].
  cbn [mbind Result_bind] in H.
  destruct (Qlt_bool 0.6 mx) eqn:Hmx; [discriminate H|].
  cbn [raise_if mbind Result_bind] in H.
  destruct (list_min (values weights)) as [mn|] eqn:Hmin; [|discriminate H].
  cbn [mbind Result_bind] in H.
  destruct (Qlt_bool mn 0.05) eqn:Hmn; [discriminate H|].
  apply Qlt_bool_false_iff in Hmx, Hmn.
  split; [exact Hlo|]. split; [exact Hhi|].
  destruct (list_max_spec _ _ Hmax) as [_ Hall_max].
  pose proof (list_min_spec _ _ Hmin) as Hall_min.
  apply Forall_forall. intros x Hx.
  rewrite Forall_forall in Hall_max, Hall_min.
  specialize (Hall_max x Hx). specialize (Hall_min x Hx).
  simpl in Hall_max, Hall_min. split; lra.
Qed.

(** A returned result carries the calculated weights, which passed
    validation. *)
Lemma process_requirements_with_returns
    (detect : ProjectRequirements -> list string) (r : ProjectRequirements)
    (wc : WeightedCriteria) :
  process_requirements_with detect r = Ok wc ->
  dimension_weights wc = _calculate_dimension_weights r /\
  _validate_weights (dimension_weights wc) = Ok tt.
Proof.
  unfold process_requirements_with, _validate_requirements. intros H.
  destruct (team_size r <? 1)%Z; [discriminate H|].
  cbn [raise_if mbind Result_bind] in H.
  destruct (1000 <? team_size r)%Z; [discriminate H|].
  cbn [raise_if mbind Result_bind] in H.
  destruct (detect r); [|discriminate H].
  cbn [raise_if mbind Result_bind] in H.
  destruct (_validate_weights (_calculate_dimension_weights r)) as [[]|e] eqn:Hv;
    [|destruct e; discriminate H].
  cbn [mbind Result_bind] in H. unfold mk_WeightedCriteria in H.
  destruct (WeightedCriteria_validate_weights _) as [w'|e] eqn:Hw;
    [|destruct e; discriminate H].
  cbn [mbind Result_bind reraise_processing] in H. injection H as <-.
  cbn [dimension_weights].
  unfold WeightedCriteria_validate_weights in Hw.
  destruct (forallb _ _); [|discriminate Hw]. injection Hw as <-.
  split; [reflexivity|exact Hv].
Qed.

Lemma validate_weights_failure (w : Dict) (e : Exception) :
  _validate_weights w = Raise e -> e = ValueError.
Proof.
  unfold _validate_weights.
  repeat match goal with
         | |- context [raise_if ?b ValueError] =>
             destruct b; cbn [raise_if mbind Result_bind];
             [intros [= <-]; reflexivity|]
         | |- context [list_max ?l] =>
             destruct (list_max l); cbn [mbind Result_bind];
             [|intros [= <-]; reflexivity]
         | |- context [list_min ?l] =>
             destruct (list_min l); cbn [mbind Result_bind];
             [|intros [= <-]; reflexivity]
         end.
  discriminate.
Qed.

(** Without a conflict the only failure is a processing error. *)
Lemma process_requirements_failure (r : ProjectRequirements) (e : Exception) :
  _detect_requirement_conflicts r = [] ->
  process_requirements r = Raise e -> e = RequirementsProcessingError.
Proof.
  unfold process_requirements, process_requirements_with. intros Hfree H.
  rewrite Hfree in H.
  match type of H with
  | reraise_processing ?body = _ => destruct body as [a|e'] eqn:Hbody
  end; [discriminate H|].
  destruct e'; cbn [reraise_processing] in H; try congruence.
  exfalso. unfold _validate_requirements in Hbody.
  destruct (team_size r <? 1)%Z; [discriminate Hbody|].
  cbn [raise_if mbind Result_bind] in Hbody.
  destruct (1000 <? team_size r)%Z; [discriminate Hbody|].
  cbn [raise_if mbind Result_bind] in Hbody.
  destruct (_validate_weights _) as [[]|e''] eqn:Hv;
    cbn [mbind Result_bind] in Hbody.
  - unfold mk_WeightedCriteria, WeightedCriteria_validate_weights in Hbody.
    destruct (forallb _ _); discriminate Hbody.
  - apply validate_weights_failure in Hv. subst e''. discriminate Hbody.
Qed.

(** Every conflict-free request with a team of 1 to 25 was run. *)
Lemma accepted_check_upto_25 :
  for_all_upto 25 (for_all_levels accepted_check) = true.
Proof. vm_compute. reflexivity. Qed.

(** C1, as stated, fails: a team of 1000 with default levels is valid and
    free of conflicts, yet [process_requirements] returns no weights (the
    ecosystem weight exceeds 0.6 and validation rejects the result). *)
Lemma process_requirements_rejects_team_of_1000 :
  valid_requirements team_of_1000 /\
  _detect_requirement_conflicts team_of_1000 = [] /\
  ~ (exists wc, process_requirements team_of_1000 = Ok wc /\
                weights_invariant (dimension_weights wc)).
Proof.
  split; [unfold valid_requirements; cbn; lia|].
  split; [reflexivity|].
  intros [wc [H _]]. vm_compute in H. discriminate H.
Qed.

(** The bound of 25 is sharp: a team of 26 with a MEDIUM budget, a FLEXIBLE
    timeline, MEDIUM scale and EXPERT expertise is rejected. *)
Lemma process_requirements_rejects_team_of_26 :
  _detect_requirement_conflicts team_of_26 = [] /\
  process_requirements team_of_26 = Raise RequirementsProcessingError.
Proof. split; vm_compute; reflexivity. Qed.

(** C1, amended: for valid, conflict-free requirements [process_requirements]
    either returns weights over exactly the five standard dimensions that
    sum to 1.0 within 0.05 with every weight in [0.05, 0.6], or fails with
    [RequirementsProcessingError]; it returns such weights whenever the team
    has at most 25 members. *)
Theorem process_requirements_valid_or_rejected (r : ProjectRequirements) :
  valid_requirements r ->
  _detect_requirement_conflicts r = [] ->
  ((exists wc, process_requirements r = Ok wc /\
               weights_invariant (dimension_weights wc)) \/
   process_requirements r = Raise RequirementsProcessingError) /\
  ((team_size r <= 25)%Z ->
   exists wc, process_requirements r = Ok wc /\
              weights_invariant (dimension_weights wc)).
Proof.
  intros Hvalid Hfree.
  assert (Hok : forall wc, process_requirements r = Ok wc ->
                           weights_invariant (dimension_weights wc)).
  { intros wc Hwc.
    apply process_requirements_with_returns in Hwc as [Hcalc Hval].
    unfold weights_invariant. split.
    - rewrite Hcalc. apply keys_calculate_dimension_weights.
    - apply validate_weights_sound, Hval. }
  destruct (process_requirements r) as [wc|e] eqn:Hrun.
  - split; [left|intros _]; exists wc; split; auto.
  - rewrite (process_requirements_failure r e Hfree Hrun) in *.
    split; [right; reflexivity|]. intros Hsmall. exfalso.
    assert (Hrange : (1 <= team_size r <= Z.of_nat 25)%Z)
      by (unfold valid_requirements in Hvalid; lia).
    pose proof (for_all_levels_spec accepted_check r
                  (for_all_upto_spec 25 _ accepted_check_upto_25 _ Hrange))
      as Hcheck.
    unfold accepted_check in Hcheck. rewrite Hfree, Hrun in Hcheck.
    discriminate Hcheck.
Qed.

Lemma process_requirements_valid_or_rejected_witness :
  exists wc, process_requirements default_requirements = Ok wc /\
             weights_invariant (dimension_weights wc).
Proof.
  refine (proj2 (process_requirements_valid_or_rejected
                   default_requirements _ _) _).
  - unfold valid_requirements; simpl; lia.
  - reflexivity.
  - simpl; lia.
Defined.

(** C2: for budget LOW, timeline TIGHT, scale LARGE, a team of 3 and
    INTERMEDIATE expertise the conflict is detected and reaches the caller
    as a [ConflictingRequirementsError]; the application turns it into a
    warning and goes on, and the weights it then obtains are the ones of
    [_calculate_dimension_weights], which pass validation and satisfy the
    output contract. *)
Theorem conflicting_scenario_detected_and_processed :
  _detect_requirement_conflicts conflicting_requirements =
    ["Low budget, large scalability needs, and tight timeline create competing priorities"] /\
  process_requirements conflicting_requirements =
    Raise (ConflictingRequirementsError
      ["Low budget, large scalability needs, and tight timeline create competing priorities"]) /\
  exists wc,
    run_process_requirements conflicting_requirements =
      (["Low budget, large scalability needs, and tight timeline create competing priorities"],
       Ok wc) /\
    dimension_weights wc = _calculate_dimension_weights conflicting_requirements /\
    _validate_weights (dimension_weights wc) = Ok tt /\
    weights_invariant (dimension_weights wc).
Proof.
  split; [reflexivity|]. split; [vm_compute; reflexivity|].
  eexists. split; [vm_compute; reflexivity|].
  split; [vm_compute; reflexivity|].
  split; [vm_compute; reflexivity|].
  apply weights_invariant_bool_sound. vm_compute. reflexivity.
Qed.

(** ** Compatibility scoring *)

Lemma fold_left_Qplus (l : list Q) (a : Q) :
  fold_left Qplus l a == a + sum l.
Proof.
  unfold sum. revert a.
  induction l as [|x l IH]; intros a; simpl.
  - lra.
  - rewrite (IH (a + x)), (IH (0 + x)). lra.
Qed.

Lemma sum_cons (x : Q) (l : list Q) : sum (x :: l) == x + sum l.
Proof.
  unfold sum at 1. simpl. rewrite fold_left_Qplus. lra.
Qed.

Lemma sum_nonneg (l : list Q) : Forall (fun x => 0 <= x) l -> 0 <= sum l.
Proof.
  induction 1 as [|x l Hx _ IH].
  - unfold sum; simpl; lra.
  - rewrite sum_cons. lra.
Qed.

Lemma clamp01_range (x : Q) : 0 <= clamp01 x /\ clamp01 x <= 1.
Proof.
  unfold clamp01. split.
  - apply Q.le_max_l.
  - apply Q.max_lub; [lra|apply Q.le_min_l].
Qed.

Lemma clamp01_compat (x y : Q) : x == y -> clamp01 x == clamp01 y.
Proof. unfold clamp01. intros ->. reflexivity. Qed.

Lemma used_weight_pos (technology : TechnologyProfile) (item : string * Q) :
  0 < snd item -> 0 < used_weight technology item.
Proof.
  unfold used_weight. intros H.
  destruct (dimensions technology !! fst item); lra.
Qed.

(** The loop of [calculate_compatibility] accumulates the two sums. *)
Lemma compatibility_fold (technology : TechnologyProfile) (items : Dict) (a b : Q) :
  let positive := List.filter (fun item => Qlt_bool 0 (snd item)) items in
  let r := fold_left (compatibility_step technology) items (a, b) in
  fst r == a + sum (map (contribution technology) positive) /\
  snd r == b + sum (map (used_weight technology) positive).
Proof.
  revert a b. induction items as [|[d w] items IH]; intros a b.
  - unfold sum; simpl. split; lra.
  - cbv zeta. cbn [fold_left List.filter snd].
    change (Qlt_bool 0 w) with (negb (Qle_bool w 0)).
    destruct (Qle_bool w 0) eqn:Hw; cbn [negb].
    + replace (compatibility_step technology (a, b) (d, w)) with (a, b)
        by (unfold compatibility_step; rewrite Hw; reflexivity).
      apply IH.
    + cbn [map]. rewrite !sum_cons.
      unfold compatibility_step at 2 4. rewrite Hw.
      unfold contribution at 1, used_weight at 1. cbn [fst snd].
      destruct (dimensions technology !! d) as [ds|];
        match goal with
        | |- context [fold_left _ items (?x, ?y)] =>
            destruct (IH x y) as [-> ->]
        end; split; lra.
Qed.

(** C3: for a profile with a name and non-empty weights,
    [calculate_compatibility] returns the score [clamp(T/W, 0, 1)] of the
    specification (0.5 when no weight was usable), which lies in [0, 1]
    whether or not the profile has the weighted dimensions. *)
Theorem calculate_compatibility_meets_spec
    (technology : TechnologyProfile) (wc : WeightedCriteria) :
  name technology <> "" ->
  dimension_weights wc <> [] ->
  exists cs,
    calculate_compatibility technology wc = Ok cs /\
    cs_technology cs = name technology /\
    cs_score cs == compatibility_spec technology wc /\
    0 <= cs_score cs /\ cs_score cs <= 1.
Proof.
  intros Hname Hweights.
  unfold calculate_compatibility.
  destruct (dimension_weights wc) as [|item items] eqn:Hdw; [congruence|].
  cbn [raise_if mbind Result_bind].
  pose proof (compatibility_fold technology (item :: items) 0 0) as Hfold.
  cbv zeta in Hfold.
  destruct (fold_left (compatibility_step technology) (item :: items) (0, 0))
    as [tws tw] eqn:Hloop.
  cbn [fst snd] in Hfold. destruct Hfold as [HT HW].
  set (final := if Qlt_bool 0 tw then tws / tw else 0.5).
  unfold mk_CompatibilityScore.
  rewrite (nonempty_true _ Hname).
  destruct (clamp01_range final) as [Hlo Hhi].
  assert (Hrange : Qle_bool 0 (clamp01 final) && Qle_bool (clamp01 final) 1 = true).
  { apply andb_true_iff. split; apply Qle_bool_iff; assumption. }
  cbn [negb raise_if mbind Result_bind wrap_ComparisonError].
  rewrite Hrange.
  cbn [negb raise_if mbind Result_bind wrap_ComparisonError].
  eexists. split; [reflexivity|]. cbn [cs_technology cs_score].
  split; [reflexivity|]. split; [|split; assumption].
  unfold compatibility_spec, positive_items. rewrite Hdw.
  set (T := sum (map (contribution technology) _)) in *.
  set (W := sum (map (used_weight technology) _)) in *.
  assert (HWnonneg : 0 <= W).
  { apply sum_nonneg. apply Forall_forall. intros x Hx.
    apply list_elem_of_In, in_map_iff in Hx as [it [<- Hit]].
    apply filter_In in Hit as [_ Hpos]. apply Qlt_bool_iff in Hpos.
    apply Qlt_le_weak, used_weight_pos, Hpos. }
  apply clamp01_compat. subst final.
  destruct (Qlt_bool 0 tw) eqn:Htw.
  - apply Qlt_bool_iff in Htw.
    destruct (Qeq_bool W 0) eqn:HW0.
    + apply Qeq_bool_iff in HW0. lra.
    + rewrite HT, HW. field. intros HWz.
      apply Qeq_bool_neq in HW0. apply HW0. lra.
  - apply Qlt_bool_false_iff in Htw.
    destruct (Qeq_bool W 0) eqn:HW0; [reflexivity|].
    apply Qeq_bool_neq in HW0. exfalso. apply HW0. lra.
Qed.

Lemma calculate_compatibility_meets_spec_witness :
  exists cs,
    calculate_compatibility REST_profile
      {| dimension_weights := [("cost", 0.5); ("latency", 0.5)];
         priority_factors := [] |} = Ok cs /\
    cs_technology cs = "REST" /\
    cs_score cs ==
      compatibility_spec REST_profile
        {| dimension_weights := [("cost", 0.5); ("latency", 0.5)];
           priority_factors := [] |} /\
    0 <= cs_score cs /\ cs_score cs <= 1.
Proof.
  apply (calculate_compatibility_meets_spec REST_profile
           {| dimension_weights := [("cost", 0.5); ("latency", 0.5)];
              priority_factors := [] |}).
  - simpl. discriminate.
  - simpl. discriminate.
Defined.

(** ** Ranking and confidence *)

(** Case analysis on the rational tests of a goal. *)
Ltac q_cases :=
  repeat match goal with
         | |- context [Qle_bool ?a ?b] =>
             let E := fresh "E" in
             destruct (Qle_bool a b) eqn:E;
             [apply Qle_bool_iff in E | apply Qle_bool_false_iff in E]
         | |- context [Qlt_bool ?a ?b] =>
             let E := fresh "E" in
             destruct (Qlt_bool a b) eqn:E;
             [apply Qlt_bool_iff in E | apply Qlt_bool_false_iff in E]
         end.

Lemma absolute_confidence_table (s : Q) :
  absolute_thresholds s
    (if Qle_bool 0.8 s then CONF_HIGH
     else if Qle_bool 0.6 s then CONF_MEDIUM else CONF_LOW).
Proof.
  unfold absolute_thresholds. q_cases; repeat split; intros; try reflexivity; lra.
Qed.

Lemma confidence_of_other (cs : CompatibilityScore)
    (all_scores : list CompatibilityScore) (rank : nat) :
  rank <> 0%nat \/ all_scores !! 1%nat = None ->
  absolute_thresholds (cs_score cs) (_calculate_confidence cs all_scores rank).
Proof.
  intros H. unfold _calculate_confidence.
  destruct rank as [|rank]; [|apply absolute_confidence_table].
  destruct H as [H|H]; [congruence|].
  destruct all_scores as [|a [|b rest]]; try apply absolute_confidence_table.
  discriminate H.
Qed.

Lemma confidence_of_top (cs second : CompatibilityScore)
    (all_scores : list CompatibilityScore) :
  all_scores !! 1%nat = Some second ->
  (0 < cs_score second ->
   gap_thresholds (cs_score cs) (cs_score second)
     (_calculate_confidence cs all_scores 0)) /\
  (cs_score second <= 0 ->
   absolute_thresholds (cs_score cs) (_calculate_confidence cs all_scores 0)).
Proof.
  intros H. destruct all_scores as [|a [|b rest]]; try discriminate H.
  injection H as ->. unfold _calculate_confidence.
  split; intros Hsecond.
  - apply Qlt_bool_iff in Hsecond as Hb. rewrite Hb.
    unfold gap_thresholds. cbv zeta.
    set (gap := (cs_score cs - cs_score second) / cs_score second).
    q_cases; repeat split; intros; try reflexivity; lra.
  - apply Qlt_bool_false_iff in Hsecond as Hb. rewrite Hb.
    apply absolute_confidence_table.
Qed.

(** The loop of [_create_ranked_choices]: choice [k] copies technology and
    score of score [k] and carries the confidence computed at its rank. *)
Lemma ranked_from_lookup (tech_lookup : gmap string TechnologyProfile)
    (sorted_scores rest : list CompatibilityScore) (i : nat)
    (ranked : list RankedChoice) :
  ranked_from tech_lookup sorted_scores i rest = Ok ranked ->
  length ranked = length rest /\
  forall k rc, ranked !! k = Some rc ->
    exists cs, rest !! k = Some cs /\
      rc_technology rc = cs_technology cs /\
      rc_score rc = cs_score cs /\
      0 <= rc_score rc /\
      rc_confidence rc = _calculate_confidence cs sorted_scores (i + k).
Proof.
  revert i ranked. induction rest as [|cs rest IH]; intros i ranked H.
  - injection H as <-. split; [reflexivity|].
    intros k rc Hk. rewrite lookup_nil in Hk. discriminate.
  - cbn [ranked_from] in H.
    destruct (tech_lookup !! cs_technology cs) as [tech|];
      [|discriminate H].
    cbn [from_option mbind Result_bind] in H.
    unfold mk_RankedChoice in H.
    destruct (nonempty (cs_technology cs)); [|discriminate H].
    destruct (Qle_bool 0 (cs_score cs) && Qle_bool (cs_score cs) 1) eqn:Hrange;
      [|discriminate H].
    cbn [negb raise_if mbind Result_bind] in H.
    destruct (ranked_from tech_lookup sorted_scores (S i) rest) as [tail|e] eqn:Htail;
      [|discriminate H].
    cbn [mbind Result_bind] in H. injection H as <-.
    destruct (IH _ _ Htail) as [Hlen Hlook].
    split; [simpl; congruence|].
    intros [|k] rc Hk; simpl in Hk.
    + injection Hk as <-. exists cs. cbn.
      apply andb_true_iff in Hrange as [Hlo _]. apply Qle_bool_iff in Hlo.
      rewrite Nat.add_0_r. repeat split; try reflexivity. exact Hlo.
    + destruct (Hlook k rc Hk) as [cs' (? & ? & ? & ? & Hconf)].
      exists cs'. rewrite Nat.add_succ_r. simpl. repeat split; assumption.
Qed.

Lemma ranked_from_maps (tech_lookup : gmap string TechnologyProfile)
    (sorted_scores rest : list CompatibilityScore) (i : nat)
    (ranked : list RankedChoice) :
  ranked_from tech_lookup sorted_scores i rest = Ok ranked ->
  Forall2 (fun rc cs => rc_technology rc = cs_technology cs /\
                        rc_score rc = cs_score cs) ranked rest.
Proof.
  intros H. destruct (ranked_from_lookup _ _ _ _ _ H) as [Hlen Hlook].
  apply Forall2_same_length_lookup_2; [exact Hlen|].
  intros k rc cs Hrc Hcs.
  destruct (Hlook k rc Hrc) as [cs' (Hcs' & ? & ? & _)].
  rewrite Hcs in Hcs'. injection Hcs' as <-. split; assumption.
Qed.

(** What a returned recommendation says about its ranking. *)
Lemma generate_recommendation_ranked (technologies : list TechnologyProfile)
    (compatibility_scores : list CompatibilityScore) (wc : WeightedCriteria)
    (rec : Recommendation) :
  generate_recommendation technologies compatibility_scores wc = Ok rec ->
  ranked_from (tech_lookup_of technologies)
    (sorted_desc cs_score compatibility_scores) 0
    (sorted_desc cs_score compatibility_scores) = Ok (ranked_choices rec) /\
  (length (map rc_technology (ranked_choices rec))
   =? size (list_to_set (map rc_technology (ranked_choices rec)) : gset string))%nat
  = true.
Proof.
  unfold generate_recommendation. intros H.
  destruct technologies as [|t ts]; [discriminate H|].
  cbn [raise_if mbind Result_bind] in H.
  destruct (length compatibility_scores =? length (t :: ts))%nat;
    [|discriminate H].
  cbn [negb raise_if mbind Result_bind] in H.
  unfold _create_ranked_choices in H.
  destruct (ranked_from _ _ 0 _) as [ranked|e] eqn:Hranked; [|discriminate H].
  cbn [mbind Result_bind] in H.
  destruct (_generate_alternative_scenarios _ _) as [alt|e]; [|discriminate H].
  cbn [mbind Result_bind] in H. unfold mk_Recommendation in H.
  destruct ranked as [|rc ranked]; [discriminate H|].
  cbn [raise_if mbind Result_bind] in H.
  destruct (length _ =? size _)%nat eqn:Huniq; [|discriminate H].
  cbn [negb raise_if mbind Result_bind] in H.
  destruct (list_Qeq_bool _ _); [|discriminate H].
  cbn [negb raise_if mbind Result_bind] in H.
  injection H as <-. cbn [ranked_choices]. split; [reflexivity|exact Huniq].
Qed.

(** C4: in a returned recommendation the top-ranked choice, when there is a
    runner-up of positive score, takes its confidence from the percentage
    gap (top - runnerUp)/runnerUp by the gap table; with a runner-up score
    of 0, for every other rank and for a single technology the confidence
    follows the absolute thresholds. *)
Theorem confidence_follows_gap_table (technologies : list TechnologyProfile)
    (compatibility_scores : list CompatibilityScore) (wc : WeightedCriteria)
    (rec : Recommendation) (i : nat) (rc : RankedChoice) :
  generate_recommendation technologies compatibility_scores wc = Ok rec ->
  ranked_choices rec !! i = Some rc ->
  match i, ranked_choices rec !! 1%nat with
  | O, Some runner_up =>
      (0 < rc_score runner_up ->
       gap_thresholds (rc_score rc) (rc_score runner_up) (rc_confidence rc)) /\
      (rc_score runner_up == 0 ->
       absolute_thresholds (rc_score rc) (rc_confidence rc))
  | _, _ => absolute_thresholds (rc_score rc) (rc_confidence rc)
  end.
Proof.
  intros Hrec Hrc.
  apply generate_recommendation_ranked in Hrec as [Hranked _].
  destruct (ranked_from_lookup _ _ _ _ _ Hranked) as [Hlen Hlook].
  destruct (Hlook i rc Hrc) as [cs (Hcs & _ & Hscore & _ & Hconf)].
  rewrite Hscore, Hconf. cbn [Nat.add].
  destruct (ranked_choices rec !! 1%nat) as [runner_up|] eqn:Hru.
  - destruct (Hlook 1%nat runner_up Hru) as [second (Hsecond & _ & Hs2 & _)].
    rewrite Hs2. destruct i as [|i].
    + destruct (confidence_of_top cs second _ Hsecond) as [Hgap Habs].
      split; [exact Hgap|]. intros Hz. apply Habs. lra.
    + apply confidence_of_other. left. discriminate.
  - assert (Hnone : sorted_desc cs_score compatibility_scores !! 1%nat = None).
    { apply lookup_ge_None. apply lookup_ge_None in Hru. lia. }
    destruct i; apply confidence_of_other; right; exact Hnone.
Qed.

Lemma confidence_follows_gap_table_witness :
  exists rec rc,
    generate_recommendation [REST_profile; GraphQL_profile] sample_scores
      sample_criteria = Ok rec /\
    ranked_choices rec !! 0%nat = Some rc /\
    rc_technology rc = "REST" /\
    match ranked_choices rec !! 1%nat with
    | Some runner_up =>
        (0 < rc_score runner_up ->
         gap_thresholds (rc_score rc) (rc_score runner_up) (rc_confidence rc)) /\
        (rc_score runner_up == 0 ->
         absolute_thresholds (rc_score rc) (rc_confidence rc))
    | None => absolute_thresholds (rc_score rc) (rc_confidence rc)
    end.
Proof.
  eexists. eexists.
  split; [vm_compute; reflexivity|].
  split; [reflexivity|]. split; [reflexivity|].
  eapply (confidence_follows_gap_table [REST_profile; GraphQL_profile]
            sample_scores sample_criteria _ 0%nat).
  - vm_compute. reflexivity.
  - reflexivity.
Defined.

Lemma size_list_to_set_le (l : list string) :
  (size (list_to_set l : gset string) <= length l)%nat.
Proof.
  induction l as [|y l IH].
  - rewrite list_to_set_nil, size_empty. reflexivity.
  - rewrite list_to_set_cons. cbn [length].
    rewrite size_union_alt, size_singleton.
    assert (Hs : (size (list_to_set l ∖ {[y]} : gset string)
                  <= size (list_to_set l : gset string))%nat).
    { apply subseteq_size. apply subseteq_difference_l. reflexivity. }
    lia.
Qed.

Lemma NoDup_of_size (l : list string) :
  length l = size (list_to_set l : gset string) -> NoDup l.
Proof.
  induction l as [|x l IH]; intros H; [constructor|].
  rewrite list_to_set_cons in H. cbn [length] in H.
  pose proof (size_list_to_set_le l) as Hle.
  destruct (decide (x ∈ l)) as [Hin|Hnin].
  - exfalso.
    assert (Heq : ({[x]} ∪ list_to_set l : gset string) = list_to_set l).
    { apply subseteq_union_1_L, singleton_subseteq_l, elem_of_list_to_set, Hin. }
    rewrite Heq in H. lia.
  - constructor; [exact Hnin|]. apply IH.
    rewrite size_union in H.
    + rewrite size_singleton in H. lia.
    + apply disjoint_singleton_l. rewrite elem_of_list_to_set. exact Hnin.
Qed.

Lemma ranked_filter_technologies (s : Q) (ranked : list RankedChoice)
    (scores : list CompatibilityScore) :
  Forall2 (fun rc cs => rc_technology rc = cs_technology cs /\
                        rc_score rc = cs_score cs) ranked scores ->
  map rc_technology (List.filter (fun rc => Qeq_bool (rc_score rc) s) ranked) =
  map cs_technology (List.filter (fun cs => Qeq_bool (cs_score cs) s) scores).
Proof.
  induction 1 as [|rc cs ranked scores [Htech Hscore] _ IH]; [reflexivity|].
  cbn [List.filter]. rewrite Hscore.
  destruct (Qeq_bool (cs_score cs) s); cbn [map]; rewrite IH; congruence.
Qed.

(** C5: the ranked choices of a returned recommendation are in
    non-increasing score order, choices of equal score keep the order they
    had in the list of compatibility scores, and no technology occurs
    twice. *)
Theorem ranked_choices_sorted_stable_unique
    (technologies : list TechnologyProfile)
    (compatibility_scores : list CompatibilityScore) (wc : WeightedCriteria)
    (rec : Recommendation) :
  generate_recommendation technologies compatibility_scores wc = Ok rec ->
  (forall i j a b, (i <= j)%nat ->
     ranked_choices rec !! i = Some a -> ranked_choices rec !! j = Some b ->
     rc_score b <= rc_score a) /\
  (forall s : Q,
     map rc_technology
       (List.filter (fun rc => Qeq_bool (rc_score rc) s) (ranked_choices rec)) =
     map cs_technology
       (List.filter (fun cs => Qeq_bool (cs_score cs) s) compatibility_scores)) /\
  NoDup (map rc_technology (ranked_choices rec)).
Proof.
  intros Hrec.
  apply generate_recommendation_ranked in Hrec as [Hranked Huniq].
  pose proof (ranked_from_maps _ _ _ _ _ Hranked) as Hmaps.
  destruct (ranked_from_lookup _ _ _ _ _ Hranked) as [_ Hlook].
  split; [|split].
  - intros i j a b Hij Ha Hb.
    destruct (Hlook i a Ha) as [ca (Hca & _ & -> & _)].
    destruct (Hlook j b Hb) as [cb (Hcb & _ & -> & _)].
    eapply (descending_lookup cs_score); eauto using sorted_desc_descending.
  - intros s.
    rewrite <- (sorted_desc_stable cs_score s compatibility_scores).
    apply ranked_filter_technologies, Hmaps.
  - apply NoDup_of_size. apply Nat.eqb_eq in Huniq. exact Huniq.
Qed.

Lemma ranked_choices_sorted_stable_unique_witness :
  exists rec,
    generate_recommendation [REST_profile; GraphQL_profile] sample_scores
      sample_criteria = Ok rec /\
    map rc_technology (ranked_choices rec) = ["REST"; "GraphQL"] /\
    NoDup (map rc_technology (ranked_choices rec)).
Proof.
  eexists. split; [vm_compute; reflexivity|]. split; [reflexivity|].
  eapply (ranked_choices_sorted_stable_unique [REST_profile; GraphQL_profile]
            sample_scores sample_criteria).
  vm_compute. reflexivity.
Defined.

(** ** A recommendation is returned for well-formed scores *)

Lemma tech_lookup_fold (l : list TechnologyProfile)
    (m : gmap string TechnologyProfile) (k : string) :
  is_Some (m !! k) \/ In k (map name l) ->
  is_Some (fold_left (fun m tech => <[name tech := tech]> m) l m !! k).
Proof.
  revert m. induction l as [|t l IH]; intros m H; cbn [fold_left].
  - destruct H as [H|[]]. exact H.
  - apply IH. destruct H as [H|[H|H]].
    + left. destruct (decide (name t = k)) as [->|Hne].
      * rewrite lookup_insert_eq. eauto.
      * rewrite lookup_insert_ne by exact Hne. exact H.
    + left. rewrite H, lookup_insert_eq. eauto.
    + right. exact H.
Qed.

Lemma tech_lookup_known (technologies : list TechnologyProfile) (k : string) :
  In k (map name technologies) ->
  is_Some (tech_lookup_of technologies !! k).
Proof. intros H. apply tech_lookup_fold. right. exact H. Qed.

Lemma ranked_from_returns (tech_lookup : gmap string TechnologyProfile)
    (sorted_scores rest : list CompatibilityScore) (i : nat) :
  Forall (fun cs => is_Some (tech_lookup !! cs_technology cs) /\
                    cs_technology cs <> "" /\
                    0 <= cs_score cs /\ cs_score cs <= 1) rest ->
  exists ranked, ranked_from tech_lookup sorted_scores i rest = Ok ranked.
Proof.
  intros Hrest. revert i.
  induction Hrest as [|cs rest (Hknown & Hname & Hlo & Hhi) _ IH]; intros i.
  - exists []. reflexivity.
  - cbn [ranked_from]. destruct Hknown as [tech ->].
    cbn [from_option mbind Result_bind]. unfold mk_RankedChoice.
    rewrite (nonempty_true _ Hname).
    assert (Hrange : Qle_bool 0 (cs_score cs) && Qle_bool (cs_score cs) 1 = true).
    { apply andb_true_iff. split; apply Qle_bool_iff; assumption. }
    rewrite Hrange. cbn [negb raise_if mbind Result_bind].
    destruct (IH (S i)) as [tail ->]. cbn [mbind Result_bind].
    eexists. reflexivity.
Qed.

Lemma focused_tech_returns (tech_lookup : gmap string TechnologyProfile)
    (dimension : string) (measure : Q -> Q) (improves : Q -> Q -> bool)
    (scores : list CompatibilityScore) (best : Q) (focused : option string) :
  Forall (fun cs => is_Some (tech_lookup !! cs_technology cs)) scores ->
  exists o, focused_tech tech_lookup dimension measure improves scores
              best focused = Ok o.
Proof.
  intros Hscores. revert best focused.
  induction Hscores as [|cs scores [tech Htech] _ IH]; intros best focused.
  - exists focused. reflexivity.
  - cbn [focused_tech]. rewrite Htech. cbn [from_option mbind Result_bind].
    destruct (dimensions tech !! dimension) as [d|]; [|apply IH].
    destruct (improves (measure (ds_score d)) best); apply IH.
Qed.

Lemma truthy_nonempty (o : option string) (t : string) :
  truthy o = Some t -> nonempty t = true.
Proof.
  destruct o as [s|]; [|discriminate]. cbn [truthy].
  destruct (nonempty s) eqn:Hs; [|discriminate]. intros [= <-]. exact Hs.
Qed.

Lemma alternative_scenarios_return (technologies : list TechnologyProfile)
    (scores : list CompatibilityScore) :
  scores <> [] ->
  Forall (fun cs => is_Some (tech_lookup_of technologies !! cs_technology cs))
    scores ->
  exists o, _generate_alternative_scenarios technologies scores = Ok o.
Proof.
  intros Hne Hknown. unfold _generate_alternative_scenarios.
  destruct scores as [|first rest]; [congruence|].
  set (scores := first :: rest) in *.
  destruct (focused_tech_returns (tech_lookup_of technologies) "cost"
              (fun s => 5.0 - s) (fun c best => Qlt_bool best c) scores 0 None
              Hknown) as [budget ->].
  cbn [mbind Result_bind].
  assert (Hfirst : exists l1,
             match truthy budget with
             | Some t =>
                 s ← mk_AlternativeScenario
                       "If budget becomes the primary constraint" t
                       "This option offers the best cost-effectiveness for the project requirements";
                 Ok ([] ++ [s])
             | None => Ok []
             end = Ok l1).
  { destruct (truthy budget) as [t|] eqn:Ht; [|eauto].
    unfold mk_AlternativeScenario. rewrite (truthy_nonempty _ _ Ht).
    cbn. eauto. }
  destruct Hfirst as [l1 ->]. cbn [mbind Result_bind].
  destruct (focused_tech_returns (tech_lookup_of technologies) "scalability"
              (fun s => s) (fun c best => Qlt_bool best c) scores 0 None
              Hknown) as [scal ->].
  cbn [mbind Result_bind].
  assert (Hsecond : exists l2,
             match truthy scal with
             | Some t =>
                 first0 ← from_option (head scores) IndexError;
                 if negb (String.eqb t (cs_technology first0)) then
                   s ← mk_AlternativeScenario
                         "If scalability becomes the top priority" t
                         "This option provides the strongest scalability capabilities";
                   Ok (l1 ++ [s])
                 else Ok l1
             | None => Ok l1
             end = Ok l2).
  { destruct (truthy scal) as [t|] eqn:Ht; [|eauto].
    cbn [scores head from_option mbind Result_bind].
    destruct (negb _); [|eauto].
    unfold mk_AlternativeScenario. rewrite (truthy_nonempty _ _ Ht).
    cbn. eauto. }
  destruct Hsecond as [l2 ->]. cbn [mbind Result_bind].
  destruct (focused_tech_returns (tech_lookup_of technologies) "complexity"
              (fun s => s) (fun c best => Qlt_bool c best) scores 6.0 None
              Hknown) as [simple ->].
  cbn [mbind Result_bind].
  assert (Hthird : exists l3,
             match truthy simple with
             | Some t =>
                 first0 ← from_option (head scores) IndexError;
                 if negb (String.eqb t (cs_technology first0)) then
                   s ← mk_AlternativeScenario
                         "If team expertise is limited or learning curve is a concern" t
                         "This option offers the lowest complexity and easiest learning curve";
                   Ok (l2 ++ [s])
                 else Ok l2
             | None => Ok l2
             end = Ok l3).
  { destruct (truthy simple) as [t|] eqn:Ht; [|eauto].
    cbn [scores head from_option mbind Result_bind].
    destruct (negb _); [|eauto].
    unfold mk_AlternativeScenario. rewrite (truthy_nonempty _ _ Ht).
    cbn. eauto. }
  destruct Hthird as [l3 ->]. cbn [mbind Result_bind].
  eexists. reflexivity.
Qed.

Lemma sorted_desc_of_descending (l : list Q) :
  descending id l -> sorted_desc id l = l.
Proof.
  unfold descending. induction 1 as [|x l Hl IH Hx]; [reflexivity|].
  cbn [sorted_desc fold_right]. fold (sorted_desc id l). rewrite IH.
  destruct l as [|y l']; [reflexivity|]. cbn [insert_desc].
  apply Forall_cons in Hx as [Hy _]. unfold id in *.
  assert (Qlt_bool x y = false) as -> by (apply Qlt_bool_false_iff; exact Hy).
  reflexivity.
Qed.

Lemma list_Qeq_bool_refl (l : list Q) : list_Qeq_bool l l = true.
Proof.
  induction l as [|x l IH]; [reflexivity|]. cbn [list_Qeq_bool].
  rewrite IH, andb_true_r. apply Qeq_bool_iff. reflexivity.
Qed.

Lemma descending_map {A : Type} (key : A -> Q) (l : list A) :
  descending key l -> descending id (map key l).
Proof.
  unfold descending. induction 1 as [|x l Hl IH Hx]; [constructor|].
  cbn [map]. constructor; [exact IH|].
  rewrite List.Forall_map. exact Hx.
Qed.

(** For well-formed scores [generate_recommendation] returns a
    recommendation, so the statements about returned recommendations apply
    to every such request. *)
Lemma generate_recommendation_returns (technologies : list TechnologyProfile)
    (compatibility_scores : list CompatibilityScore) (wc : WeightedCriteria) :
  scores_match technologies compatibility_scores ->
  exists rec,
    generate_recommendation technologies compatibility_scores wc = Ok rec.
Proof.
  intros (Hne & Hnames & Hnodup & Hnonempty & Hrange).
  assert (Hlen : length compatibility_scores = length technologies).
  { rewrite <- (length_map cs_technology), Hnames. apply length_map. }
  assert (Hscores_ne : compatibility_scores <> []).
  { destruct compatibility_scores; [|discriminate].
    destruct technologies; [congruence|discriminate Hlen]. }
  assert (Hin_names : forall cs, In cs compatibility_scores ->
                                 In (cs_technology cs) (map name technologies)).
  { intros cs Hcs. rewrite <- Hnames. apply in_map, Hcs. }
  assert (Hknown : Forall (fun cs => is_Some (tech_lookup_of technologies
                                                !! cs_technology cs))
                     compatibility_scores).
  { apply Forall_forall. intros cs Hcs.
    apply tech_lookup_known, Hin_names, list_elem_of_In, Hcs. }
  assert (Hgood : Forall (fun cs => is_Some (tech_lookup_of technologies
                                               !! cs_technology cs) /\
                                    cs_technology cs <> "" /\
                                    0 <= cs_score cs /\ cs_score cs <= 1)
                    compatibility_scores).
  { apply Forall_forall. intros cs Hcs.
    rewrite Forall_forall in Hknown, Hrange.
    split; [apply Hknown, Hcs|]. split; [|apply Hrange, Hcs].
    apply list_elem_of_In, Hin_names, in_map_iff in Hcs as (t & Ht & Hin).
    rewrite <- Ht. rewrite Forall_forall in Hnonempty.
    apply Hnonempty, list_elem_of_In, Hin. }
  unfold generate_recommendation.
  destruct technologies as [|t0 ts] eqn:Htechs; [congruence|].
  rewrite <- Htechs in *. cbn [raise_if mbind Result_bind].
  rewrite Hlen, Nat.eqb_refl. cbn [negb raise_if mbind Result_bind].
  unfold _create_ranked_choices.
  set (sorted := sorted_desc cs_score compatibility_scores).
  assert (Hperm : Permutation sorted compatibility_scores)
    by apply sorted_desc_perm.
  destruct (ranked_from_returns (tech_lookup_of technologies) sorted sorted 0)
    as [ranked Hranked].
  { eapply Permutation_Forall; [symmetry; exact Hperm|exact Hgood]. }
  rewrite Hranked. cbn [mbind Result_bind].
  destruct (alternative_scenarios_return technologies compatibility_scores
              Hscores_ne Hknown) as [alt ->].
  cbn [mbind Result_bind]. unfold mk_Recommendation.
  pose proof (ranked_from_maps _ _ _ _ _ Hranked) as Hmaps.
  assert (Htech : map rc_technology ranked = map cs_technology sorted).
  { clear -Hmaps. induction Hmaps as [|rc cs r s [H1 _] _ IH]; [reflexivity|].
    cbn [map]. rewrite H1, IH. reflexivity. }
  assert (Hscore : map rc_score ranked = map cs_score sorted).
  { clear -Hmaps. induction Hmaps as [|rc cs r s [_ H2] _ IH]; [reflexivity|].
    cbn [map]. rewrite H2, IH. reflexivity. }
  assert (Hnil : match ranked with [] => true | _ :: _ => false end = false).
  { destruct ranked; [|reflexivity]. exfalso.
    apply Forall2_length in Hmaps. cbn [length] in Hmaps.
    assert (Hsl : length sorted = length compatibility_scores)
      by apply sorted_desc_length.
    destruct compatibility_scores; [congruence|]. simpl in Hsl. lia. }
  rewrite Hnil. cbn [raise_if mbind Result_bind].
  assert (Huniq : (length (map rc_technology ranked)
                   =? size (list_to_set (map rc_technology ranked) : gset string))%nat
                  = true).
  { apply Nat.eqb_eq. symmetry. apply size_list_to_set.
    rewrite Htech, (Permutation_map cs_technology Hperm), Hnames.
    exact Hnodup. }
  rewrite Huniq. cbn [negb raise_if mbind Result_bind].
  rewrite Hscore.
  rewrite (sorted_desc_of_descending (map cs_score sorted))
    by (apply descending_map, sorted_desc_descending).
  rewrite list_Qeq_bool_refl. cbn [negb raise_if mbind Result_bind].
  eexists. reflexivity.
Qed.

(** ** Alternative scenarios *)

(** C6, evaluated where the code departs from it: EC2 and AWS Lambda are
    compared, in this order, under the default requirements.  AWS Lambda
    has the highest compatibility score and is ranked first, and the
    scalability-focused scenario is included although it suggests AWS
    Lambda: the suggestion is compared with the first entry of the unsorted
    score list (EC2), not with the top pick. *)
Theorem scalability_scenario_suggests_top_pick :
  exists wc cr rec scenarios sc,
    process_requirements default_requirements = Ok wc /\
    generate_comparison [EC2_profile; AWS_Lambda_profile] wc None = Ok cr /\
    map cs_technology (cr_compatibility_scores cr) = ["EC2"; "AWS Lambda"] /\
    generate_recommendation [EC2_profile; AWS_Lambda_profile]
      (cr_compatibility_scores cr) wc = Ok rec /\
    map rc_technology (ranked_choices rec) = ["AWS Lambda"; "EC2"] /\
    alternative_scenarios rec = Some scenarios /\
    sc ∈ scenarios /\
    as_scenario sc = "If scalability becomes the top priority" /\
    as_recommended_tech sc = "AWS Lambda".
Proof.
  eexists. eexists. eexists. eexists. eexists.
  split; [vm_compute; reflexivity|].
  split; [vm_compute; reflexivity|].
  split; [reflexivity|].
  split; [vm_compute; reflexivity|].
  split; [reflexivity|].
  split; [reflexivity|].
  split; [apply list_elem_of_further, list_elem_of_here|].
  split; reflexivity.
Qed.

(** The cost-focused scenario is left out when no technology has a
    cost-effectiveness above 0, that is when every cost score is 5.0:
    PostgreSQL and SQLite both have a cost dimension, and their
    recommendation carries no alternative scenario at all. *)
Lemma cost_scenario_missing_at_best_cost :
  is_Some (dimensions PostgreSQL_profile !! "cost") /\
  is_Some (dimensions SQLite_profile !! "cost") /\
  exists rec,
    generate_recommendation [PostgreSQL_profile; SQLite_profile]
      database_scores sample_criteria = Ok rec /\
    alternative_scenarios rec = None.
Proof.
  split; [vm_compute; eauto|]. split; [vm_compute; eauto|].
  eexists. split; [vm_compute; reflexivity|]. reflexivity.
Qed.

(** ** Highlights of the trade-off matrix *)

Lemma collect_seq {B C : Type} (l : list B) (f : nat -> Result C)
    (h : B -> C) (k : nat) :
  (forall i x, l !! i = Some x -> f (k + i)%nat = Ok (h x)) ->
  collect f (seq k (length l)) = Ok (map h l).
Proof.
  revert k. induction l as [|x l IH]; intros k Hf; [reflexivity|].
  cbn [length seq collect map].
  rewrite <- (Nat.add_0_r k) at 1. rewrite (Hf 0%nat x eq_refl).
  cbn [mbind Result_bind]. rewrite (IH (S k)).
  - reflexivity.
  - intros i y Hy. rewrite Nat.add_succ_l, <- Nat.add_succ_r.
    apply Hf. exact Hy.
Qed.

(** The column of dimension [d] read back from the score matrix. *)
Lemma matrix_column (technologies : list TechnologyProfile)
    (dims : list string) (dim_idx : nat) (d : string) :
  dims !! dim_idx = Some d ->
  collect
    (fun tech_idx =>
       row ← from_option
               (map (fun tech => map (fun d => fst (matrix_cell tech d)) dims)
                  technologies !! tech_idx) IndexError;
       from_option (row !! dim_idx) IndexError)
    (seq 0 (length technologies))
  = Ok (map (fun t => cell_score t d) technologies).
Proof.
  intros Hd. apply collect_seq. intros i t Ht. cbn [Nat.add].
  rewrite list_lookup_fmap, Ht. cbn [fmap option_fmap option_map from_option mbind Result_bind].
  rewrite list_lookup_fmap, Hd. reflexivity.
Qed.

Lemma index_of_lookup (x : Q) (l : list Q) (i : nat) :
  index_of x l = Some i -> exists y, l !! i = Some y /\ y == x.
Proof.
  revert i. induction l as [|y l IH]; intros i; [discriminate|].
  cbn [index_of]. destruct (Qeq_bool y x) eqn:Hyx.
  - intros [= <-]. exists y. split; [reflexivity|apply Qeq_bool_iff, Hyx].
  - destruct (index_of x l) as [j|]; [|discriminate].
    intros [= <-]. destruct (IH j eq_refl) as [z [Hz Hzx]].
    exists z. split; assumption.
Qed.

Lemma index_of_In (x : Q) (l : list Q) :
  In x l -> exists i, index_of x l = Some i.
Proof.
  induction l as [|y l IH]; [intros []|]. intros Hin. cbn [index_of].
  destruct (Qeq_bool y x) eqn:Hyx; [eauto|].
  destruct Hin as [->|Hin].
  - assert (Qeq_bool x x = true) by (apply Qeq_bool_iff; reflexivity). congruence.
  - destruct (IH Hin) as [i ->]. eauto.
Qed.

Lemma index_of_middle (x : Q) (before after : list Q) :
  Forall (fun y => y < x) before ->
  index_of x (before ++ x :: after) = Some (length before).
Proof.
  induction 1 as [|y before Hy _ IH]; cbn [app index_of length].
  - assert (Qeq_bool x x = true) as -> by (apply Qeq_bool_iff; reflexivity).
    reflexivity.
  - destruct (Qeq_bool y x) eqn:Hyx.
    + apply Qeq_bool_iff in Hyx. lra.
    + rewrite IH. reflexivity.
Qed.

(** When one score leads all others by 0.5, it is the head of the sorted
    column and the others make up the tail. *)
Lemma sorted_head_is_leader (sorted_tail : list Q) (s0 x : Q)
    (others : list Q) :
  Permutation (s0 :: sorted_tail) (x :: others) ->
  descending id (s0 :: sorted_tail) ->
  Forall (fun y => y + 0.5 <= x) others ->
  s0 = x /\ Permutation sorted_tail others.
Proof.
  intros Hperm Hdesc Hothers.
  assert (Hx : In x (s0 :: sorted_tail)).
  { eapply Permutation_in; [symmetry; exact Hperm|left; reflexivity]. }
  assert (Hs0 : In s0 (x :: others)).
  { eapply Permutation_in; [exact Hperm|left; reflexivity]. }
  apply StronglySorted_inv in Hdesc as [_ Hall].
  destruct Hs0 as [<-|Hs0].
  - split; [reflexivity|]. eapply Permutation_cons_inv, Hperm.
  - exfalso. rewrite Forall_forall in Hothers.
    specialize (Hothers s0 (proj2 (list_elem_of_In _ _) Hs0)).
    destruct Hx as [->|Hx]; [lra|].
    rewrite Forall_forall in Hall.
    specialize (Hall x (proj2 (list_elem_of_In _ _) Hx)). unfold id in Hall. lra.
Qed.

Section Column.
Context (technologies : list TechnologyProfile) (d : string).

Local Abbreviation column := (map (fun t => cell_score t d) technologies).

(** The test of the source on the sorted column implies a lead of 0.5
    over every other technology. *)
Lemma gap_test_leads (mx s0 s1 : Q) (rest : list Q) (i : nat)
    (leader : TechnologyProfile) :
  list_max column = Some mx ->
  index_of mx column = Some i ->
  technologies !! i = Some leader ->
  sorted_desc id column = s0 :: s1 :: rest ->
  0.5 <= s0 - s1 ->
  leads_by_half technologies d leader /\ mx = cell_score leader d.
Proof.
  intros Hmax Hidx Hleader Hsorted Hgap.
  set (x := cell_score leader d).
  set (before := take i technologies).
  set (after := drop (S i) technologies).
  assert (Hsplit : technologies = before ++ leader :: after).
  { symmetry. apply take_drop_middle, Hleader. }
  assert (Hcol : column = map (fun t => cell_score t d) before
                          ++ x :: map (fun t => cell_score t d) after).
  { rewrite Hsplit at 1. rewrite map_app. reflexivity. }
  set (others := map (fun t => cell_score t d) before
                 ++ map (fun t => cell_score t d) after).
  destruct (list_max_spec _ _ Hmax) as [Hmx_in Hmx_all].
  destruct (index_of_lookup _ _ _ Hidx) as [y [Hy Hyx]].
  assert (y = x) as ->.
  { rewrite list_lookup_fmap, Hleader in Hy.
    injection Hy as <-. reflexivity. }
  pose proof (sorted_desc_perm id column) as Hperm.
  pose proof (sorted_desc_descending id column) as Hdesc.
  rewrite Hsorted in Hperm, Hdesc.
  assert (Hperm' : Permutation (s0 :: s1 :: rest) (x :: others)).
  { rewrite Hperm, Hcol. symmetry. apply Permutation_middle. }
  assert (Hs0_le : s0 <= mx).
  { rewrite Forall_forall in Hmx_all. apply Hmx_all.
    apply list_elem_of_In. eapply Permutation_in; [exact Hperm|].
    left; reflexivity. }
  apply StronglySorted_inv in Hdesc as [Hdesc1 Hall0].
  apply StronglySorted_inv in Hdesc1 as [_ Hall1].
  unfold id in Hall0, Hall1.
  assert (Hx_in : In x (s0 :: s1 :: rest)).
  { eapply Permutation_in; [symmetry; exact Hperm'|left; reflexivity]. }
  assert (Hs0 : s0 = x).
  { destruct Hx_in as [Hx|[Hx|Hx]]; [exact Hx|exfalso; subst s1; lra|exfalso].
    rewrite Forall_forall in Hall1.
    specialize (Hall1 x (proj2 (list_elem_of_In _ _) Hx)). lra. }
  subst s0.
  assert (Hothers : Forall (fun y => y + 0.5 <= x) others).
  { apply Forall_forall. intros z Hz.
    assert (Hz' : In z (s1 :: rest)).
    { eapply Permutation_in;
        [symmetry; eapply Permutation_cons_inv, Hperm'|].
      apply list_elem_of_In, Hz. }
    destruct Hz' as [<-|Hz']; [lra|].
    rewrite Forall_forall in Hall1.
    specialize (Hall1 z (proj2 (list_elem_of_In _ _) Hz')). lra. }
  split.
  - exists before, after. split; [exact Hsplit|].
    unfold others in Hothers. rewrite <- map_app in Hothers.
    rewrite List.Forall_map in Hothers. exact Hothers.
  - rewrite Hcol in Hmx_in. apply in_app_or in Hmx_in.
    assert (Hnot : ~ In mx others).
    { intros Hin. rewrite Forall_forall in Hothers.
      specialize (Hothers mx (proj2 (list_elem_of_In _ _) Hin)). lra. }
    destruct Hmx_in as [Hin|[Hin|Hin]].
    + exfalso. apply Hnot. apply in_or_app. left; exact Hin.
    + symmetry; exact Hin.
    + exfalso. apply Hnot. apply in_or_app. right; exact Hin.
Qed.

(** A lead of 0.5 over every other technology passes the test of the
    source, with the leader at the first position of the maximum. *)
Lemma leads_gap_test (leader : TechnologyProfile) :
  (2 <= length technologies)%nat ->
  leads_by_half technologies d leader ->
  exists i s0 s1 rest,
    list_max column = Some (cell_score leader d) /\
    index_of (cell_score leader d) column = Some i /\
    technologies !! i = Some leader /\
    sorted_desc id column = s0 :: s1 :: rest /\
    0.5 <= s0 - s1.
Proof.
  intros Hlen (before & after & Hsplit & Hothers).
  set (x := cell_score leader d).
  set (cb := map (fun t => cell_score t d) before).
  set (ca := map (fun t => cell_score t d) after).
  assert (Hcol : column = cb ++ x :: ca).
  { rewrite Hsplit, map_app. reflexivity. }
  assert (Hoth : Forall (fun y => y + 0.5 <= x) (cb ++ ca)).
  { unfold cb, ca. rewrite <- map_app. rewrite List.Forall_map.
    exact Hothers. }
  assert (Hcb : Forall (fun y => y < x) cb).
  { apply Forall_app in Hoth as [Hb _].
    eapply Forall_impl; [exact Hb|]. intros z Hz; simpl in Hz. lra. }
  exists (length before).
  destruct (sorted_desc id column) as [|s0 [|s1 rest]] eqn:Hsorted.
  - apply (f_equal length) in Hsorted.
    rewrite sorted_desc_length in Hsorted.
    rewrite length_map in Hsorted. simpl in Hsorted. lia.
  - apply (f_equal length) in Hsorted.
    rewrite sorted_desc_length in Hsorted.
    rewrite length_map in Hsorted. simpl in Hsorted. lia.
  - exists s0, s1, rest.
    pose proof (sorted_desc_perm id column) as Hperm.
    pose proof (sorted_desc_descending id column) as Hdesc.
    rewrite Hsorted in Hperm, Hdesc.
    assert (Hperm' : Permutation (s0 :: s1 :: rest) (x :: cb ++ ca)).
    { rewrite Hperm, Hcol. symmetry. apply Permutation_middle. }
    destruct (sorted_head_is_leader _ _ _ _ Hperm' Hdesc Hoth)
      as [-> Htail].
    assert (Hs1 : s1 + 0.5 <= x).
    { rewrite Forall_forall in Hoth. apply Hoth.
      apply list_elem_of_In. eapply Permutation_in; [exact Htail|].
      left; reflexivity. }
    assert (Hmax : list_max column = Some x).
    { destruct (list_max column) as [mx|] eqn:Hmx.
      - destruct (list_max_spec _ _ Hmx) as [Hin Hall].
        rewrite Hcol in Hin. apply in_app_or in Hin.
        assert (Hx_le : x <= mx).
        { rewrite Forall_forall in Hall. apply Hall. rewrite Hcol.
          apply list_elem_of_In, in_or_app. right; left; reflexivity. }
        assert (Hnot : ~ In mx (cb ++ ca)).
        { intros Hin'. rewrite Forall_forall in Hoth.
          specialize (Hoth mx (proj2 (list_elem_of_In _ _) Hin')). lra. }
        destruct Hin as [Hin|[Hin|Hin]].
        + exfalso. apply Hnot, in_or_app. left; exact Hin.
        + congruence.
        + exfalso. apply Hnot, in_or_app. right; exact Hin.
      - rewrite Hcol in Hmx. destruct cb; discriminate Hmx. }
    split; [exact Hmax|]. split.
    + rewrite Hcol. replace (length before) with (length cb)
        by (unfold cb; apply length_map).
      apply index_of_middle, Hcb.
    + split; [rewrite Hsplit; apply list_lookup_middle; reflexivity|].
      split; [reflexivity|lra].
Qed.
End Column.

Lemma valid_profile_explanation (t : TechnologyProfile) (d : string)
    (ds : DimensionScore) :
  valid_TechnologyProfile t -> dimensions t !! d = Some ds ->
  ds_explanation ds <> "".
Proof.
  intros (_ & _ & Hdims & _) Hd. apply (Hdims d ds Hd).
Qed.

(** One dimension of the highlight pass: no exception, and a highlight
    exactly for a technology that leads by 0.5. *)
Lemma highlight_at_spec (technologies : list TechnologyProfile)
    (dims : list string) (dim_idx : nat) (d : string) :
  (2 <= length technologies)%nat ->
  Forall valid_TechnologyProfile technologies ->
  d <> "" ->
  dims !! dim_idx = Some d ->
  exists o,
    highlight_at technologies
      (map (fun tech => map (fun d => fst (matrix_cell tech d)) dims)
         technologies) dim_idx d = Ok o /\
    forall h, o = Some h <->
      exists leader, leads_by_half technologies d leader /\
                     h = highlight_for d leader.
Proof.
  intros Hlen Hvalid Hd Hlookup.
  unfold highlight_at. rewrite (matrix_column technologies dims dim_idx d Hlookup).
  cbn [mbind Result_bind].
  set (column := map (fun t => cell_score t d) technologies).
  destruct (list_max column) as [mx|] eqn:Hmax.
  2:{ exfalso. unfold column in Hmax. destruct technologies; [simpl in Hlen; lia|].
      discriminate Hmax. }
  cbn [from_option mbind Result_bind].
  destruct (list_max_spec _ _ Hmax) as [Hmx_in _].
  destruct (index_of_In _ _ Hmx_in) as [i Hidx]. rewrite Hidx.
  cbn [from_option mbind Result_bind].
  destruct (index_of_lookup _ _ _ Hidx) as [y [Hy _]].
  assert (Hi : (i < length technologies)%nat).
  { apply lookup_lt_Some in Hy. unfold column in Hy.
    rewrite length_map in Hy. exact Hy. }
  destruct (lookup_lt_is_Some_2 _ _ Hi) as [leader Hleader]. rewrite Hleader.
  cbn [from_option mbind Result_bind].
  assert (Hno : forall s0 s1 rest,
             sorted_desc id column = s0 :: s1 :: rest ->
             Qle_bool 0.5 (s0 - s1) = true ->
             forall h, (exists leader', leads_by_half technologies d leader' /\
                                        h = highlight_for d leader') ->
                       h = highlight_for d leader).
  { intros s0 s1 rest Hsorted Hgap h (leader' & Hleads & ->).
    apply Qle_bool_iff in Hgap.
    destruct (gap_test_leads technologies d mx s0 s1 rest i leader
                Hmax Hidx Hleader Hsorted Hgap) as [_ Hmx].
    destruct (leads_gap_test technologies d leader' Hlen Hleads)
      as (i' & _ & _ & _ & Hmax' & Hidx' & Hleader' & _).
    fold column in Hmax', Hidx'.
    rewrite Hmax in Hmax'. injection Hmax' as Heq.
    rewrite <- Heq, Hidx in Hidx'. injection Hidx' as <-.
    rewrite Hleader in Hleader'. injection Hleader' as <-. reflexivity. }
  assert (Hnone : forall h : TradeoffHighlight,
             (forall s0 s1 rest, sorted_desc id column = s0 :: s1 :: rest ->
                                 Qle_bool 0.5 (s0 - s1) = false) ->
             None = Some h <->
             exists leader', leads_by_half technologies d leader' /\
                             h = highlight_for d leader').
  { intros h Hfalse. split; [discriminate|].
    intros (leader' & Hleads & _). exfalso.
    destruct (leads_gap_test technologies d leader' Hlen Hleads)
      as (_ & s0 & s1 & rest & _ & _ & _ & Hsorted & Hgap).
    fold column in Hsorted.
    specialize (Hfalse s0 s1 rest Hsorted).
    apply Qle_bool_false_iff in Hfalse. lra. }
  destruct (sorted_desc id column) as [|s0 [|s1 rest]] eqn:Hsorted.
  - exists None. split; [reflexivity|]. intros h. apply Hnone.
    intros ? ? ? [=].
  - exists None. split; [reflexivity|]. intros h. apply Hnone.
    intros ? ? ? [=].
  - destruct (Qle_bool 0.5 (s0 - s1)) eqn:Hgap.
    + apply Qle_bool_iff in Hgap as Hgap'.
      destruct (gap_test_leads technologies d mx s0 s1 rest i leader
                  Hmax Hidx Hleader Hsorted Hgap') as [Hleads Hmx].
      assert (Hleader_valid : valid_TechnologyProfile leader).
      { rewrite Forall_forall in Hvalid. apply Hvalid.
        eapply list_elem_of_lookup_2, Hleader. }
      unfold mk_TradeoffHighlight.
      assert (Hne : nonempty d && nonempty (name leader)
                    && nonempty
                         match dimensions leader !! d with
                         | Some d0 => ds_explanation d0
                         | None =>
                             "Leads in " +:+ d +:+ " with score of "
                               +:+ format_1f mx
                         end = true).
      { rewrite (nonempty_true _ Hd).
        rewrite (nonempty_true _ (proj1 Hleader_valid)).
        destruct (dimensions leader !! d) as [ds|] eqn:Hds; [|reflexivity].
        rewrite (nonempty_true _ (valid_profile_explanation _ _ _ Hleader_valid Hds)).
        reflexivity. }
      rewrite Hne. cbn [negb raise_if mbind Result_bind].
      eexists. split; [reflexivity|]. intros h.
      assert (Hrecord :
                {| th_dimension := d; th_leader := name leader;
                   th_explanation :=
                     match dimensions leader !! d with
                     | Some d0 => ds_explanation d0
                     | None =>
                         "Leads in " +:+ d +:+ " with score of "
                           +:+ format_1f mx
                     end |} = highlight_for d leader).
      { unfold highlight_for. rewrite Hmx. reflexivity. }
      rewrite Hrecord. split.
      * intros [= <-]. exists leader. split; [exact Hleads|reflexivity].
      * intros Hex. f_equal. symmetry.
        apply (Hno s0 s1 rest eq_refl Hgap h Hex).
    + exists None. split; [reflexivity|]. intros h. apply Hnone.
      intros ? ? ? [= <- <- <-]. exact Hgap.
Qed.

Lemma elem_of_option_list_app {A : Type} (o : option A) (l : list A) (x : A) :
  x ∈ option_list o ++ l <-> o = Some x \/ x ∈ l.
Proof.
  rewrite elem_of_app. destruct o as [a|]; simpl.
  - rewrite list_elem_of_singleton. split; intros [H|H]; auto; left; congruence.
  - split; [intros [H|H]; [inversion H|auto]|intros [H|H]; [discriminate|auto]].
Qed.

(** The loop over the dimensions. *)
Lemma identify_highlights_from_spec (technologies : list TechnologyProfile)
    (dims prefix rest : list string) :
  (2 <= length technologies)%nat ->
  Forall valid_TechnologyProfile technologies ->
  dims = prefix ++ rest ->
  Forall (fun d => d <> "") rest ->
  exists hs,
    identify_highlights_from technologies
      (map (fun tech => map (fun d => fst (matrix_cell tech d)) dims)
         technologies) (length prefix) rest = Ok hs /\
    forall h, h ∈ hs <->
      exists d leader, d ∈ rest /\ leads_by_half technologies d leader /\
                       h = highlight_for d leader.
Proof.
  intros Hlen Hvalid. revert prefix.
  induction rest as [|d rest IH]; intros prefix Hdims Hnames.
  - exists []. split; [reflexivity|]. intros h. split.
    + intros Hin. inversion Hin.
    + intros (d & _ & Hin & _). inversion Hin.
  - apply Forall_cons in Hnames as [Hd Hnames].
    assert (Hlookup : dims !! length prefix = Some d).
    { rewrite Hdims. apply list_lookup_middle. reflexivity. }
    destruct (highlight_at_spec technologies dims (length prefix) d
                Hlen Hvalid Hd Hlookup) as (o & Ho & Hspec).
    destruct (IH (prefix ++ [d])) as (hs & Hhs & Hrest).
    { rewrite Hdims, <- app_assoc. reflexivity. }
    { exact Hnames. }
    rewrite length_app, Nat.add_1_r in Hhs.
    cbn [identify_highlights_from]. rewrite Ho.
    cbn [mbind Result_bind]. rewrite Hhs. cbn [mbind Result_bind].
    eexists. split; [reflexivity|]. intros h.
    rewrite elem_of_option_list_app, Hspec, Hrest. split.
    + intros [(leader & Hleads & ->)|(d' & leader & Hin & Hleads & ->)].
      * exists d, leader. split; [apply list_elem_of_here|]. split; [exact Hleads|reflexivity].
      * exists d', leader. split; [apply list_elem_of_further, Hin|].
        split; [exact Hleads|reflexivity].
    + intros (d' & leader & Hin & Hleads & ->).
      apply elem_of_cons in Hin as [->|Hin].
      * left. exists leader. split; [exact Hleads|reflexivity].
      * right. exists d', leader. split; [exact Hin|].
        split; [exact Hleads|reflexivity].
Qed.

Lemma forallb_rows {A B : Type} (f : A -> list B) (n : nat) (l : list A) :
  (forall a, length (f a) = n) ->
  forallb (fun row => (length row =? n)%nat) (map f l) = true.
Proof.
  intros Hf. induction l as [|a l IH]; [reflexivity|].
  cbn [map forallb]. rewrite Hf, Nat.eqb_refl, IH. reflexivity.
Qed.

(** C7: for at least two valid profiles and 1 to 10 non-empty dimension
    names, [create_tradeoff_matrix] returns a matrix whose highlights are
    exactly these: for each dimension in which one technology scores at
    least 0.5 above every other one (the maximum beats the second-highest
    score by 0.5), a highlight naming that technology as leader, explained
    by the leader's own explanation of the dimension when its profile has
    the dimension and by "Leads in <dimension> with score of X" otherwise. *)
Theorem highlights_mark_leads_of_half (technologies : list TechnologyProfile)
    (dims : list string) :
  (2 <= length technologies)%nat ->
  Forall valid_TechnologyProfile technologies ->
  (1 <= length dims <= 10)%nat ->
  Forall (fun d => d <> "") dims ->
  exists m,
    create_tradeoff_matrix technologies dims = Ok m /\
    forall h, h ∈ tm_highlights m <->
      exists d leader, d ∈ dims /\ leads_by_half technologies d leader /\
                       h = highlight_for d leader.
Proof.
  intros Hlen Hvalid [Hdims1 Hdims10] Hnames.
  destruct (identify_highlights_from_spec technologies dims [] dims
              Hlen Hvalid eq_refl Hnames) as (hs & Hhs & Hspec).
  unfold create_tradeoff_matrix, _validate_matrix_inputs.
  assert (Ht : match technologies with [] => true | _ :: _ => false end = false)
    by (destruct technologies; [simpl in Hlen; lia|reflexivity]).
  assert (Hd : match dims with [] => true | _ :: _ => false end = false)
    by (destruct dims; [simpl in Hdims1; lia|reflexivity]).
  assert (Hten : (10 <? length dims)%nat = false) by (apply Nat.ltb_ge; lia).
  rewrite Ht, Hd, Hten.
  cbn [raise_if mbind Result_bind].
  unfold _identify_highlights. cbn [length] in Hhs. rewrite Hhs.
  unfold mk_TradeoffMatrix. rewrite !length_map.
  assert (Hrows : (length technologies <? 2)%nat = false)
    by (apply Nat.ltb_ge; lia).
  assert (Hcols : (length dims <? 1)%nat = false)
    by (apply Nat.ltb_ge; lia).
  rewrite Hrows, Hcols, Nat.eqb_refl.
  rewrite !forallb_rows by (intros; apply length_map).
  cbn [andb negb raise_if mbind Result_bind wrap_ComparisonError].
  eexists. split; [reflexivity|]. exact Hspec.
Qed.

Lemma highlights_mark_leads_of_half_witness :
  exists m,
    create_tradeoff_matrix [REST_profile; GraphQL_profile]
      standard_dimensions = Ok m /\
    forall h, h ∈ tm_highlights m <->
      exists d leader,
        d ∈ standard_dimensions /\
        leads_by_half [REST_profile; GraphQL_profile] d leader /\
        h = highlight_for d leader.
Proof.
  apply (highlights_mark_leads_of_half [REST_profile; GraphQL_profile]
           standard_dimensions).
  - simpl. lia.
  - valid_profiles.
  - simpl. lia.
  - repeat constructor; discriminate.
Defined.

(** ** Custom dimension names *)

(** The check of the input parser rejects every custom name that, lowered
    and stripped, is a standard dimension name. *)
Lemma parser_rejects_case_variants (custom_dimensions : list string)
    (dimension : string) :
  In dimension custom_dimensions ->
  In (strip (lower dimension)) standard_dimensions ->
  _validate_custom_dimensions custom_dimensions = Raise InputValidationError.
Proof.
  intros Hin Hstd. unfold _validate_custom_dimensions.
  destruct (List.filter _ custom_dimensions) as [|c cs] eqn:Hfilter;
    [|reflexivity].
  exfalso.
  assert (Hc : In dimension
                 (List.filter
                    (fun dimension =>
                       contains standard_dimensions (strip (lower dimension)))
                    custom_dimensions)).
  { apply filter_In. split; [exact Hin|].
    unfold contains. apply existsb_exists.
    exists (strip (lower dimension)). split; [exact Hstd|apply String.eqb_refl]. }
  rewrite Hfilter in Hc. exact Hc.
Qed.

(** The checks of the request model and of the engine compare the names as
    they are: "Cost" passes [ComparisonRequest.validate_custom_dimensions]
    and [_get_comparison_dimensions], and a comparison with it is
    generated by the engine when it is called directly.  The check of the
    input parser, which lowers the names first, rejects it. *)
Lemma case_variant_passes_model_and_engine :
  validate_custom_dimensions (Some ["Cost"]) = Ok (Some ["Cost"]) /\
  _get_comparison_dimensions (Some ["Cost"]) =
    Ok ["cost"; "scalability"; "complexity"; "ecosystem"; "performance"; "Cost"] /\
  (exists cr,
     generate_comparison [REST_profile; GraphQL_profile] sample_criteria
       (Some ["Cost"]) = Ok cr /\
     tm_dimensions (cr_tradeoff_matrix cr) =
       ["cost"; "scalability"; "complexity"; "ecosystem"; "performance"; "Cost"]) /\
  _validate_custom_dimensions ["Cost"] = Raise InputValidationError.
Proof.
  split; [reflexivity|]. split; [reflexivity|].
  split; [eexists; split; [vm_compute; reflexivity|reflexivity]|].
  vm_compute. reflexivity.
Qed.

(** ** Sufficient dimension data *)

Lemma valid_profile_size (t : TechnologyProfile) :
  valid_TechnologyProfile t -> (5 <= size (dimensions t))%nat.
Proof.
  intros (_ & _ & _ & Hstd).
  assert (Hsub : (list_to_set standard_dimensions : gset string)
                 ⊆ dom (dimensions t)).
  { intros d Hd. apply elem_of_list_to_set in Hd.
    rewrite Forall_forall in Hstd. apply elem_of_dom, Hstd, Hd. }
  apply subseteq_size in Hsub. rewrite size_dom in Hsub.
  assert (Hfive : size (list_to_set standard_dimensions : gset string) = 5%nat)
    by (vm_compute; reflexivity).
  lia.
Qed.

Lemma filter_none {A : Type} (f : A -> bool) (l : list A) :
  Forall (fun x => f x = false) l -> List.filter f l = [].
Proof.
  induction 1 as [|x l Hx _ IH]; [reflexivity|].
  cbn [List.filter]. rewrite Hx. exact IH.
Qed.

Lemma validate_comparison_inputs_ok (technologies : list TechnologyProfile)
    (wc : WeightedCriteria) :
  (2 <= length technologies <= 5)%nat ->
  Forall valid_TechnologyProfile technologies ->
  dimension_weights wc <> [] ->
  List.filter (fun tech => (size (dimensions tech) <? 3)%nat) technologies = [] /\
  _validate_comparison_inputs technologies wc = Ok tt.
Proof.
  intros [Hlo Hhi] Hvalid Hweights.
  assert (Hnone : List.filter (fun tech => (size (dimensions tech) <? 3)%nat)
                    technologies = []).
  { apply filter_none. eapply Forall_impl; [exact Hvalid|].
    intros t Ht. simpl. apply Nat.ltb_ge.
    pose proof (valid_profile_size t Ht). lia. }
  split; [exact Hnone|].
  unfold _validate_comparison_inputs. rewrite Hnone.
  assert (Ht : match technologies with [] => true | _ :: _ => false end = false)
    by (destruct technologies; [simpl in Hlo; lia|reflexivity]).
  assert (Hw : match dimension_weights wc with
               | [] => true | _ :: _ => false end = false)
    by (destruct (dimension_weights wc); [congruence|reflexivity]).
  assert (H2 : (length technologies <? 2)%nat = false)
    by (apply Nat.ltb_ge; lia).
  assert (H5 : (5 <? length technologies)%nat = false)
    by (apply Nat.ltb_ge; lia).
  rewrite Ht, Hw, H2, H5. cbn [raise_if mbind Result_bind length].
  assert (Hhalf : Qlt_bool (inject_Z (Z.of_nat (length technologies)) / 2)
                    (inject_Z (Z.of_nat 0)) = false).
  { apply Qlt_bool_false_iff. change (inject_Z (Z.of_nat 0)) with 0.
    assert (Hnn : 0 <= inject_Z (Z.of_nat (length technologies))).
    { change 0 with (inject_Z 0). rewrite <- Zle_Qle. lia. }
    generalize dependent (inject_Z (Z.of_nat (length technologies))).
    intros n Hn. apply Qle_shift_div_l; lra. }
  rewrite Hhalf. reflexivity.
Qed.

(** C9: for 2 to 5 profiles that satisfy the profile invariant and
    non-empty dimension weights, no technology counts as having fewer than
    3 known dimensions, input validation passes, and [generate_comparison]
    does not raise [InsufficientDataError]. *)
Theorem generate_comparison_never_insufficient
    (technologies : list TechnologyProfile) (wc : WeightedCriteria)
    (custom_dimensions : option (list string)) :
  (2 <= length technologies <= 5)%nat ->
  Forall valid_TechnologyProfile technologies ->
  dimension_weights wc <> [] ->
  List.filter (fun tech => (size (dimensions tech) <? 3)%nat) technologies = [] /\
  generate_comparison technologies wc custom_dimensions
    <> Raise InsufficientDataError.
Proof.
  intros Hlen Hvalid Hweights.
  destruct (validate_comparison_inputs_ok technologies wc Hlen Hvalid Hweights)
    as [Hnone Hok].
  split; [exact Hnone|].
  unfold generate_comparison. rewrite Hok. cbn [mbind Result_bind].
  match goal with
  | |- wrap_ComparisonError ?body <> _ => destruct body; discriminate
  end.
Qed.

Lemma generate_comparison_never_insufficient_witness :
  List.filter (fun tech => (size (dimensions tech) <? 3)%nat)
    [REST_profile; GraphQL_profile] = [] /\
  generate_comparison [REST_profile; GraphQL_profile] sample_criteria None
    <> Raise InsufficientDataError.
Proof.
  apply (generate_comparison_never_insufficient
           [REST_profile; GraphQL_profile] sample_criteria None).
  - simpl. lia.
  - valid_profiles.
  - discriminate.
Defined.

(** ** Knowledge-base lookup *)

Lemma find_exists {A : Type} (f : A -> bool) (l : list A) (x : A) :
  In x l -> f x = true -> exists y, List.find f l = Some y /\ In y l.
Proof.
  induction l as [|a l IH]; [intros []|].
  intros Hin Hfx. cbn [List.find].
  destruct (f a) eqn:Hfa.
  - exists a. split; [reflexivity|left; reflexivity].
  - destruct Hin as [->|Hin]; [congruence|].
    destruct (IH Hin Hfx) as [y [Hy Hin']].
    exists y. split; [exact Hy|right; exact Hin'].
Qed.

Lemma find_In {A : Type} (f : A -> bool) (l : list A) (y : A) :
  List.find f l = Some y -> In y l.
Proof. intros H. apply find_some in H as [H _]. exact H. Qed.

Lemma get_technology_profile_from_kb
    (kb : list (string * TechnologyProfile)) (q : string)
    (p : TechnologyProfile) :
  get_technology_profile kb q = Some p -> In p (map snd kb).
Proof.
  assert (Hfound : forall f k p',
             List.find f kb = Some (k, p') -> In p' (map snd kb)).
  { intros f k p' Hf. apply in_map_iff. exists (k, p').
    split; [reflexivity|apply (find_In _ _ _ Hf)]. }
  unfold get_technology_profile, kb_get.
  destruct (negb (nonempty q) || negb (nonempty (strip q))); [discriminate|].
  destruct (List.find (fun '(known, _) => String.eqb known q) kb)
    as [[k1 p1]|] eqn:H1; simpl.
  - intros Hp; simplify_eq. exact (Hfound _ _ _ H1).
  - clear H1.
    destruct (List.find (fun '(known_tech, _) =>
                           String.eqb (lower known_tech) (lower q)) kb)
      as [[k2 p2]|] eqn:H2.
    + intros Hp; simplify_eq. exact (Hfound _ _ _ H2).
    + clear H2.
      match goal with
      | |- context [List.find ?f kb] =>
          destruct (List.find f kb) as [[k3 p3]|] eqn:H3
      end; simpl; [|discriminate].
      intros Hp; simplify_eq. exact (Hfound _ _ _ H3).
Qed.

(** A partial match is enough for any knowledge base. *)
Lemma get_technology_profile_partial
    (kb : list (string * TechnologyProfile)) (q : string) :
  nonempty (strip q) = true ->
  (exists known profile,
     In (known, profile) kb /\
     (substring_of (lower known) (strip (lower q)) = true \/
      substring_of (strip (lower q)) (lower known) = true)) ->
  exists p, get_technology_profile kb q = Some p.
Proof.
  intros Hblank (known & profile & Hin & Hsub).
  unfold get_technology_profile. rewrite Hblank.
  assert (Hq : nonempty q = true).
  { destruct q; [discriminate Hblank|reflexivity]. }
  rewrite Hq. cbn [negb orb].
  destruct (kb_get kb q) as [p1|]; [eauto|].
  destruct (List.find (fun '(known_tech, _) =>
                         String.eqb (lower known_tech) (lower q)) kb)
    as [[k2 p2]|]; [eauto|].
  match goal with
  | |- context [List.find ?f kb] =>
      destruct (find_exists f kb (known, profile) Hin) as [[k3 p3] [-> _]]
  end.
  - cbv beta iota zeta.
    destruct Hsub as [Hsub|Hsub]; rewrite Hsub;
      rewrite ?orb_true_r; reflexivity.
  - eexists. reflexivity.
Qed.

(** No other known name, in any case, holds "rest". *)
Lemma rest_only_in_REST (q : string) (known : string) (p : TechnologyProfile) :
  In (known, p) knowledge_base ->
  lower known = lower q ->
  substring_of "rest" (strip (lower q)) = true ->
  p = REST_profile.
Proof.
  intros Hin Heq Hrest. rewrite <- Heq in Hrest.
  unfold knowledge_base in Hin. cbn [In] in Hin.
  repeat (destruct Hin as [Hin|Hin];
          [injection Hin as <- <-;
           first [reflexivity|vm_compute in Hrest; discriminate Hrest]|]).
  destruct Hin.
Qed.

(** C10: a non-blank query that, lowered and stripped, holds the lowered
    name of a known technology or is held by one, resolves to a profile of
    the knowledge base, so that no fallback profile is synthesized; and
    every query that holds "rest" resolves to the REST profile. *)
Theorem partial_match_resolves_to_known_profile (q : string) :
  nonempty (strip q) = true ->
  (exists known profile,
     In (known, profile) knowledge_base /\
     (substring_of (lower known) (strip (lower q)) = true \/
      substring_of (strip (lower q)) (lower known) = true)) ->
  (exists p,
     get_technology_profile knowledge_base q = Some p /\
     In p (map snd knowledge_base) /\
     get_technology_profile_with_fallback knowledge_base q = Ok (p, false)) /\
  (substring_of "rest" (strip (lower q)) = true ->
   get_technology_profile knowledge_base q = Some REST_profile).
Proof.
  intros Hblank Hmatch.
  destruct (get_technology_profile_partial knowledge_base q Hblank Hmatch)
    as [p Hp].
  split.
  - exists p. split; [exact Hp|].
    split; [apply (get_technology_profile_from_kb _ _ _ Hp)|].
    unfold get_technology_profile_with_fallback. rewrite Hp. reflexivity.
  - intros Hrest. clear p Hp Hmatch.
    unfold get_technology_profile. rewrite Hblank.
    assert (Hq : nonempty q = true).
    { destruct q; [discriminate Hblank|reflexivity]. }
    rewrite Hq. cbn [negb orb]. unfold kb_get.
    destruct (List.find (fun '(known, _) => String.eqb known q) knowledge_base)
      as [[k1 p1]|] eqn:H1.
    + apply find_some in H1 as [Hin Heq]. apply String.eqb_eq in Heq.
      change (Some p1 = Some REST_profile). f_equal. apply (rest_only_in_REST q k1 p1 Hin); [congruence|exact Hrest].
    + cbv beta iota.
      destruct (List.find (fun '(known_tech, _) =>
                             String.eqb (lower known_tech) (lower q))
                  knowledge_base) as [[k2 p2]|] eqn:H2.
      * apply find_some in H2 as [Hin Heq]. apply String.eqb_eq in Heq.
        cbv beta iota.
        f_equal. apply (rest_only_in_REST q k2 p2 Hin Heq Hrest).
      * unfold knowledge_base at 1. cbn [List.find].
        change (lower "REST") with "rest". rewrite Hrest, orb_true_r.
        cbn [orb]. reflexivity.
Qed.

Lemma partial_match_resolves_to_known_profile_witness :
  (exists p,
     get_technology_profile knowledge_base "unrest" = Some p /\
     In p (map snd knowledge_base) /\
     get_technology_profile_with_fallback knowledge_base "unrest" = Ok (p, false)) /\
  (substring_of "rest" (strip (lower "unrest")) = true ->
   get_technology_profile knowledge_base "unrest" = Some REST_profile).
Proof.
  apply (partial_match_resolves_to_known_profile "unrest").
  - reflexivity.
  - exists "REST", REST_profile. split; [left; reflexivity|].
    left. reflexivity.
Defined.

(** * Requirements processing: the weights are a distribution *)

Lemma values_normalize (d : Dict) :
  values (normalize d) =
    map (fun x => Qred (x / sum (values d))) (values d).
Proof.
  unfold normalize, values. rewrite !map_map. apply map_ext.
  intros [k v]. reflexivity.
Qed.

Lemma sum_map_div (l : list Q) (t : Q) :
  sum (map (fun x => Qred (x / t)) l) == sum l / t.
Proof.
  induction l as [|x l IH].
  - unfold sum; cbn. unfold Qdiv. ring.
  - cbn [map]. rewrite !sum_cons, IH, Qred_correct. unfold Qdiv. ring.
Qed.

Lemma sum_pos (l : list Q) :
  Forall (fun x => 0 < x) l -> l <> [] -> 0 < sum l.
Proof.
  intros Hl Hne. destruct Hl as [|x l Hx Hl]; [congruence|].
  rewrite sum_cons.
  assert (0 <= sum l).
  { apply sum_nonneg. eapply Forall_impl; [exact Hl|]. cbv beta. intros. lra. }
  lra.
Qed.

Lemma In_le_sum (l : list Q) (x : Q) :
  Forall (fun y => 0 < y) l -> In x l -> x <= sum l.
Proof.
  induction 1 as [|y l Hy Hl IH]; intros Hin; [destruct Hin|].
  rewrite sum_cons.
  assert (0 <= sum l).
  { apply sum_nonneg. eapply Forall_impl; [exact Hl|]. cbv beta. intros. lra. }
  destruct Hin as [->|Hin]; [lra|]. specialize (IH Hin). lra.
Qed.

Lemma positive_total (w : Dict) :
  positive_weights w -> w <> [] -> 0 < sum (values w).
Proof.
  intros Hp Hne. apply sum_pos; [exact Hp|].
  destruct w; [congruence|discriminate].
Qed.

Lemma normalize_distribution (w : Dict) :
  positive_weights w -> w <> [] ->
  positive_weights (normalize w) /\ sum (values (normalize w)) == 1.
Proof.
  intros Hp Hne. pose proof (positive_total w Hp Hne) as Ht.
  unfold positive_weights. rewrite values_normalize. split.
  - rewrite List.Forall_map. eapply Forall_impl; [exact Hp|].
    cbv beta. intros x Hx. rewrite Qred_correct.
    apply Qlt_shift_div_l; lra.
  - rewrite sum_map_div. field. lra.
Qed.

Lemma setitem_nonempty (d : Dict) (k : string) (v : Q) : setitem d k v <> [].
Proof.
  destruct d as [|[k' v'] d]; cbn [setitem]; [discriminate|].
  destruct (String.eqb k' k); discriminate.
Qed.

Lemma positive_setitem (d : Dict) (k : string) (v : Q) :
  positive_weights d -> 0 < v -> positive_weights (setitem d k v).
Proof.
  unfold positive_weights, values. intros Hd Hv.
  induction d as [|[k' v'] d IH]; cbn [setitem map snd].
  - repeat constructor. exact Hv.
  - apply Forall_cons in Hd as [Hv' Hd]. cbn [snd] in Hv'.
    destruct (String.eqb k' k); cbn [map snd]; constructor; auto.
Qed.

Lemma positive_fold_setitem {A : Type} (key_of : A -> string)
    (value_of : Dict -> A -> Q) (l : list A) (d : Dict) :
  (forall w a, 0 < value_of w a) ->
  positive_weights d ->
  positive_weights
    (fold_left (fun w a => setitem w (key_of a) (value_of w a)) l d).
Proof.
  intros Hv. revert d. induction l as [|a l IH]; intros d Hd; [exact Hd|].
  cbn [fold_left]. apply IH, positive_setitem; [exact Hd|apply Hv].
Qed.

Lemma dict_get_setitem_eq (d : Dict) (k : string) (v : Q) :
  dict_get (setitem d k v) k = Some v.
Proof.
  induction d as [|[k' v'] d IH]; cbn [setitem dict_get].
  - rewrite String.eqb_refl. reflexivity.
  - destruct (String.eqb k' k) eqn:E; cbn [dict_get]; rewrite E; auto.
Qed.

Lemma dict_get_setitem_ne (d : Dict) (k k0 : string) (v : Q) :
  k <> k0 -> dict_get (setitem d k v) k0 = dict_get d k0.
Proof.
  intros Hne. induction d as [|[k' v'] d IH]; cbn [setitem dict_get].
  - apply String.eqb_neq in Hne. rewrite Hne. reflexivity.
  - destruct (String.eqb k' k) eqn:E; cbn [dict_get].
    + apply String.eqb_eq in E. subst k'.
      apply String.eqb_neq in Hne. rewrite Hne. reflexivity.
    + destruct (String.eqb k' k0); auto.
Qed.

Lemma dict_get_In (d : Dict) (k : string) (v : Q) :
  List.NoDup (keys d) -> In (k, v) d -> dict_get d k = Some v.
Proof.
  induction d as [|[k' v'] d IH]; intros Hnd Hin; [destruct Hin|].
  cbn [keys map fst] in Hnd. apply List.NoDup_cons_iff in Hnd as [Hnotin Hnd].
  cbn [dict_get]. destruct Hin as [Heq|Hin].
  - injection Heq as -> ->. rewrite String.eqb_refl. reflexivity.
  - destruct (String.eqb k' k) eqn:E.
    + apply String.eqb_eq in E. subst k'. exfalso. apply Hnotin.
      change k with (fst (k, v)). apply in_map, Hin.
    + apply IH; assumption.
Qed.

(** The loop that takes weight from the lowest dimensions never takes a
    weight below 0.05, nor below what it was when it is lower than that. *)
Lemma positive_take_from_lowest (target_dim : string) (items : Dict)
    (remaining : Q) (w : Dict) :
  List.NoDup (keys items) ->
  (forall dim weight, In (dim, weight) items -> dict_get w dim = Some weight) ->
  positive_weights w ->
  positive_weights (take_from_lowest target_dim items remaining w).
Proof.
  revert remaining w. induction items as [|[dim weight] items IH];
    intros remaining w Hnd Hsnap Hp; [exact Hp|].
  cbn [keys map fst] in Hnd. apply List.NoDup_cons_iff in Hnd as [Hnotin Hnd].
  cbn [take_from_lowest].
  assert (Hrest : forall v dim' weight',
             In (dim', weight') items ->
             dict_get (setitem w dim v) dim' = Some weight').
  { intros v dim' weight' Hin. rewrite dict_get_setitem_ne.
    - apply Hsnap. right. exact Hin.
    - intros ->. apply Hnotin. change dim' with (fst (dim', weight')).
      apply in_map, Hin. }
  destruct (negb (String.eqb dim target_dim) && Qlt_bool 0 remaining) eqn:Hc.
  - assert (Hnew : 0 < getitem w dim
                       - Qmin remaining (Qmax 0 (weight - 0.05))).
    { unfold getitem. rewrite (Hsnap dim weight (or_introl eq_refl)).
      assert (Hw : 0 < weight).
      { unfold positive_weights in Hp. rewrite Forall_forall in Hp.
        apply Hp. apply list_elem_of_In.
        assert (Hin : In (dim, weight) w).
        { specialize (Hsnap dim weight (or_introl eq_refl)).
          clear -Hsnap. induction w as [|[k v] w IHw]; [discriminate|].
          cbn [dict_get] in Hsnap. destruct (String.eqb k dim) eqn:E.
          - apply String.eqb_eq in E. injection Hsnap as ->. subst k.
            left. reflexivity.
          - right. apply IHw, Hsnap. }
        change weight with (snd (dim, weight)). apply in_map, Hin. }
      pose proof (Q.le_min_r remaining (Qmax 0 (weight - 0.05))) as Hmin.
      destruct (Q.max_spec 0 (weight - 0.05)) as [[_ Hm]|[_ Hm]];
        revert Hmin Hm;
        generalize (Qmax 0 (weight - 0.05)) as available;
        intros available; generalize (Qmin remaining available);
        intros reduction Hmin Hm; lra. }
    destruct (Qle_bool _ 0).
    + apply positive_setitem; assumption.
    + apply IH; [exact Hnd|apply Hrest|apply positive_setitem; assumption].
  - apply IH; [exact Hnd| |exact Hp].
    intros dim' weight' Hin. apply Hsnap. right. exact Hin.
Qed.

Lemma NoDup_standard_dimensions : List.NoDup standard_dimensions.
Proof.
  unfold standard_dimensions.
  repeat (apply List.NoDup_cons; [cbn; intuition discriminate|]).
  apply List.NoDup_nil.
Qed.

Lemma positive_lookup (w : Dict) (i : nat) (k : string) (v : Q) :
  positive_weights w -> w !! i = Some (k, v) -> 0 < v.
Proof.
  unfold positive_weights. rewrite Forall_forall. intros Hp Hi.
  apply Hp. change v with (snd (k, v)). apply list_elem_of_fmap_2.
  eapply list_elem_of_lookup_2, Hi.
Qed.

Lemma scale_priority_override_distribution (r : ProjectRequirements) (w : Dict) :
  weight_distribution w -> weight_distribution (scale_priority_override r w).
Proof.
  intros (Hk & Hp & Hs).
  split; [apply keys_scale_priority_override, Hk|].
  unfold scale_priority_override.
  destruct (scalability_needs r); try (split; assumption).
  destruct (2 <=? _)%nat; [|split; assumption].
  destruct (2 <? _)%nat; [|split; assumption].
  apply normalize_distribution; [|apply setitem_nonempty].
  apply positive_setitem.
  - apply positive_take_from_lowest.
    + rewrite (Permutation_map fst (sorted_asc_perm snd w)).
      fold (keys w). rewrite Hk. apply NoDup_standard_dimensions.
    + intros dim weight Hin. apply dict_get_In.
      * rewrite Hk. apply NoDup_standard_dimensions.
      * eapply Permutation_in; [apply sorted_asc_perm|exact Hin].
    + exact Hp.
  - destruct (sorted_desc snd w !! 2%nat) as [[k v]|] eqn:Hthird; [|lra].
    assert (0 < v); [|lra].
    eapply (positive_lookup (sorted_desc snd w)); [|exact Hthird].
    unfold positive_weights, values.
    rewrite (Permutation_map snd (sorted_desc_perm snd w)). exact Hp.
Qed.

Lemma guarantee_step_distribution (top : Dict) (w : Dict) (item : string * Q) :
  In (fst item) standard_dimensions ->
  weight_distribution w -> weight_distribution (guarantee_step top w item).
Proof.
  intros Hitem (Hk & Hp & Hs).
  split; [apply keys_guarantee_step; assumption|].
  unfold guarantee_step.
  destruct (Qle_bool _ baseline_threshold); [|split; assumption].
  destruct (List.filter _ (keys w)) as [|d0 ds]; [split; assumption|].
  destruct (Qlt_bool _ _); [|split; assumption].
  apply normalize_distribution; [|apply setitem_nonempty].
  apply positive_setitem; [|unfold baseline_threshold; lra].
  apply (positive_fold_setitem (fun d => d)
           (fun w0 other_dim =>
              Qmax 0.05
                (getitem w0 other_dim
                 - (baseline_threshold + 0.01 - getitem w (fst item))
                   * (getitem w0 other_dim
                      / sum (map (getitem w) (d0 :: ds)))))); [|exact Hp].
  intros w0 a. apply Q.max_lt_iff. left. lra.
Qed.

Lemma fold_guarantee_distribution (top items : Dict) (w : Dict) :
  Forall (fun item => In (fst item) standard_dimensions) items ->
  weight_distribution w ->
  weight_distribution (fold_left (guarantee_step top) items w).
Proof.
  revert w. induction items as [|item items IH]; intros w Hitems Hw;
    [exact Hw|].
  apply Forall_cons in Hitems as [Hitem Hitems]. cbn [fold_left].
  apply IH; [exact Hitems|]. apply guarantee_step_distribution; assumption.
Qed.

Lemma keys_shape (w : Dict) :
  keys w = standard_dimensions ->
  exists a b c d e,
    w = [("cost", a); ("scalability", b); ("complexity", c);
         ("ecosystem", d); ("performance", e)].
Proof.
  unfold keys, standard_dimensions. intros H.
  destruct w as [|[k1 a] [|[k2 b] [|[k3 c] [|[k4 d] [|[k5 e] [|? ?]]]]]];
    try discriminate H.
  cbn in H. injection H as -> -> -> -> ->. exists a, b, c, d, e. reflexivity.
Qed.

Lemma keys_boosted (r : ProjectRequirements) (w : Dict) :
  keys w = standard_dimensions ->
  keys (fold_left (fun w '(dimension, boost) =>
                     setitem w dimension (getitem w dimension + boost))
          (dimension_boosts_of r) w) = standard_dimensions.
Proof.
  intros Hw.
  rewrite (keys_fold _ (fun item => In (fst item) standard_dimensions)).
  - exact Hw.
  - intros w0 [dimension boost] Hin Hw0. apply keys_setitem.
    rewrite Hw0, Hw. exact Hin.
  - apply boosts_in_standard.
Qed.

Lemma calculate_dimension_weights_distribution (r : ProjectRequirements) :
  weight_distribution (_calculate_dimension_weights r).
Proof.
  unfold _calculate_dimension_weights. cbv zeta.
  apply fold_guarantee_distribution.
  { apply Forall_take.
    eapply Permutation_Forall; [symmetry; apply sorted_desc_perm|].
    apply Forall_forall. intros item Hin.
    apply list_elem_of_In, filter_In in Hin as [Hin _].
    pose proof (boosts_in_standard r) as Hall.
    rewrite Forall_forall in Hall. apply Hall, list_elem_of_In, Hin. }
  apply scale_priority_override_distribution.
  match goal with
  | |- weight_distribution (normalize (fold_left _ (keys ?w1) ?w1)) =>
      destruct (keys_shape w1) as (a & b & c & d & e & ->);
        [apply keys_boosted; reflexivity|]
  end.
  cbv [fold_left keys map fst setitem getitem dict_get String.eqb Ascii.eqb
       Bool.eqb andb].
  split; [rewrite keys_normalize; reflexivity|].
  apply normalize_distribution; [|discriminate].
  unfold positive_weights. cbn [values map snd].
  repeat constructor; apply Q.max_lt_iff; left; lra.
Qed.

(** ** The outcome of [process_requirements] *)

Lemma fold_min_In (l : list Q) (a : Q) :
  let m := fold_left (fun m y => if Qlt_bool y m then y else m) l a in
  m = a \/ In m l.
Proof.
  revert a. induction l as [|x l IH]; intros a; cbn [fold_left]; cbv zeta.
  - left. reflexivity.
  - destruct (Qlt_bool x a).
    + destruct (IH x) as [->|Hin]; [right; left; reflexivity|right; right; exact Hin].
    + destruct (IH a) as [->|Hin]; [left; reflexivity|right; right; exact Hin].
Qed.

Lemma list_min_In (l : list Q) (mn : Q) : list_min l = Some mn -> In mn l.
Proof.
  destruct l as [|x l]; [discriminate|]. cbn [list_min]. intros [= <-].
  destruct (fold_min_In l x) as [->|Hin]; [left; reflexivity|right; exact Hin].
Qed.

Lemma distribution_in_unit_interval (w : Dict) :
  weight_distribution w ->
  forallb (fun x => Qle_bool 0 x && Qle_bool x 1) (values w) = true.
Proof.
  intros (_ & Hp & Hs). apply List.forallb_forall. intros x Hin.
  pose proof (In_le_sum _ _ Hp Hin) as Hle.
  unfold positive_weights in Hp. rewrite Forall_forall in Hp.
  pose proof (Hp x (proj2 (list_elem_of_In _ _) Hin)) as Hpos. cbv beta in Hpos.
  apply andb_true_iff. split; apply Qle_bool_iff; lra.
Qed.

(** On a distribution the validation comes down to its last two checks:
    no weight above 0.6 and none below 0.05. *)
Lemma validate_weights_distribution (w : Dict) :
  weight_distribution w ->
  _validate_weights w =
    if within_limits w then Ok tt else Raise ValueError.
Proof.
  intros Hw. pose proof (distribution_in_unit_interval w Hw) as Hunit.
  destruct Hw as (Hk & Hp & Hs). unfold _validate_weights.
  destruct w as [|item w']; [discriminate Hk|].
  set (d := item :: w') in *.
  cbn [raise_if mbind Result_bind]. rewrite Hk.
  replace (forallb (contains standard_dimensions) standard_dimensions)
    with true by (vm_compute; reflexivity).
  rewrite Hunit. cbn [negb raise_if mbind Result_bind].
  assert (Hlo : Qle_bool 0.95 (sum (values d)) = true)
    by (apply Qle_bool_iff; lra).
  assert (Hhi : Qle_bool (sum (values d)) 1.05 = true)
    by (apply Qle_bool_iff; lra).
  rewrite Hlo, Hhi. cbn [andb negb raise_if mbind Result_bind].
  destruct (list_max (values d)) as [mx|] eqn:Hmax; [|discriminate Hmax].
  destruct (list_min (values d)) as [mn|] eqn:Hmin; [|discriminate Hmin].
  cbn [mbind Result_bind].
  destruct (list_max_spec _ _ Hmax) as (Hmx_in & Hmx_all).
  pose proof (list_min_spec _ _ Hmin) as Hmn_all.
  pose proof (list_min_In _ _ Hmin) as Hmn_in.
  rewrite Forall_forall in Hmx_all, Hmn_all.
  unfold within_limits. clear Hunit.
  destruct (forallb (fun x => Qle_bool 0.05 x && Qle_bool x 0.6) (values d))
    eqn:Hall.
  - rewrite List.forallb_forall in Hall.
    apply Hall, andb_true_iff in Hmx_in as [_ Hmx].
    apply Hall, andb_true_iff in Hmn_in as [Hmn _].
    apply Qle_bool_iff in Hmx, Hmn.
    replace (Qlt_bool 0.6 mx) with false
      by (symmetry; apply Qlt_bool_false_iff; exact Hmx).
    replace (Qlt_bool mn 0.05) with false
      by (symmetry; apply Qlt_bool_false_iff; exact Hmn).
    reflexivity.
  - destruct (Qlt_bool 0.6 mx) eqn:Hmx; [reflexivity|].
    cbn [raise_if mbind Result_bind].
    destruct (Qlt_bool mn 0.05) eqn:Hmn; [reflexivity|].
    apply Qlt_bool_false_iff in Hmx, Hmn. exfalso.
    assert (Hcontra : forallb (fun x => Qle_bool 0.05 x && Qle_bool x 0.6)
                        (values d) = true); [|congruence].
    apply List.forallb_forall. intros x Hin. apply list_elem_of_In in Hin.
    specialize (Hmx_all x Hin). specialize (Hmn_all x Hin). cbv beta in *.
    apply andb_true_iff. split; apply Qle_bool_iff; lra.
Qed.

(** X1. For a team of 1 to 1000 members the calculated weights always pass
    the structural checks of the validation: they cover exactly the five
    standard dimensions, every weight is positive and at most 1, and their
    sum lies within the accepted 0.95 to 1.05.  The validation of
    calculated weights therefore comes down to its last two checks: it
    fails exactly when a weight is above 0.6 or below 0.05. *)
Theorem calculated_weights_fail_only_the_limits (r : ProjectRequirements) :
  (1 <= team_size r <= 1000)%Z ->
  keys (_calculate_dimension_weights r) = standard_dimensions /\
  Forall (fun x => 0 < x /\ x <= 1) (values (_calculate_dimension_weights r)) /\
  0.95 <= sum (values (_calculate_dimension_weights r)) /\
  sum (values (_calculate_dimension_weights r)) <= 1.05 /\
  _validate_weights (_calculate_dimension_weights r) =
    if within_limits (_calculate_dimension_weights r)
    then Ok tt else Raise ValueError.
Proof.
  intros _.
  pose proof (calculate_dimension_weights_distribution r) as Hw.
  pose proof (validate_weights_distribution _ Hw) as Hvalidate.
  pose proof (distribution_in_unit_interval _ Hw) as Hunit.
  destruct Hw as (Hk & Hp & Hs).
  split; [exact Hk|]. split.
  - rewrite List.forallb_forall in Hunit. apply Forall_forall. intros x Hx.
    unfold positive_weights in Hp. rewrite Forall_forall in Hp.
    split; [apply Hp, Hx|].
    apply list_elem_of_In, Hunit, andb_true_iff in Hx as [_ Hle].
    apply Qle_bool_iff, Hle.
  - split; [lra|]. split; [lra|exact Hvalidate].
Qed.

Lemma calculated_weights_fail_only_the_limits_witness :
  keys (_calculate_dimension_weights team_of_26) = standard_dimensions /\
  Forall (fun x => 0 < x /\ x <= 1)
    (values (_calculate_dimension_weights team_of_26)) /\
  0.95 <= sum (values (_calculate_dimension_weights team_of_26)) /\
  sum (values (_calculate_dimension_weights team_of_26)) <= 1.05 /\
  _validate_weights (_calculate_dimension_weights team_of_26) =
    if within_limits (_calculate_dimension_weights team_of_26)
    then Ok tt else Raise ValueError.
Proof.
  apply (calculated_weights_fail_only_the_limits team_of_26).
  vm_compute. split; discriminate.
Defined.

Lemma mk_WeightedCriteria_distribution (w : Dict) (p : list string) :
  weight_distribution w ->
  mk_WeightedCriteria w p =
    Ok {| dimension_weights := w; priority_factors := p |}.
Proof.
  intros Hw. unfold mk_WeightedCriteria, WeightedCriteria_validate_weights.
  rewrite (distribution_in_unit_interval w Hw). reflexivity.
Qed.

Lemma validate_requirements_in_range (r : ProjectRequirements) :
  _validate_requirements r =
    if team_size_in_range r then Ok tt else Raise ValueError.
Proof.
  unfold _validate_requirements, team_size_in_range.
  rewrite !Z.ltb_antisym.
  destruct (1 <=? team_size r)%Z, (team_size r <=? 1000)%Z; reflexivity.
Qed.

(** What [process_requirements] does, stage by stage. *)
Lemma process_requirements_with_outcome
    (detect : ProjectRequirements -> list string) (r : ProjectRequirements) :
  process_requirements_with detect r =
    if team_size_in_range r then
      match detect r with
      | [] =>
          if within_limits (_calculate_dimension_weights r)
          then Ok {| dimension_weights := _calculate_dimension_weights r;
                     priority_factors := _identify_priority_factors r |}
          else Raise RequirementsProcessingError
      | c :: cs => Raise (ConflictingRequirementsError (c :: cs))
      end
    else Raise RequirementsProcessingError.
Proof.
  unfold process_requirements_with. rewrite validate_requirements_in_range.
  destruct (team_size_in_range r); [|reflexivity].
  cbn [mbind Result_bind].
  destruct (detect r) as [|c cs]; [|reflexivity].
  cbn [raise_if mbind Result_bind].
  pose proof (calculate_dimension_weights_distribution r) as Hw.
  rewrite (validate_weights_distribution _ Hw).
  destruct (within_limits _); [|reflexivity].
  cbn [mbind Result_bind].
  rewrite (mk_WeightedCriteria_distribution _ _ Hw). reflexivity.
Qed.

Lemma within_limits_iff (w : Dict) :
  within_limits w = true <->
  Forall (fun x => 0.05 <= x /\ x <= 0.6) (values w).
Proof.
  unfold within_limits. rewrite List.forallb_forall, Forall_forall.
  split; intros H x Hx.
  - apply list_elem_of_In, H, andb_true_iff in Hx as [H1 H2].
    split; apply Qle_bool_iff; assumption.
  - apply list_elem_of_In, H in Hx as [H1 H2].
    apply andb_true_iff. split; apply Qle_bool_iff; assumption.
Qed.

Lemma team_size_in_range_iff (r : ProjectRequirements) :
  team_size_in_range r = true <-> (1 <= team_size r <= 1000)%Z.
Proof. unfold team_size_in_range. lia. Qed.

(** X2. [process_requirements] returns weighted criteria exactly when the
    team size is between 1 and 1000, no conflict is detected and every
    calculated weight lies between 0.05 and 0.6; the criteria returned are
    then the calculated weights with the identified priority factors. *)
Theorem process_requirements_succeeds_iff (r : ProjectRequirements)
    (wc : WeightedCriteria) :
  process_requirements r = Ok wc <->
  (1 <= team_size r <= 1000)%Z /\
  _detect_requirement_conflicts r = [] /\
  Forall (fun x => 0.05 <= x /\ x <= 0.6)
    (values (_calculate_dimension_weights r)) /\
  wc = {| dimension_weights := _calculate_dimension_weights r;
          priority_factors := _identify_priority_factors r |}.
Proof.
  unfold process_requirements. rewrite process_requirements_with_outcome.
  rewrite <- team_size_in_range_iff, <- within_limits_iff.
  destruct (team_size_in_range r).
  - destruct (_detect_requirement_conflicts r) as [|c cs].
    + destruct (within_limits _).
      * split; [intros [= <-]; auto|intros (_ & _ & _ & ->); reflexivity].
      * split; [discriminate|intros (_ & _ & H & _); discriminate H].
    + split; [discriminate|intros (_ & H & _); discriminate H].
  - split; [discriminate|intros (H & _); discriminate H].
Qed.

(** X3. The failures of [process_requirements], in the order of its checks:
    a team size outside 1..1000 gives [RequirementsProcessingError] whether
    or not the requirements conflict; otherwise detected conflicts give
    [ConflictingRequirementsError] carrying exactly the detected list;
    otherwise a calculated weight below 0.05 or above 0.6 gives
    [RequirementsProcessingError].  There is no other failure. *)
Theorem process_requirements_fails_iff (r : ProjectRequirements)
    (e : Exception) :
  process_requirements r = Raise e <->
  (e = RequirementsProcessingError /\
   ((team_size r < 1)%Z \/ (1000 < team_size r)%Z)) \/
  (e = ConflictingRequirementsError (_detect_requirement_conflicts r) /\
   (1 <= team_size r <= 1000)%Z /\ _detect_requirement_conflicts r <> []) \/
  (e = RequirementsProcessingError /\
   (1 <= team_size r <= 1000)%Z /\ _detect_requirement_conflicts r = [] /\
   ~ Forall (fun x => 0.05 <= x /\ x <= 0.6)
       (values (_calculate_dimension_weights r))).
Proof.
  unfold process_requirements. rewrite process_requirements_with_outcome.
  rewrite <- within_limits_iff.
  pose proof (team_size_in_range_iff r) as Hrange.
  destruct (team_size_in_range r).
  - assert (Hin : (1 <= team_size r <= 1000)%Z) by (apply Hrange; reflexivity).
    destruct (_detect_requirement_conflicts r) as [|c cs].
    + destruct (within_limits _).
      * split; [discriminate|].
        intros [(_ & H)|[(_ & _ & H)|(_ & _ & _ & H)]];
          [lia|congruence|exfalso; apply H; reflexivity].
      * split.
        -- intros [= <-]. right. right.
           repeat split; try lia; try discriminate.
        -- intros [(_ & H)|[(_ & _ & H)|(-> & _)]];
             [lia|congruence|reflexivity].
    + split.
      * intros [= <-]. right. left.
        repeat split; try lia; try discriminate.
      * intros [(_ & H)|[(-> & _)|(_ & _ & H & _)]];
          [lia|reflexivity|discriminate H].
  - assert (Hout : (team_size r < 1)%Z \/ (1000 < team_size r)%Z).
    { destruct (Z_lt_le_dec (team_size r) 1) as [?|H1]; [left; assumption|].
      destruct (Z_lt_le_dec 1000 (team_size r)) as [?|H2];
        [right; assumption|].
      assert (true = false); [|discriminate].
      symmetry. apply Hrange. lia. }
    split.
    + intros [= <-]. left. split; [reflexivity|exact Hout].
    + intros [(-> & _)|[(_ & H & _)|(_ & H & _)]]; [reflexivity|lia|lia].
Qed.

Lemma run_process_requirements_snd (r : ProjectRequirements) :
  snd (run_process_requirements r) =
    process_requirements_with (fun _ => []) r /\
  forall conflicts,
    process_requirements_with (fun _ => []) r <>
      Raise (ConflictingRequirementsError conflicts).
Proof.
  unfold run_process_requirements, process_requirements.
  rewrite !process_requirements_with_outcome.
  destruct (team_size_in_range r);
    [destruct (_detect_requirement_conflicts r) as [|c cs]|];
    try destruct (within_limits _); cbn [fst snd];
    repeat split; try reflexivity; discriminate.
Qed.

(** X4. The command-line step never stops at conflicting requirements: its
    outcome is that of processing with the conflict detection switched off,
    it is never a [ConflictingRequirementsError], and the warnings are the
    detected conflicts (none when the team size is out of range, since the
    range check comes first). *)
Theorem run_process_requirements_ignores_conflicts (r : ProjectRequirements) :
  fst (run_process_requirements r) =
    (if team_size_in_range r then _detect_requirement_conflicts r else []) /\
  snd (run_process_requirements r) =
    process_requirements_with (fun _ => []) r /\
  forall conflicts,
    snd (run_process_requirements r) <>
      Raise (ConflictingRequirementsError conflicts).
Proof.
  unfold run_process_requirements, process_requirements.
  rewrite !process_requirements_with_outcome.
  destruct (team_size_in_range r);
    [destruct (_detect_requirement_conflicts r) as [|c cs]|];
    try destruct (within_limits _); cbn [fst snd];
    repeat split; try reflexivity; discriminate.
Qed.

(** ** Conflicts and their suggestions *)

Lemma detected_conflicts_possible (r : ProjectRequirements) :
  In (_detect_requirement_conflicts r) possible_conflict_lists.
Proof.
  destruct r as [n b t s e]. unfold _detect_requirement_conflicts.
  cbn [team_size budget timeline scalability_needs expertise_level].
  unfold possible_conflict_lists.
  destruct (5 <=? n)%Z, (8 <=? n)%Z, b, t, s, e; cbn [app In];
    repeat first [left; reflexivity | right].
Qed.

Lemma possible_conflict_lists_ok :
  forallb conflict_analysis_ok possible_conflict_lists = true.
Proof. vm_compute. reflexivity. Qed.

(** X5. The conflict analysis reports exactly the detected conflicts, flags
    them exactly when there is one, offers one suggestion per conflict in
    the same order, and never reports more than two conflicts. *)
Theorem conflict_analysis_pairs_suggestions (r : ProjectRequirements) :
  let analysis := get_requirement_conflicts_with_suggestions r in
  ca_conflicts analysis = _detect_requirement_conflicts r /\
  (has_conflicts analysis = true <-> _detect_requirement_conflicts r <> []) /\
  ca_suggestions analysis = map suggestion_of (ca_conflicts analysis) /\
  (length (ca_conflicts analysis) <= 2)%nat.
Proof.
  cbv zeta. unfold get_requirement_conflicts_with_suggestions.
  pose proof possible_conflict_lists_ok as Hok.
  rewrite List.forallb_forall in Hok.
  specialize (Hok _ (detected_conflicts_possible r)).
  unfold conflict_analysis_ok in Hok. cbv zeta in Hok.
  repeat match goal with
         | Hc : (_ && _)%bool = true |- _ =>
             apply andb_true_iff in Hc as [? ?]
         end.
  repeat match goal with
         | Hc : bool_decide _ = true |- _ => apply bool_decide_eq_true in Hc
         end.
  match goal with Hc : (_ <=? _)%nat = true |- _ => apply Nat.leb_le in Hc end.
  match goal with Hc : ca_conflicts _ = _ |- _ => rewrite !Hc end.
  repeat split; try assumption.
  - match goal with Hc : has_conflicts _ = _ |- _ => rewrite Hc end.
    intros Hn Hnil. rewrite bool_decide_eq_true_2 in Hn by exact Hnil.
    discriminate Hn.
  - match goal with Hc : has_conflicts _ = _ |- _ => rewrite Hc end.
    intros Hne. rewrite bool_decide_eq_false_2 by exact Hne. reflexivity.
Qed.

(** ** Priority factors *)

Lemma unique_in_order_spec (seen factors : list string) :
  List.NoDup (unique_in_order seen factors) /\
  forall f, In f (unique_in_order seen factors) <->
            In f factors /\ ~ In f seen.
Proof.
  revert seen. induction factors as [|f0 factors IH]; intros seen.
  - cbn. split; [constructor|]. intros f. tauto.
  - cbn [unique_in_order]. destruct (contains seen f0) eqn:Hc.
    + apply contains_In in Hc. destruct (IH seen) as [Hnd Hin].
      split; [exact Hnd|]. intros f. rewrite Hin. cbn [In].
      split; [tauto|]. intros [[->|H] Hs]; tauto.
    + assert (Hnot : ~ In f0 seen).
      { intros H. apply contains_In in H. congruence. }
      destruct (IH (f0 :: seen)) as [Hnd Hin]. split.
      * constructor; [|exact Hnd]. rewrite Hin. cbn [In]. tauto.
      * intros f. cbn [In]. rewrite Hin. cbn [In].
        destruct (String.eqb_spec f0 f) as [->|Hne]; tauto.
Qed.

(** X6. The priority factors are never empty and hold no factor twice. *)
Theorem priority_factors_nonempty_and_distinct (r : ProjectRequirements) :
  _identify_priority_factors r <> [] /\
  List.NoDup (_identify_priority_factors r).
Proof.
  split.
  - destruct r as [n b t s e]. unfold _identify_priority_factors.
    cbn [team_size budget timeline scalability_needs expertise_level].
    destruct (5 <=? n)%Z, b, t, s, e; vm_compute; discriminate.
  - apply unique_in_order_spec.
Qed.

(** ** The weight adjustments *)

(** X7. For a team of at least one member the four weight adjustments stay
    within the ranges that their documentation gives. *)
Theorem weight_adjustments_in_documented_ranges (r : ProjectRequirements) :
  (1 <= team_size r)%Z ->
  (-0.1 <= _calculate_cost_weight_adjustment (budget r) <= 0.3) /\
  (-0.2 <= _calculate_complexity_weight_adjustment (timeline r)
             (expertise_level r) <= 0.4) /\
  (-0.1 <= _calculate_scalability_weight_adjustment (scalability_needs r)
     <= 0.3) /\
  (-0.1 <= _calculate_ecosystem_weight_adjustment (team_size r)
             (expertise_level r) <= 0.2).
Proof.
  intros Hsize.
  assert (Hq : 1 <= inject_Z (team_size r)).
  { change 1 with (inject_Z 1). rewrite <- Zle_Qle. exact Hsize. }
  unfold _calculate_cost_weight_adjustment,
    _calculate_complexity_weight_adjustment,
    _calculate_scalability_weight_adjustment,
    _calculate_ecosystem_weight_adjustment.
  split; [destruct (budget r); split; lra|].
  split; [destruct (timeline r), (expertise_level r); split; lra|].
  split; [destruct (scalability_needs r); split; lra|].
  pose proof (Q.le_min_l 0.1 (inject_Z (team_size r) * 0.02)) as Hl.
  destruct (Q.min_spec 0.1 (inject_Z (team_size r) * 0.02)) as [[_ Hm]|[_ Hm]];
    revert Hl Hm;
    generalize (Qmin 0.1 (inject_Z (team_size r) * 0.02));
    intros size_adjustment Hl Hm;
    destruct (expertise_level r); split; lra.
Qed.

Lemma weight_adjustments_in_documented_ranges_witness :
  (-0.1 <= _calculate_cost_weight_adjustment (budget default_requirements)
     <= 0.3) /\
  (-0.2 <= _calculate_complexity_weight_adjustment
             (timeline default_requirements)
             (expertise_level default_requirements) <= 0.4) /\
  (-0.1 <= _calculate_scalability_weight_adjustment
             (scalability_needs default_requirements) <= 0.3) /\
  (-0.1 <= _calculate_ecosystem_weight_adjustment
             (team_size default_requirements)
             (expertise_level default_requirements) <= 0.2).
Proof.
  apply (weight_adjustments_in_documented_ranges default_requirements).
  vm_compute. discriminate.
Defined.

(** * The comparison engine: further properties *)

(** ** The trade-off matrix *)

Lemma valid_cell_score (t : TechnologyProfile) (d : string) :
  valid_TechnologyProfile t -> 0 <= cell_score t d /\ cell_score t d <= 5.
Proof.
  intros (_ & _ & Hdims & _). unfold cell_score, matrix_cell.
  destruct (dimensions t !! d) as [ds|] eqn:Hd; cbn [fst].
  - destruct (Hdims d ds Hd) as (Hlo & Hhi & _). split; assumption.
  - split; lra.
Qed.

Lemma create_tradeoff_matrix_cases (technologies : list TechnologyProfile)
    (dims : list string) :
  match create_tradeoff_matrix technologies dims with
  | Ok m =>
      (2 <= length technologies)%nat /\ (1 <= length dims <= 10)%nat /\
      tm_technologies m = map name technologies /\
      tm_dimensions m = dims /\
      tm_scores m = map (fun t => map (cell_score t) dims) technologies /\
      (Forall valid_TechnologyProfile technologies ->
       Forall (Forall (fun s => 0 <= s /\ s <= 5)) (tm_scores m))
  | Raise e =>
      e = ComparisonError /\
      ((length technologies < 2)%nat \/ dims = [] \/ (10 < length dims)%nat)
  end.
Proof.
  unfold create_tradeoff_matrix, _validate_matrix_inputs.
  destruct technologies as [|t0 ts] eqn:Htechs.
  { cbn. split; [reflexivity|left; lia]. }
  rewrite <- Htechs.
  destruct dims as [|d0 ds] eqn:Hdims.
  { cbn. split; [reflexivity|right; left; reflexivity]. }
  rewrite <- Hdims. cbn [raise_if mbind Result_bind].
  assert (Hlen1 : (1 <= length dims)%nat) by (rewrite Hdims; cbn; lia).
  destruct (10 <? length dims)%nat eqn:Hten.
  { cbn. split; [reflexivity|right; right; apply Nat.ltb_lt, Hten]. }
  apply Nat.ltb_ge in Hten. cbn [raise_if mbind Result_bind].
  generalize (match _identify_highlights technologies dims
                      (map (fun tech =>
                              map (fun d => fst (matrix_cell tech d)) dims)
                         technologies) with
              | Ok hs => hs
              | Raise _ => []
              end).
  intros highlights. unfold mk_TradeoffMatrix. rewrite !length_map.
  destruct (length technologies <? 2)%nat eqn:Hrows.
  { cbn. split; [reflexivity|left; apply Nat.ltb_lt, Hrows]. }
  apply Nat.ltb_ge in Hrows.
  assert (Hcols : (length dims <? 1)%nat = false) by (apply Nat.ltb_ge; lia).
  rewrite Hcols, Nat.eqb_refl.
  rewrite !forallb_rows by (intros; apply length_map).
  cbn [andb negb raise_if mbind Result_bind wrap_ComparisonError
       tm_technologies tm_dimensions tm_scores].
  repeat split; try lia.
  intros Hvalid. rewrite List.Forall_map.
  eapply Forall_impl; [exact Hvalid|]. intros t Ht. cbv beta.
  rewrite List.Forall_map. apply Forall_forall. intros d _.
  apply (valid_cell_score t d Ht).
Qed.

(** X8. [create_tradeoff_matrix] returns a matrix exactly for at least two
    technologies and one to ten dimensions, and its only failure is
    [ComparisonError].  The matrix names the technologies and the dimensions
    in the order given and holds, for each technology and dimension, the
    profile's own score or the neutral 3.0 when the profile lacks the
    dimension; for profiles that satisfy the profile invariant every score
    lies between 0 and 5. *)
Theorem create_tradeoff_matrix_outcome (technologies : list TechnologyProfile)
    (dims : list string) :
  ((exists m, create_tradeoff_matrix technologies dims = Ok m) <->
   (2 <= length technologies)%nat /\ (1 <= length dims <= 10)%nat) /\
  (forall m, create_tradeoff_matrix technologies dims = Ok m ->
     tm_technologies m = map name technologies /\
     tm_dimensions m = dims /\
     tm_scores m = map (fun t => map (cell_score t) dims) technologies /\
     (Forall valid_TechnologyProfile technologies ->
      Forall (Forall (fun s => 0 <= s /\ s <= 5)) (tm_scores m))) /\
  (forall e, create_tradeoff_matrix technologies dims = Raise e ->
     e = ComparisonError).
Proof.
  pose proof (create_tradeoff_matrix_cases technologies dims) as H.
  destruct (create_tradeoff_matrix technologies dims) as [m|e].
  - destruct H as (H2 & H10 & Hrest). split; [|split].
    + split; [auto|]. intros _. exists m. reflexivity.
    + intros m' [= <-]. exact Hrest.
    + discriminate.
  - destruct H as (-> & Hbad). split; [|split].
    + split; [intros [m Hm]; discriminate Hm|].
      intros (H2 & H1 & H10). exfalso.
      destruct Hbad as [Hb|[Hb|Hb]]; [lia|rewrite Hb in H1; cbn in H1; lia|lia].
    + discriminate.
    + intros e' [= <-]. reflexivity.
Qed.

(** ** Compatibility scores *)

(** The score of a named technology under non-empty weights is the
    weighted average over the dimensions of positive weight. *)
Lemma calculate_compatibility_ok (technology : TechnologyProfile)
    (wc : WeightedCriteria) :
  name technology <> "" ->
  dimension_weights wc <> [] ->
  exists cs,
    calculate_compatibility technology wc = Ok cs /\
    cs_technology cs = name technology /\
    cs_score cs == compatibility_spec technology wc.
Proof.
  intros Hname Hweights.
  unfold calculate_compatibility.
  destruct (dimension_weights wc) as [|item items] eqn:Hdw; [congruence|].
  cbn [raise_if mbind Result_bind].
  pose proof (compatibility_fold technology (item :: items) 0 0) as Hfold.
  cbv zeta in Hfold.
  destruct (fold_left (compatibility_step technology) (item :: items) (0, 0))
    as [tws tw] eqn:Hloop.
  cbn [fst snd] in Hfold. destruct Hfold as [HT HW].
  set (final := if Qlt_bool 0 tw then tws / tw else 0.5).
  unfold mk_CompatibilityScore.
  rewrite (nonempty_true _ Hname).
  destruct (clamp01_range final) as [Hlo Hhi].
  assert (Hrange : Qle_bool 0 (clamp01 final) && Qle_bool (clamp01 final) 1 = true).
  { apply andb_true_iff. split; apply Qle_bool_iff; assumption. }
  cbn [negb raise_if mbind Result_bind wrap_ComparisonError].
  rewrite Hrange.
  cbn [negb raise_if mbind Result_bind wrap_ComparisonError].
  eexists. split; [reflexivity|]. cbn [cs_technology cs_score].
  split; [reflexivity|].
  unfold compatibility_spec, positive_items. rewrite Hdw.
  set (T := sum (map (contribution technology) _)) in *.
  set (W := sum (map (used_weight technology) _)) in *.
  assert (HWnonneg : 0 <= W).
  { apply sum_nonneg. apply Forall_forall. intros x Hx.
    apply list_elem_of_In, in_map_iff in Hx as [it [<- Hit]].
    apply filter_In in Hit as [_ Hpos]. apply Qlt_bool_iff in Hpos.
    apply Qlt_le_weak, used_weight_pos, Hpos. }
  apply clamp01_compat. subst final.
  destruct (Qlt_bool 0 tw) eqn:Htw.
  - apply Qlt_bool_iff in Htw.
    destruct (Qeq_bool W 0) eqn:HW0.
    + apply Qeq_bool_iff in HW0. lra.
    + rewrite HT, HW. field. intros HWz.
      apply Qeq_bool_neq in HW0. apply HW0. lra.
  - apply Qlt_bool_false_iff in Htw.
    destruct (Qeq_bool W 0) eqn:HW0; [reflexivity|].
    apply Qeq_bool_neq in HW0. exfalso. apply HW0. lra.
Qed.

Lemma calculate_compatibility_unnamed (technology : TechnologyProfile)
    (wc : WeightedCriteria) :
  name technology = "" ->
  calculate_compatibility technology wc = Raise ComparisonError /\
  _create_fallback_compatibility_score technology = Raise ValidationError.
Proof.
  intros Hname. split.
  - unfold calculate_compatibility.
    destruct (dimension_weights wc) as [|item items]; [reflexivity|].
    cbn [raise_if mbind Result_bind].
    destruct (fold_left _ _ _) as [tws tw].
    unfold mk_CompatibilityScore. rewrite Hname. reflexivity.
  - unfold _create_fallback_compatibility_score, mk_CompatibilityScore.
    rewrite Hname. reflexivity.
Qed.

Lemma compatibility_spec_range (technology : TechnologyProfile)
    (wc : WeightedCriteria) :
  0 <= compatibility_spec technology wc /\ compatibility_spec technology wc <= 1.
Proof. unfold compatibility_spec. cbv zeta. apply clamp01_range. Qed.

(** The scores of a comparison, as the loop of [generate_comparison]
    collects them. *)
Lemma collect_scores (technologies : list TechnologyProfile)
    (wc : WeightedCriteria) :
  dimension_weights wc <> [] ->
  match collect (fun tech =>
                   match calculate_compatibility tech wc with
                   | Ok score => Ok score
                   | Raise _ => _create_fallback_compatibility_score tech
                   end) technologies with
  | Ok scores =>
      Forall (fun t => name t <> "") technologies /\
      Forall2 (fun t cs => cs_technology cs = name t /\
                           cs_score cs == compatibility_spec t wc)
        technologies scores
  | Raise _ => Exists (fun t => name t = "") technologies
  end.
Proof.
  intros Hweights. induction technologies as [|t ts IH]; cbn [collect].
  - split; constructor.
  - destruct (decide (name t = "")) as [Hname|Hname].
    + destruct (calculate_compatibility_unnamed t wc Hname) as [-> ->].
      cbn [mbind Result_bind]. left. exact Hname.
    + destruct (calculate_compatibility_ok t wc Hname Hweights)
        as (cs & -> & Htech & Hscore).
      cbn [mbind Result_bind].
      destruct (collect _ ts) as [scores|e]; cbn [mbind Result_bind].
      * destruct IH as [Hnames Hall]. split; constructor; auto.
      * right. exact IH.
Qed.

Lemma half_lt (n c : nat) :
  Qlt_bool (inject_Z (Z.of_nat n) / 2) (inject_Z (Z.of_nat c))
  = (n <? 2 * c)%nat.
Proof.
  apply eq_true_iff_eq. rewrite Qlt_bool_iff, Nat.ltb_lt.
  assert (Hiff : (Z.of_nat n < 2 * Z.of_nat c)%Z <->
                 inject_Z (Z.of_nat n) < 2 * inject_Z (Z.of_nat c)).
  { change 2 with (inject_Z 2). rewrite <- inject_Z_mult, <- Zlt_Qlt.
    reflexivity. }
  rewrite Nat2Z.inj_lt, Nat2Z.inj_mul. change (Z.of_nat 2) with 2%Z.
  rewrite Hiff. clear Hiff.
  generalize (inject_Z (Z.of_nat n)), (inject_Z (Z.of_nat c)).
  intros x y. unfold Qdiv. change (/ 2) with (1 # 2).
  split; intros H; lra.
Qed.

Lemma validate_comparison_inputs_cases (technologies : list TechnologyProfile)
    (wc : WeightedCriteria) :
  _validate_comparison_inputs technologies wc =
    if ((length technologies <? 2) || (5 <? length technologies))%nat
    then Raise ValueError
    else if match dimension_weights wc with [] => true | _ => false end
            || (length technologies <? 2 * data_poor technologies)%nat
         then Raise InsufficientDataError
         else Ok tt.
Proof.
  unfold _validate_comparison_inputs, data_poor. rewrite half_lt.
  destruct technologies as [|t ts]; [reflexivity|].
  cbn [raise_if mbind Result_bind].
  destruct (length (t :: ts) <? 2)%nat; [reflexivity|].
  destruct (5 <? length (t :: ts))%nat; [reflexivity|].
  cbn [orb raise_if mbind Result_bind].
  destruct (dimension_weights wc); [reflexivity|].
  cbn [orb raise_if mbind Result_bind].
  destruct (_ <? _)%nat; reflexivity.
Qed.

Lemma get_comparison_dimensions_cases (custom : option (list string)) :
  match _get_comparison_dimensions custom with
  | Ok dims =>
      dims = comparison_dimensions custom /\
      match custom with
      | Some l => Forall (fun d => ~ In d standard_dimensions) l
      | None => True
      end
  | Raise _ =>
      exists l d, custom = Some l /\ In d l /\ In d standard_dimensions
  end.
Proof.
  unfold _get_comparison_dimensions, comparison_dimensions.
  destruct custom as [[|c cs]|].
  - split; [rewrite app_nil_r; reflexivity|constructor].
  - destruct (List.filter (contains standard_dimensions) (c :: cs))
      as [|d ds] eqn:Hf; cbn [raise_if mbind Result_bind].
    + split; [reflexivity|]. apply Forall_forall. intros d Hd Hstd.
      apply list_elem_of_In in Hd.
      assert (Hin : In d (List.filter (contains standard_dimensions) (c :: cs))).
      { apply filter_In. split; [exact Hd|apply contains_In, Hstd]. }
      rewrite Hf in Hin. destruct Hin.
    + exists (c :: cs), d.
      assert (Hin : In d (List.filter (contains standard_dimensions) (c :: cs)))
        by (rewrite Hf; left; reflexivity).
      apply filter_In in Hin as [Hin Hstd]. apply contains_In in Hstd. auto.
  - split; [rewrite app_nil_r; reflexivity|exact I].
Qed.

Lemma generate_comparison_cases (technologies : list TechnologyProfile)
    (wc : WeightedCriteria) (custom : option (list string)) :
  match generate_comparison technologies wc custom with
  | Ok result =>
      (2 <= length technologies <= 5)%nat /\
      dimension_weights wc <> [] /\
      (2 * data_poor technologies <= length technologies)%nat /\
      Forall (fun t => name t <> "") technologies /\
      custom_dimensions_accepted custom /\
      cr_technologies result = map name technologies /\
      tm_dimensions (cr_tradeoff_matrix result) = comparison_dimensions custom /\
      cr_weighted_criteria result = wc /\
      Forall2 (fun t cs => cs_technology cs = name t /\
                           cs_score cs == compatibility_spec t wc)
        technologies (cr_compatibility_scores result)
  | Raise e =>
      (e = ValueError /\
       ((length technologies < 2)%nat \/ (5 < length technologies)%nat)) \/
      (e = InsufficientDataError /\ (2 <= length technologies <= 5)%nat /\
       (dimension_weights wc = [] \/
        (length technologies < 2 * data_poor technologies)%nat)) \/
      (e = ComparisonError /\ (2 <= length technologies <= 5)%nat /\
       (Exists (fun t => name t = "") technologies \/
        ~ custom_dimensions_accepted custom))
  end.
Proof.
  unfold generate_comparison. rewrite validate_comparison_inputs_cases.
  destruct (length technologies <? 2)%nat eqn:H2.
  { cbn. left. split; [reflexivity|left; apply Nat.ltb_lt, H2]. }
  destruct (5 <? length technologies)%nat eqn:H5.
  { cbn. left. split; [reflexivity|right; apply Nat.ltb_lt, H5]. }
  apply Nat.ltb_ge in H2, H5. cbn [orb].
  destruct (dimension_weights wc) as [|w0 ws] eqn:Hdw.
  { cbn. right. left. repeat split; try lia. left. reflexivity. }
  rewrite <- Hdw.
  assert (Hweights : dimension_weights wc <> []) by (rewrite Hdw; discriminate).
  cbn [orb].
  destruct (length technologies <? 2 * data_poor technologies)%nat eqn:Hpoor.
  { cbn. right. left. repeat split; try lia. right. apply Nat.ltb_lt, Hpoor. }
  apply Nat.ltb_ge in Hpoor. cbn [mbind Result_bind].
  pose proof (get_comparison_dimensions_cases custom) as Hdims.
  destruct (_get_comparison_dimensions custom) as [dims|e];
    cbn [mbind Result_bind wrap_ComparisonError].
  2:{ right. right. repeat split; try lia. right.
      destruct Hdims as (l & d & -> & Hin & Hstd). intros [Hall _].
      rewrite Forall_forall in Hall.
      apply (Hall d); [apply list_elem_of_In, Hin|exact Hstd]. }
  destruct Hdims as [-> Hcustom].
  pose proof (create_tradeoff_matrix_cases technologies
                (comparison_dimensions custom)) as Hmatrix.
  destruct (create_tradeoff_matrix technologies (comparison_dimensions custom))
    as [m|e]; cbn [mbind Result_bind wrap_ComparisonError].
  2:{ right. right. repeat split; try lia. right.
      destruct Hmatrix as (_ & [Hm|[Hm|Hm]]); [lia|discriminate Hm|].
      unfold comparison_dimensions in Hm. rewrite length_app in Hm.
      cbn [standard_dimensions length] in Hm.
      destruct custom as [l|]; [|cbn in Hm; lia].
      intros [_ Hlen]. lia. }
  destruct Hmatrix as (_ & Hten & _ & Hmdims & _).
  pose proof (collect_scores technologies wc Hweights) as Hscores.
  destruct (collect _ technologies) as [scores|e];
    cbn [mbind Result_bind wrap_ComparisonError].
  - destruct Hscores as [Hnames Hall].
    cbn [cr_technologies cr_tradeoff_matrix cr_weighted_criteria
         cr_compatibility_scores].
    repeat split; try lia; try assumption.
    unfold custom_dimensions_accepted. destruct custom as [l|]; [|exact I].
    split; [exact Hcustom|].
    unfold comparison_dimensions in Hten. rewrite length_app in Hten.
    cbn [standard_dimensions length] in Hten. lia.
  - right. right. repeat split; try lia. left. exact Hscores.
Qed.

(** X9. The outcome of [generate_comparison].  It returns a result exactly
    when there are 2 to 5 technologies, all of them named, the weights are
    not empty, at most half of the technologies have fewer than three
    scored dimensions, and the custom dimensions are at most five and none
    of them is a standard dimension.  The result then lists the
    technologies and one score per technology in the order given, each
    score being the weighted average of the specification (the fallback
    score of 0.5 is never used), over the standard dimensions followed by
    the custom ones.  Its failures are [ValueError] for a wrong number of
    technologies, else [InsufficientDataError] for empty weights or a
    majority of data-poor technologies, else [ComparisonError]. *)
Theorem generate_comparison_outcome (technologies : list TechnologyProfile)
    (wc : WeightedCriteria) (custom : option (list string)) :
  ((exists result, generate_comparison technologies wc custom = Ok result) <->
   (2 <= length technologies <= 5)%nat /\
   dimension_weights wc <> [] /\
   (2 * data_poor technologies <= length technologies)%nat /\
   Forall (fun t => name t <> "") technologies /\
   custom_dimensions_accepted custom) /\
  (forall result, generate_comparison technologies wc custom = Ok result ->
     cr_technologies result = map name technologies /\
     tm_dimensions (cr_tradeoff_matrix result) = comparison_dimensions custom /\
     cr_weighted_criteria result = wc /\
     Forall2 (fun t cs => cs_technology cs = name t /\
                          cs_score cs == compatibility_spec t wc)
       technologies (cr_compatibility_scores result)) /\
  (forall e, generate_comparison technologies wc custom = Raise e ->
     (e = ValueError /\
      ((length technologies < 2)%nat \/ (5 < length technologies)%nat)) \/
     (e = InsufficientDataError /\ (2 <= length technologies <= 5)%nat /\
      (dimension_weights wc = [] \/
       (length technologies < 2 * data_poor technologies)%nat)) \/
     (e = ComparisonError /\ (2 <= length technologies <= 5)%nat)).
Proof.
  pose proof (generate_comparison_cases technologies wc custom) as H.
  destruct (generate_comparison technologies wc custom) as [result|e].
  - destruct H as (Hn & Hw & Hp & Hnames & Hc & Hrest). split; [|split].
    + split; [auto|]. intros _. exists result. reflexivity.
    + intros r' [= <-]. exact Hrest.
    + discriminate.
  - split; [|split].
    + split; [intros [r Hr]; discriminate Hr|].
      intros (Hn & Hw & Hp & Hnames & Hc). exfalso.
      destruct H as [(_ & Hb)|[(_ & _ & Hb)|(_ & _ & Hb)]].
      * lia.
      * destruct Hb as [Hb|Hb]; [congruence|lia].
      * destruct Hb as [Hb|Hb]; [|exact (Hb Hc)].
        apply Exists_exists in Hb as (t & Hin & Ht).
        rewrite Forall_forall in Hnames. exact (Hnames t Hin Ht).
    + discriminate.
    + intros e' [= <-].
      destruct H as [H|[H|(He & Hn & _)]]; [left; exact H|right; left; exact H|].
      right. right. auto.
Qed.

(** ** What the compatibility score depends on *)

Lemma calculate_compatibility_cases (technology : TechnologyProfile)
    (wc : WeightedCriteria) :
  match calculate_compatibility technology wc with
  | Ok cs =>
      name technology <> "" /\ dimension_weights wc <> [] /\
      cs_technology cs = name technology /\
      cs_score cs == compatibility_spec technology wc
  | Raise e =>
      e = ComparisonError /\
      (name technology = "" \/ dimension_weights wc = [])
  end.
Proof.
  destruct (decide (name technology = "")) as [Hname|Hname].
  { destruct (calculate_compatibility_unnamed technology wc Hname) as [-> _].
    split; [reflexivity|left; exact Hname]. }
  destruct (dimension_weights wc) as [|w0 ws] eqn:Hdw.
  { unfold calculate_compatibility. rewrite Hdw. cbn.
    split; [reflexivity|right; reflexivity]. }
  assert (Hweights : dimension_weights wc <> []) by (rewrite Hdw; discriminate).
  destruct (calculate_compatibility_ok technology wc Hname Hweights)
    as (cs & -> & Htech & Hscore).
  rewrite <- Hdw. auto.
Qed.

Lemma sum_map_le {A : Type} (f g : A -> Q) (l : list A) :
  (forall x, In x l -> f x <= g x) -> sum (map f l) <= sum (map g l).
Proof.
  induction l as [|x l IH]; intros H; cbn [map].
  - lra.
  - rewrite !sum_cons.
    assert (f x <= g x) by (apply H; left; reflexivity).
    assert (sum (map f l) <= sum (map g l))
      by (apply IH; intros y Hy; apply H; right; exact Hy).
    lra.
Qed.

Lemma sum_map_eq {A : Type} (f g : A -> Q) (l : list A) :
  (forall x, In x l -> f x == g x) -> sum (map f l) == sum (map g l).
Proof.
  intros H. apply Qle_antisym; apply sum_map_le; intros x Hx;
    rewrite (H x Hx); lra.
Qed.

Lemma clamp01_mono (x y : Q) : x <= y -> clamp01 x <= clamp01 y.
Proof.
  intros H. unfold clamp01.
  apply Q.max_le_compat_l, Q.min_le_compat_l, H.
Qed.

Lemma used_weight_total_nonneg (technology : TechnologyProfile)
    (wc : WeightedCriteria) :
  0 <= sum (map (used_weight technology) (positive_items wc)).
Proof.
  apply sum_nonneg. apply Forall_forall. intros x Hx.
  apply list_elem_of_In, in_map_iff in Hx as [it [<- Hit]].
  apply filter_In in Hit as [_ Hpos]. apply Qlt_bool_iff in Hpos.
  apply Qlt_le_weak, used_weight_pos, Hpos.
Qed.

Lemma compatibility_fold_positive (technology : TechnologyProfile)
    (items : Dict) (acc : Q * Q) :
  fold_left (compatibility_step technology) items acc =
  fold_left (compatibility_step technology)
    (List.filter (fun item => Qlt_bool 0 (snd item)) items) acc.
Proof.
  revert acc. induction items as [|[d w] items IH]; intros [tws tw];
    [reflexivity|].
  cbn [fold_left List.filter snd].
  change (Qlt_bool 0 w) with (negb (Qle_bool w 0)).
  destruct (Qle_bool w 0) eqn:Hw; cbn [negb].
  - replace (compatibility_step technology (tws, tw) (d, w)) with (tws, tw)
      by (unfold compatibility_step; rewrite Hw; reflexivity).
    apply IH.
  - cbn [fold_left]. apply IH.
Qed.

(** X10. Dimensions of weight zero or below have no part in the
    compatibility score: with at least one positive weight,
    [calculate_compatibility] returns the very same score when the
    dimensions of non-positive weight are removed from the weights, whether
    or not the profile has those dimensions. *)
Theorem compatibility_ignores_nonpositive_weights
    (technology : TechnologyProfile) (wc : WeightedCriteria)
    (cs : CompatibilityScore) :
  positive_items wc <> [] ->
  calculate_compatibility technology wc = Ok cs ->
  calculate_compatibility technology
    {| dimension_weights := positive_items wc;
       priority_factors := priority_factors wc |} = Ok cs.
Proof.
  intros Hpos Hcs. rewrite <- Hcs. unfold calculate_compatibility.
  cbn [dimension_weights].
  assert (Hweights : dimension_weights wc <> []).
  { intros Hnil. apply Hpos. unfold positive_items. rewrite Hnil.
    reflexivity. }
  destruct (positive_items wc) as [|p ps] eqn:Hp; [congruence|].
  destruct (dimension_weights wc) as [|w ws] eqn:Hdw; [congruence|].
  cbn [raise_if mbind Result_bind].
  rewrite (compatibility_fold_positive technology (w :: ws)).
  unfold positive_items in Hp. rewrite Hdw in Hp. rewrite Hp.
  assert (Hfix : List.filter (fun item => Qlt_bool 0 (snd item)) (p :: ps)
                 = p :: ps).
  { rewrite <- Hp. clear. induction (w :: ws) as [|x l IH]; [reflexivity|].
    cbn [List.filter]. destruct (Qlt_bool 0 (snd x)) eqn:Hx; [|exact IH].
    cbn [List.filter]. rewrite Hx, IH. reflexivity. }
  rewrite (compatibility_fold_positive technology (p :: ps)), Hfix.
  reflexivity.
Qed.

Lemma compatibility_ignores_nonpositive_weights_witness :
  exists cs,
    calculate_compatibility REST_profile
      {| dimension_weights :=
           [("cost", 0.5); ("latency", 0); ("scalability", 0);
            ("performance", 0.3)];
         priority_factors := [] |} = Ok cs /\
    calculate_compatibility REST_profile
      {| dimension_weights := [("cost", 0.5); ("performance", 0.3)];
         priority_factors := [] |} = Ok cs.
Proof.
  eexists. split; [vm_compute; reflexivity|].
  apply (compatibility_ignores_nonpositive_weights REST_profile
           {| dimension_weights :=
                [("cost", 0.5); ("latency", 0); ("scalability", 0);
                 ("performance", 0.3)];
              priority_factors := [] |}).
  - vm_compute. discriminate.
  - vm_compute. reflexivity.
Defined.

Lemma compatibility_spec_monotone (t : TechnologyProfile) (d : string)
    (ds ds' : DimensionScore) (wc : WeightedCriteria) :
  dimensions t !! d = Some ds ->
  ds_score ds <= ds_score ds' ->
  compatibility_spec t wc
  <= compatibility_spec (with_dimension_score t d ds') wc.
Proof.
  intros Hd Hle. unfold compatibility_spec. cbv zeta.
  set (t' := with_dimension_score t d ds').
  assert (HW : sum (map (used_weight t') (positive_items wc))
               == sum (map (used_weight t) (positive_items wc))).
  { apply sum_map_eq. intros [d0 w] _. unfold used_weight. cbn [fst snd].
    unfold t', with_dimension_score. cbn [dimensions].
    destruct (decide (d = d0)) as [<-|Hne].
    - rewrite lookup_insert_eq, Hd. reflexivity.
    - rewrite lookup_insert_ne by exact Hne. reflexivity. }
  assert (HT : sum (map (contribution t) (positive_items wc))
               <= sum (map (contribution t') (positive_items wc))).
  { apply sum_map_le. intros [d0 w] Hin.
    apply filter_In in Hin as [_ Hpos]. apply Qlt_bool_iff in Hpos.
    cbn [snd] in Hpos. unfold contribution. cbn [fst snd].
    unfold t', with_dimension_score. cbn [dimensions].
    destruct (decide (d = d0)) as [<-|Hne].
    - rewrite lookup_insert_eq, Hd.
      assert (Hc : clamp01 (ds_score ds / 5) <= clamp01 (ds_score ds' / 5)).
      { apply clamp01_mono. unfold Qdiv. change (/ 5) with (1 # 5). lra. }
      nra.
    - rewrite lookup_insert_ne by exact Hne. lra. }
  pose proof (used_weight_total_nonneg t wc) as Hnonneg.
  revert HW HT Hnonneg.
  generalize (sum (map (contribution t) (positive_items wc))) as T.
  generalize (sum (map (used_weight t) (positive_items wc))) as W.
  generalize (sum (map (contribution t') (positive_items wc))) as T'.
  generalize (sum (map (used_weight t') (positive_items wc))) as W'.
  intros W' T' W T HW HT Hnonneg. apply clamp01_mono.
  destruct (Qeq_bool W 0) eqn:HW0.
  - apply Qeq_bool_iff in HW0.
    assert (HW'0 : Qeq_bool W' 0 = true)
      by (apply Qeq_bool_iff; rewrite HW; exact HW0).
    rewrite HW'0. lra.
  - apply Qeq_bool_neq in HW0.
    assert (HW'0 : Qeq_bool W' 0 = false).
    { destruct (Qeq_bool W' 0) eqn:E; [|reflexivity].
      apply Qeq_bool_iff in E. exfalso. apply HW0. rewrite <- HW. exact E. }
    rewrite HW'0, HW.
    assert (Hpos : 0 < W) by (apply Qle_lt_or_eq in Hnonneg as [?|Heq]; [assumption|exfalso; apply HW0; rewrite <- Heq; reflexivity]).
    apply Qle_shift_div_l; [exact Hpos|].
    assert (Heq : T / W * W == T) by (field; lra).
    rewrite Heq. exact HT.
Qed.

(** X11. The compatibility score is monotone in the dimension scores:
    raising the score that a profile has in one dimension never lowers its
    compatibility, whatever the weights. *)
Theorem compatibility_monotone_in_dimension_scores (t : TechnologyProfile)
    (d : string) (ds ds' : DimensionScore) (wc : WeightedCriteria)
    (cs cs' : CompatibilityScore) :
  dimensions t !! d = Some ds ->
  ds_score ds <= ds_score ds' ->
  calculate_compatibility t wc = Ok cs ->
  calculate_compatibility (with_dimension_score t d ds') wc = Ok cs' ->
  cs_score cs <= cs_score cs'.
Proof.
  intros Hd Hle Hcs Hcs'.
  pose proof (calculate_compatibility_cases t wc) as H.
  rewrite Hcs in H. destruct H as (_ & _ & _ & Hscore).
  pose proof (calculate_compatibility_cases (with_dimension_score t d ds') wc)
    as H'.
  rewrite Hcs' in H'. destruct H' as (_ & _ & _ & Hscore').
  rewrite Hscore, Hscore'. apply (compatibility_spec_monotone t d ds ds' wc Hd Hle).
Qed.

Lemma compatibility_monotone_in_dimension_scores_witness :
  exists cs cs',
    calculate_compatibility REST_profile sample_criteria = Ok cs /\
    calculate_compatibility
      (with_dimension_score REST_profile "performance"
         {| ds_score := 4.5; ds_explanation := "Fewer round trips" |})
      sample_criteria = Ok cs' /\
    cs_score cs <= cs_score cs'.
Proof.
  eexists _, _. split; [vm_compute; reflexivity|].
  split; [vm_compute; reflexivity|].
  apply (compatibility_monotone_in_dimension_scores REST_profile "performance"
           {| ds_score := 3.5;
              ds_explanation :=
                "Good performance but can be chatty with multiple round trips" |}
           {| ds_score := 4.5; ds_explanation := "Fewer round trips" |}
           sample_criteria).
  - vm_compute. reflexivity.
  - vm_compute. discriminate.
  - vm_compute. reflexivity.
  - vm_compute. reflexivity.
Defined.

(** * The technology analyzer: further properties *)

(** ** Fallback profiles *)

Lemma guess_technology_category_cases (technology_name : string) :
  In (_guess_technology_category technology_name)
    ["Database"; "API"; "Cloud Service"; "Frontend Framework";
     "Backend Framework"; "Technology"].
Proof.
  unfold _guess_technology_category. cbv zeta.
  repeat match goal with
         | |- context [if any_keyword ?k ?n then _ else _] =>
             destruct (any_keyword k n)
         end; cbn; auto 10.
Qed.

Lemma fallback_profile_cases (technology_name : string) :
  match _create_fallback_profile technology_name with
  | Ok profile =>
      technology_name <> "" /\
      name profile = technology_name /\
      category profile = _guess_technology_category technology_name /\
      maturity profile = STABLE /\
      valid_TechnologyProfile profile /\
      size (dimensions profile) = 5%nat /\
      forall d, In d standard_dimensions ->
        exists ds, dimensions profile !! d = Some ds /\ ds_score ds == 3
  | Raise e => e = ValidationError /\ technology_name = ""
  end.
Proof.
  unfold _create_fallback_profile. cbv zeta.
  destruct technology_name as [|c s]; [cbn; auto|].
  cbn [nonempty negb raise_if mbind Result_bind].
  split; [discriminate|]. split; [reflexivity|]. split; [reflexivity|].
  split; [reflexivity|]. split; [|split].
  - apply valid_profile_bool_sound. unfold valid_profile_bool.
    cbn [name category dimensions].
    assert (Hcat : nonempty (_guess_technology_category (String c s)) = true).
    { pose proof (guess_technology_category_cases (String c s)) as Hin.
      cbn [In] in Hin.
      repeat destruct Hin as [<-|Hin]; try reflexivity. destruct Hin. }
    rewrite Hcat. vm_compute. reflexivity.
  - cbn [dimensions]. vm_compute. reflexivity.
  - cbn [dimensions]. intros d Hd. cbn [standard_dimensions In] in Hd.
    repeat destruct Hd as [<-|Hd]; try destruct Hd;
      (eexists; split; [vm_compute; reflexivity|vm_compute; reflexivity]).
Qed.

(** X12. A fallback profile is created for every non-empty name and for no
    other: it carries that name, satisfies the profile invariant, is marked
    stable, falls into one of six categories, and scores the neutral 3.0
    in each of the five standard dimensions and in no other one. *)
Theorem fallback_profile_is_neutral_and_valid (technology_name : string) :
  match _create_fallback_profile technology_name with
  | Ok profile =>
      technology_name <> "" /\
      name profile = technology_name /\
      In (category profile)
        ["Database"; "API"; "Cloud Service"; "Frontend Framework";
         "Backend Framework"; "Technology"] /\
      maturity profile = STABLE /\
      valid_TechnologyProfile profile /\
      size (dimensions profile) = 5%nat /\
      forall d, In d standard_dimensions ->
        exists ds, dimensions profile !! d = Some ds /\ ds_score ds == 3
  | Raise e => e = ValidationError /\ technology_name = ""
  end.
Proof.
  pose proof (fallback_profile_cases technology_name) as H.
  destruct (_create_fallback_profile technology_name) as [profile|e];
    [|exact H].
  destruct H as (Hne & Hname & Hcat & Hmat & Hvalid & Hsize & Hdims).
  split; [exact Hne|]. split; [exact Hname|].
  split; [rewrite Hcat; apply guess_technology_category_cases|].
  split; [exact Hmat|]. split; [exact Hvalid|].
  split; [exact Hsize|exact Hdims].
Qed.

Lemma compatibility_step_scores (t1 t2 : TechnologyProfile) (acc : Q * Q)
    (item : string * Q) :
  (forall d, ds_score <$> dimensions t1 !! d = ds_score <$> dimensions t2 !! d) ->
  compatibility_step t1 acc item = compatibility_step t2 acc item.
Proof.
  intros Hsame. destruct acc as [tws tw], item as [d w].
  unfold compatibility_step. destruct (Qle_bool w 0); [reflexivity|].
  specialize (Hsame d).
  destruct (dimensions t1 !! d) as [d1|], (dimensions t2 !! d) as [d2|];
    cbn in Hsame; try discriminate Hsame; [|reflexivity].
  injection Hsame as ->. reflexivity.
Qed.

Lemma compatibility_fold_scores (t1 t2 : TechnologyProfile) (items : Dict)
    (acc : Q * Q) :
  (forall d, ds_score <$> dimensions t1 !! d = ds_score <$> dimensions t2 !! d) ->
  fold_left (compatibility_step t1) items acc =
  fold_left (compatibility_step t2) items acc.
Proof.
  intros Hsame. revert acc. induction items as [|item items IH]; intros acc;
    [reflexivity|].
  cbn [fold_left]. rewrite (compatibility_step_scores t1 t2 acc item Hsame).
  apply IH.
Qed.

Lemma fallback_dimension_scores (n1 n2 : string) (p1 p2 : TechnologyProfile)
    (d : string) :
  _create_fallback_profile n1 = Ok p1 ->
  _create_fallback_profile n2 = Ok p2 ->
  ds_score <$> dimensions p1 !! d = ds_score <$> dimensions p2 !! d.
Proof.
  unfold _create_fallback_profile. cbv zeta.
  destruct (nonempty n1); [|discriminate].
  destruct (nonempty n2); [|discriminate].
  cbn [negb raise_if mbind Result_bind]. intros [= <-] [= <-].
  cbn [dimensions]. unfold dims_of.
  cbn [standard_dimensions map fold_left].
  repeat match goal with
         | |- context [<[?k := _]> _ !! d] =>
             destruct (decide (k = d)) as [<-|Hne];
             [rewrite !lookup_insert_eq; reflexivity
             |rewrite !(lookup_insert_ne _ k d) by exact Hne; clear Hne]
         end.
  reflexivity.
Qed.

(** X13. Technologies outside the knowledge base cannot be told apart by
    their compatibility: under the same weights, the fallback profiles of
    any two names get the same score, whatever the names and the
    weights. *)
Theorem fallback_profiles_score_alike (n1 n2 : string)
    (p1 p2 : TechnologyProfile) (wc : WeightedCriteria)
    (cs1 : CompatibilityScore) :
  _create_fallback_profile n1 = Ok p1 ->
  _create_fallback_profile n2 = Ok p2 ->
  calculate_compatibility p1 wc = Ok cs1 ->
  exists cs2,
    calculate_compatibility p2 wc = Ok cs2 /\
    cs_technology cs2 = n2 /\
    cs_score cs2 = cs_score cs1.
Proof.
  intros H1 H2 Hcs1.
  pose proof (fallback_profile_cases n2) as Hp2. rewrite H2 in Hp2.
  destruct Hp2 as (Hne2 & Hname2 & _).
  assert (Hsame : forall d, ds_score <$> dimensions p1 !! d
                            = ds_score <$> dimensions p2 !! d)
    by (intros d; apply (fallback_dimension_scores n1 n2 p1 p2 d H1 H2)).
  unfold calculate_compatibility in Hcs1 |- *.
  destruct (dimension_weights wc) as [|w ws]; [discriminate Hcs1|].
  cbn [raise_if mbind Result_bind] in Hcs1 |- *.
  rewrite <- (compatibility_fold_scores p1 p2 (w :: ws) (0, 0) Hsame).
  destruct (fold_left (compatibility_step p1) (w :: ws) (0, 0)) as [tws tw].
  unfold mk_CompatibilityScore in Hcs1 |- *.
  rewrite Hname2, (nonempty_true _ Hne2).
  destruct (nonempty (name p1)); [|discriminate Hcs1].
  cbn [negb raise_if mbind Result_bind] in Hcs1 |- *.
  destruct (Qle_bool 0 _ && Qle_bool _ 1); [|discriminate Hcs1].
  cbn [negb raise_if mbind Result_bind wrap_ComparisonError] in Hcs1 |- *.
  injection Hcs1 as <-. eexists. split; [reflexivity|].
  split; reflexivity.
Qed.

Lemma fallback_profiles_score_alike_witness :
  exists cs1 cs2,
    (Ok cs1 =
       p ← _create_fallback_profile "Deno";
       calculate_compatibility p sample_criteria) /\
    (Ok cs2 =
       p ← _create_fallback_profile "Bun";
       calculate_compatibility p sample_criteria) /\
    cs_technology cs2 = "Bun" /\
    cs_score cs2 = cs_score cs1.
Proof.
  destruct (_create_fallback_profile "Deno") as [p1|e1] eqn:H1;
    [|exfalso; vm_compute in H1; discriminate H1].
  destruct (_create_fallback_profile "Bun") as [p2|e2] eqn:H2;
    [|exfalso; vm_compute in H2; discriminate H2].
  destruct (calculate_compatibility p1 sample_criteria) as [cs1|e] eqn:Hcs1.
  - destruct (fallback_profiles_score_alike "Deno" "Bun" p1 p2 sample_criteria
                cs1 H1 H2 Hcs1) as (cs2 & Hcs2 & Htech & Hscore).
    exists cs1, cs2. cbn [mbind Result_bind]. rewrite Hcs2. auto.
  - exfalso.
    pose proof (fallback_profile_cases "Deno") as Hp. rewrite H1 in Hp.
    destruct Hp as (Hne & Hname & _).
    destruct (calculate_compatibility_ok p1 sample_criteria) as (cs & Hcs & _);
      [rewrite Hname; exact Hne|discriminate|congruence].
Defined.

(** ** Lookup *)

Lemma get_technology_profile_with_fallback_cases
    (kb : list (string * TechnologyProfile)) (technology_name : string) :
  match get_technology_profile_with_fallback kb technology_name with
  | Ok (profile, synthesized) =>
      technology_name <> "" /\
      if synthesized
      then get_technology_profile kb technology_name = None /\
           _create_fallback_profile technology_name = Ok profile
      else get_technology_profile kb technology_name = Some profile
  | Raise e => e = TechnologyNotFoundError /\ technology_name = ""
  end.
Proof.
  unfold get_technology_profile_with_fallback.
  destruct (get_technology_profile kb technology_name) as [profile|] eqn:Hget.
  - split; [|reflexivity]. intros ->. discriminate Hget.
  - pose proof (fallback_profile_cases technology_name) as H.
    destruct (_create_fallback_profile technology_name) as [profile|e].
    + split; [apply H|]. split; reflexivity.
    + split; [reflexivity|apply H].
Qed.

(** X14. The lookup with fallback gives a profile for every name but the
    empty one: the profile that the plain lookup finds or, when it finds
    none, the fallback profile of the name; it raises
    [TechnologyNotFoundError] for the empty name only. *)
Theorem lookup_with_fallback_is_total_on_names
    (kb : list (string * TechnologyProfile)) (technology_name : string) :
  match get_technology_profile_with_fallback kb technology_name with
  | Ok (profile, synthesized) =>
      technology_name <> "" /\
      if synthesized
      then get_technology_profile kb technology_name = None /\
           name profile = technology_name /\
           valid_TechnologyProfile profile
      else get_technology_profile kb technology_name = Some profile
  | Raise e => e = TechnologyNotFoundError /\ technology_name = ""
  end.
Proof.
  pose proof (get_technology_profile_with_fallback_cases kb technology_name)
    as H.
  destruct (get_technology_profile_with_fallback kb technology_name)
    as [[profile synthesized]|e]; [|exact H].
  destruct H as [Hne H]. split; [exact Hne|].
  destruct synthesized; [|exact H].
  destruct H as [Hnone Hfallback]. split; [exact Hnone|].
  pose proof (fallback_profile_cases technology_name) as Hcases.
  rewrite Hfallback in Hcases. split; apply Hcases.
Qed.

Lemma NoDup_map_injective {A B : Type} (f : A -> B) (l : list A) (a b : A) :
  List.NoDup (map f l) -> In a l -> In b l -> f a = f b -> a = b.
Proof.
  induction l as [|x l IH]; intros Hnd Ha Hb Hf; [destruct Ha|].
  cbn [map] in Hnd. apply List.NoDup_cons_iff in Hnd as [Hnotin Hnd].
  destruct Ha as [->|Ha], Hb as [->|Hb].
  - reflexivity.
  - exfalso. apply Hnotin. rewrite Hf. apply in_map, Hb.
  - exfalso. apply Hnotin. rewrite <- Hf. apply in_map, Ha.
  - apply IH; assumption.
Qed.

(** X15. The lookup ignores the case of the name.  In a knowledge base whose
    names stay distinct when lowered, any spelling of a known name that
    differs from it in case only resolves to the profile stored under that
    name. *)
Theorem lookup_ignores_case (kb : list (string * TechnologyProfile))
    (known : string) (profile : TechnologyProfile) (technology_name : string) :
  List.NoDup (map (fun entry => lower (fst entry)) kb) ->
  In (known, profile) kb ->
  lower technology_name = lower known ->
  strip technology_name <> "" ->
  get_technology_profile kb technology_name = Some profile.
Proof.
  intros Hnd Hin Hlower Hstrip.
  assert (Hsame : forall k' p', In (k', p') kb -> lower k' = lower known ->
                                p' = profile).
  { intros k' p' Hin' Hl.
    assert (Heq : (k', p') = (known, profile))
      by (apply (NoDup_map_injective _ kb _ _ Hnd Hin' Hin); exact Hl).
    congruence. }
  unfold get_technology_profile, kb_get.
  assert (Hq : nonempty technology_name = true).
  { destruct technology_name; [exfalso; apply Hstrip; reflexivity|reflexivity]. }
  rewrite Hq, (nonempty_true _ Hstrip). cbn [negb orb].
  destruct (List.find (fun '(known0, _) => String.eqb known0 technology_name) kb)
    as [[k1 p1]|] eqn:H1; cbn [fmap option_fmap option_map snd].
  - apply find_some in H1 as [Hin1 Heq1]. apply String.eqb_eq in Heq1.
    f_equal. apply (Hsame k1 p1 Hin1). congruence.
  - clear H1.
    destruct (List.find
                (fun '(known_tech, _) =>
                   String.eqb (lower known_tech) (lower technology_name)) kb)
      as [[k2 p2]|] eqn:H2.
    + apply find_some in H2 as [Hin2 Heq2]. apply String.eqb_eq in Heq2.
      f_equal. apply (Hsame k2 p2 Hin2). congruence.
    + exfalso.
      destruct (find_exists
                  (fun '(known_tech, _) =>
                     String.eqb (lower known_tech) (lower technology_name))
                  kb (known, profile) Hin) as (y & Hy & _).
      * rewrite Hlower. apply String.eqb_refl.
      * congruence.
Qed.

Lemma lookup_ignores_case_witness :
  get_technology_profile knowledge_base "graphql" = Some GraphQL_profile.
Proof.
  apply (lookup_ignores_case knowledge_base "GraphQL").
  - vm_compute.
    repeat (apply List.NoDup_cons; [cbn; intuition discriminate|]).
    apply List.NoDup_nil.
  - cbn. auto 10.
  - reflexivity.
  - vm_compute. discriminate.
Defined.

(** ** The knowledge base *)

Lemma knowledge_base_ok :
  forallb (known_technology_ok knowledge_base)
    (get_known_technologies knowledge_base) = true.
Proof. vm_compute. reflexivity. Qed.

(** X16. The knowledge base is consistent: every known technology is
    stored under the name its profile carries, is found by the lookup under
    exactly that name, satisfies the profile invariant, is listed under its
    own category, and has a score between 0 and 5 in each standard
    dimension. *)
Theorem known_technologies_resolve (technology_name : string) :
  In technology_name (get_known_technologies knowledge_base) ->
  is_known_technology knowledge_base technology_name = true /\
  exists profile,
    get_technology_profile knowledge_base technology_name = Some profile /\
    name profile = technology_name /\
    valid_TechnologyProfile profile /\
    In technology_name
      (get_technologies_by_category knowledge_base (category profile)) /\
    forall d, In d standard_dimensions ->
      exists ds,
        evaluate_dimension knowledge_base technology_name d = Some ds /\
        0 <= ds_score ds /\ ds_score ds <= 5.
Proof.
  intros Hin. pose proof knowledge_base_ok as Hok.
  rewrite List.forallb_forall in Hok. specialize (Hok _ Hin).
  unfold known_technology_ok in Hok.
  apply andb_true_iff in Hok as [Hknown Hok]. split; [exact Hknown|].
  destruct (get_technology_profile knowledge_base technology_name)
    as [profile|]; [|discriminate Hok].
  apply andb_true_iff in Hok as [Hok Hdims].
  apply andb_true_iff in Hok as [Hok Hcat].
  apply andb_true_iff in Hok as [Hname Hvalid].
  exists profile. split; [reflexivity|].
  split; [apply String.eqb_eq, Hname|].
  split; [apply valid_profile_bool_sound, Hvalid|].
  split; [apply contains_In, Hcat|].
  intros d Hd. rewrite List.forallb_forall in Hdims. specialize (Hdims d Hd).
  destruct (evaluate_dimension knowledge_base technology_name d) as [ds|];
    [|discriminate Hdims].
  apply andb_true_iff in Hdims as [Hlo Hhi]. apply Qle_bool_iff in Hlo, Hhi.
  exists ds. auto.
Qed.

Lemma known_technologies_resolve_witness :
  is_known_technology knowledge_base "PostgreSQL" = true /\
  exists profile,
    get_technology_profile knowledge_base "PostgreSQL" = Some profile /\
    name profile = "PostgreSQL" /\
    valid_TechnologyProfile profile /\
    In "PostgreSQL"
      (get_technologies_by_category knowledge_base (category profile)) /\
    forall d, In d standard_dimensions ->
      exists ds,
        evaluate_dimension knowledge_base "PostgreSQL" d = Some ds /\
        0 <= ds_score ds /\ ds_score ds <= 5.
Proof.
  apply (known_technologies_resolve "PostgreSQL").
  vm_compute. auto 10.
Defined.

(** * The recommendation engine: further properties *)

Lemma tech_lookup_fold_inv (l : list TechnologyProfile)
    (m : gmap string TechnologyProfile) (k : string) :
  is_Some (fold_left (fun m tech => <[name tech := tech]> m) l m !! k) ->
  is_Some (m !! k) \/ In k (map name l).
Proof.
  revert m. induction l as [|t l IH]; intros m H; cbn [fold_left] in H.
  - left. exact H.
  - apply IH in H as [H|H].
    + destruct (decide (name t = k)) as [<-|Hne].
      * right. left. reflexivity.
      * rewrite lookup_insert_ne in H by exact Hne. left. exact H.
    + right. right. exact H.
Qed.

Lemma tech_lookup_iff (technologies : list TechnologyProfile) (k : string) :
  is_Some (tech_lookup_of technologies !! k) <->
  In k (map name technologies).
Proof.
  split; [|apply tech_lookup_known].
  intros H. apply tech_lookup_fold_inv in H as [H|H]; [|exact H].
  rewrite lookup_empty in H. destruct H as [x Hx]. discriminate Hx.
Qed.

Lemma ranked_from_cases (technologies : list TechnologyProfile)
    (sorted_scores rest : list CompatibilityScore) (i : nat) :
  match ranked_from (tech_lookup_of technologies) sorted_scores i rest with
  | Ok ranked => Forall (rankable technologies) rest
  | Raise e =>
      (e = KeyError \/ e = ValidationError) /\
      ~ Forall (rankable technologies) rest
  end.
Proof.
  revert i. induction rest as [|cs rest IH]; intros i; cbn [ranked_from].
  - constructor.
  - destruct (tech_lookup_of technologies !! cs_technology cs) as [tech|]
      eqn:Hlookup; cbn [from_option mbind Result_bind].
    2:{ split; [left; reflexivity|]. intros Hall.
        apply Forall_cons in Hall as [(Hin & _) _].
        apply tech_lookup_iff in Hin. rewrite Hlookup in Hin.
        destruct Hin as [x Hx]. discriminate Hx. }
    assert (Hknown : In (cs_technology cs) (map name technologies))
      by (apply tech_lookup_iff; rewrite Hlookup; eauto).
    unfold mk_RankedChoice.
    destruct (nonempty (cs_technology cs)) eqn:Hname;
      cbn [negb raise_if mbind Result_bind].
    2:{ split; [right; reflexivity|]. intros Hall.
        apply Forall_cons in Hall as [(_ & Hne & _) _].
        rewrite (nonempty_true _ Hne) in Hname. discriminate Hname. }
    destruct (Qle_bool 0 (cs_score cs) && Qle_bool (cs_score cs) 1) eqn:Hrange;
      cbn [negb raise_if mbind Result_bind].
    2:{ split; [right; reflexivity|]. intros Hall.
        apply Forall_cons in Hall as [(_ & _ & Hlo & Hhi) _].
        apply Qle_bool_iff in Hlo, Hhi. rewrite Hlo, Hhi in Hrange.
        discriminate Hrange. }
    apply andb_true_iff in Hrange as [Hlo Hhi]. apply Qle_bool_iff in Hlo, Hhi.
    specialize (IH (S i)).
    destruct (ranked_from (tech_lookup_of technologies) sorted_scores (S i) rest)
      as [tail|e]; cbn [mbind Result_bind].
    + constructor; [|exact IH].
      split; [exact Hknown|]. split; [apply nonempty_neq, Hname|]. auto.
    + destruct IH as [He Hnot]. split; [exact He|]. intros Hall.
      apply Forall_cons in Hall as [_ Hall]. exact (Hnot Hall).
Qed.

Lemma ranked_pairs (ranked : list RankedChoice)
    (scores : list CompatibilityScore) :
  Forall2 (fun rc cs => rc_technology rc = cs_technology cs /\
                        rc_score rc = cs_score cs) ranked scores ->
  map (fun rc => (rc_technology rc, rc_score rc)) ranked =
  map (fun cs => (cs_technology cs, cs_score cs)) scores.
Proof.
  induction 1 as [|rc cs ranked scores [H1 H2] _ IH]; [reflexivity|].
  cbn [map]. rewrite H1, H2, IH. reflexivity.
Qed.

(** What [generate_recommendation] does with its inputs. *)
Lemma generate_recommendation_cases (technologies : list TechnologyProfile)
    (scores : list CompatibilityScore) (wc : WeightedCriteria) :
  match generate_recommendation technologies scores wc with
  | Ok rec =>
      technologies <> [] /\ length scores = length technologies /\
      Forall (rankable technologies) scores /\
      List.NoDup (map cs_technology scores) /\
      map (fun rc => (rc_technology rc, rc_score rc)) (ranked_choices rec) =
      map (fun cs => (cs_technology cs, cs_score cs))
        (sorted_desc cs_score scores)
  | Raise e =>
      (e = ValueError /\
       (technologies = [] \/ length scores <> length technologies)) \/
      ((e = KeyError \/ e = ValidationError) /\
       technologies <> [] /\ length scores = length technologies /\
       ~ (Forall (rankable technologies) scores /\
          List.NoDup (map cs_technology scores)))
  end.
Proof.
  unfold generate_recommendation.
  destruct technologies as [|t0 ts] eqn:Htechs.
  { cbn. left. auto. }
  rewrite <- Htechs.
  assert (Hne : technologies <> []) by (rewrite Htechs; discriminate).
  cbn [raise_if mbind Result_bind].
  destruct (length scores =? length technologies)%nat eqn:Hlen;
    cbn [negb raise_if mbind Result_bind].
  2:{ left. split; [reflexivity|right]. apply Nat.eqb_neq, Hlen. }
  apply Nat.eqb_eq in Hlen.
  assert (Hscores_ne : scores <> []).
  { destruct scores; [|discriminate]. rewrite Htechs in Hlen.
    discriminate Hlen. }
  unfold _create_ranked_choices.
  set (sorted := sorted_desc cs_score scores).
  assert (Hperm : Permutation sorted scores) by apply sorted_desc_perm.
  pose proof (ranked_from_cases technologies sorted sorted 0) as Hcases.
  destruct (ranked_from (tech_lookup_of technologies) sorted 0 sorted)
    as [ranked|e] eqn:Hranked; cbn [mbind Result_bind].
  2:{ right. destruct Hcases as [He Hnot]. split; [exact He|].
      split; [exact Hne|]. split; [exact Hlen|]. intros [Hall _].
      apply Hnot. eapply Permutation_Forall; [symmetry; exact Hperm|exact Hall]. }
  assert (Hall : Forall (rankable technologies) scores)
    by (eapply Permutation_Forall; [exact Hperm|exact Hcases]).
  assert (Hknown : Forall (fun cs => is_Some (tech_lookup_of technologies
                                                !! cs_technology cs)) scores).
  { eapply Forall_impl; [exact Hall|]. intros cs (Hin & _).
    apply tech_lookup_iff, Hin. }
  destruct (alternative_scenarios_return technologies scores Hscores_ne Hknown)
    as [alt ->].
  cbn [mbind Result_bind]. unfold mk_Recommendation.
  pose proof (ranked_from_maps _ _ _ _ _ Hranked) as Hmaps.
  assert (Htech : map rc_technology ranked = map cs_technology sorted).
  { clear -Hmaps. induction Hmaps as [|rc cs r s [H1 _] _ IH]; [reflexivity|].
    cbn [map]. rewrite H1, IH. reflexivity. }
  assert (Hscore : map rc_score ranked = map cs_score sorted).
  { clear -Hmaps. induction Hmaps as [|rc cs r s [_ H2] _ IH]; [reflexivity|].
    cbn [map]. rewrite H2, IH. reflexivity. }
  assert (Hnil : match ranked with [] => true | _ :: _ => false end = false).
  { destruct ranked; [|reflexivity]. exfalso.
    apply Forall2_length in Hmaps. cbn [length] in Hmaps.
    assert (Hsl : length sorted = length scores) by apply sorted_desc_length.
    destruct scores; [congruence|]. simpl in Hsl. lia. }
  rewrite Hnil. cbn [raise_if mbind Result_bind].
  rewrite Hscore.
  rewrite (sorted_desc_of_descending (map cs_score sorted))
    by (apply descending_map, sorted_desc_descending).
  rewrite list_Qeq_bool_refl.
  destruct (length (map rc_technology ranked)
            =? size (list_to_set (map rc_technology ranked) : gset string))%nat
    eqn:Huniq; cbn [negb raise_if mbind Result_bind].
  - apply Nat.eqb_eq, NoDup_of_size in Huniq.
    rewrite Htech, (Permutation_map cs_technology Hperm) in Huniq.
    cbn [ranked_choices]. split; [exact Hne|]. split; [exact Hlen|].
    split; [exact Hall|]. split; [apply NoDup_ListNoDup, Huniq|].
    apply ranked_pairs, Hmaps.
  - right. split; [right; reflexivity|]. split; [exact Hne|].
    split; [exact Hlen|]. intros [_ Hnd].
    apply Nat.eqb_neq in Huniq. apply Huniq. symmetry.
    apply size_list_to_set.
    rewrite Htech, (Permutation_map cs_technology Hperm).
    apply NoDup_ListNoDup, Hnd.
Qed.

(** X17. [generate_recommendation] returns a recommendation exactly when
    there is at least one technology, there are as many scores as
    technologies, every score names one of the technologies, has a
    non-empty name and lies between 0 and 1, and no technology is scored
    twice.  The ranking then holds every scored technology exactly once,
    with its score, in the stable descending order of the scores.  The
    only failures are [ValueError] (no technology, or a different number of
    scores), [KeyError] and [ValidationError]. *)
Theorem generate_recommendation_outcome (technologies : list TechnologyProfile)
    (scores : list CompatibilityScore) (wc : WeightedCriteria) :
  ((exists rec, generate_recommendation technologies scores wc = Ok rec) <->
   technologies <> [] /\ length scores = length technologies /\
   Forall (rankable technologies) scores /\
   List.NoDup (map cs_technology scores)) /\
  (forall rec, generate_recommendation technologies scores wc = Ok rec ->
     map (fun rc => (rc_technology rc, rc_score rc)) (ranked_choices rec) =
     map (fun cs => (cs_technology cs, cs_score cs))
       (sorted_desc cs_score scores)) /\
  (forall e, generate_recommendation technologies scores wc = Raise e ->
     (e = ValueError /\
      (technologies = [] \/ length scores <> length technologies)) \/
     ((e = KeyError \/ e = ValidationError) /\
      technologies <> [] /\ length scores = length technologies)).
Proof.
  pose proof (generate_recommendation_cases technologies scores wc) as H.
  destruct (generate_recommendation technologies scores wc) as [rec|e].
  - destruct H as (Hne & Hlen & Hall & Hnd & Hpairs). split; [|split].
    + split; [auto|]. intros _. exists rec. reflexivity.
    + intros rec' [= <-]. exact Hpairs.
    + discriminate.
  - split; [|split].
    + split; [intros [rec Hrec]; discriminate Hrec|].
      intros (Hne & Hlen & Hall & Hnd). exfalso.
      destruct H as [(_ & [Hb|Hb])|(_ & _ & _ & Hb)]; auto.
    + discriminate.
    + intros e' [= <-].
      destruct H as [H|(He & Hne & Hlen & _)]; [left; exact H|right; auto].
Qed.

Lemma comparison_scores_rankable (technologies : list TechnologyProfile)
    (wc : WeightedCriteria) (scores : list CompatibilityScore) :
  Forall (fun t => name t <> "") technologies ->
  Forall2 (fun t cs => cs_technology cs = name t /\
                       cs_score cs == compatibility_spec t wc)
    technologies scores ->
  map cs_technology scores = map name technologies /\
  Forall (rankable technologies) scores.
Proof.
  intros Hnames Hall.
  assert (Hmap : map cs_technology scores = map name technologies).
  { clear Hnames. induction Hall as [|t cs ts css [H1 _] _ IH]; [reflexivity|].
    cbn [map]. rewrite H1, IH. reflexivity. }
  split; [exact Hmap|].
  apply Forall_forall. intros cs Hcs. apply list_elem_of_In in Hcs.
  assert (Hin : In (cs_technology cs) (map name technologies))
    by (rewrite <- Hmap; apply in_map, Hcs).
  split; [exact Hin|].
  split.
  - apply in_map_iff in Hin as (t & <- & Ht).
    rewrite Forall_forall in Hnames. apply Hnames, list_elem_of_In, Ht.
  - clear Hmap Hin Hnames.
    induction Hall as [|t cs' ts css [_ H2] _ IH]; [destruct Hcs|].
    destruct Hcs as [<-|Hcs]; [|apply IH, Hcs].
    rewrite H2. apply compatibility_spec_range.
Qed.

(** X18. The scores that a successful comparison hands on are always fit
    for ranking, so that the recommendation for them is returned exactly
    when the compared technologies have distinct names: two profiles of
    one name (two requested names that resolve to the same known
    technology) make [generate_recommendation] fail. *)
Theorem recommendation_needs_distinct_names
    (technologies : list TechnologyProfile) (wc : WeightedCriteria)
    (custom : option (list string)) (result : ComparisonResult) :
  generate_comparison technologies wc custom = Ok result ->
  ((exists rec,
      generate_recommendation technologies (cr_compatibility_scores result) wc
      = Ok rec) <->
   List.NoDup (map name technologies)).
Proof.
  intros Hcmp.
  pose proof (generate_comparison_cases technologies wc custom) as H.
  rewrite Hcmp in H.
  destruct H as (Hn & _ & _ & Hnames & _ & _ & _ & _ & Hscores).
  destruct (comparison_scores_rankable technologies wc _ Hnames Hscores)
    as [Hmap Hrank].
  pose proof (generate_recommendation_cases technologies
                (cr_compatibility_scores result) wc) as Hrec.
  destruct (generate_recommendation technologies
              (cr_compatibility_scores result) wc) as [rec|e].
  - destruct Hrec as (_ & _ & _ & Hnd & _). rewrite Hmap in Hnd.
    split; [intros _; exact Hnd|intros _; exists rec; reflexivity].
  - split; [intros [rec Hr]; discriminate Hr|]. intros Hnd. exfalso.
    assert (Hlen : length (cr_compatibility_scores result)
                   = length technologies).
    { rewrite <- (length_map cs_technology), Hmap. apply length_map. }
    destruct Hrec as [(_ & [Hb|Hb])|(_ & _ & _ & Hb)].
    + rewrite Hb in Hn. cbn in Hn. lia.
    + exact (Hb Hlen).
    + apply Hb. split; [exact Hrank|]. rewrite Hmap. exact Hnd.
Qed.

Lemma recommendation_needs_distinct_names_witness :
  exists result,
    generate_comparison [REST_profile; REST_profile] sample_criteria None
      = Ok result /\
    ~ exists rec,
        generate_recommendation [REST_profile; REST_profile]
          (cr_compatibility_scores result) sample_criteria = Ok rec.
Proof.
  destruct (generate_comparison [REST_profile; REST_profile] sample_criteria
              None) as [result|e] eqn:Hcmp;
    [|exfalso; vm_compute in Hcmp; discriminate Hcmp].
  exists result. split; [reflexivity|]. intros Hrec.
  apply (recommendation_needs_distinct_names _ _ _ _ Hcmp) in Hrec.
  cbn [map name REST_profile] in Hrec.
  apply List.NoDup_cons_iff in Hrec as [Hnotin _]. apply Hnotin.
  left. reflexivity.
Defined.

(** X19. Confidence needs a minimum score at every rank and for every gap:
    a choice is rated HIGH only with a score of at least 0.7 and MEDIUM
    only with a score of at least 0.5. *)
Theorem confidence_needs_minimum_score (comp_score : CompatibilityScore)
    (all_scores : list CompatibilityScore) (rank : nat) :
  match _calculate_confidence comp_score all_scores rank with
  | CONF_HIGH => 0.7 <= cs_score comp_score
  | CONF_MEDIUM => 0.5 <= cs_score comp_score
  | CONF_LOW => True
  end.
Proof.
  unfold _calculate_confidence.
  destruct rank as [|rank]; [destruct all_scores as [|first [|second rest]]|];
    repeat match goal with
           | |- context [Qle_bool ?a ?b] =>
               let H := fresh "H" in
               destruct (Qle_bool a b) eqn:H;
               [apply Qle_bool_iff in H|clear H]
           | |- context [Qlt_bool ?a ?b] => destruct (Qlt_bool a b)
           end; try exact I; lra.
Qed.

(** ** Alternative scenarios *)

Lemma tech_lookup_fold_value (l : list TechnologyProfile)
    (m : gmap string TechnologyProfile) (k : string) (t : TechnologyProfile) :
  fold_left (fun m tech => <[name tech := tech]> m) l m !! k = Some t ->
  m !! k = Some t \/ In t l.
Proof.
  revert m. induction l as [|t0 l IH]; intros m H; cbn [fold_left] in H.
  - left. exact H.
  - apply IH in H as [H|H]; [|right; right; exact H].
    destruct (decide (name t0 = k)) as [<-|Hne].
    + rewrite lookup_insert_eq in H. injection H as <-. right. left. reflexivity.
    + rewrite lookup_insert_ne in H by exact Hne. left. exact H.
Qed.

Lemma tech_lookup_value (technologies : list TechnologyProfile) (k : string)
    (t : TechnologyProfile) :
  tech_lookup_of technologies !! k = Some t -> In t technologies.
Proof.
  intros H. apply tech_lookup_fold_value in H as [H|H]; [|exact H].
  rewrite lookup_empty in H. discriminate H.
Qed.

Lemma focused_tech_name (technologies : list TechnologyProfile)
    (dimension : string) (measure : Q -> Q) (improves : Q -> Q -> bool)
    (scores : list CompatibilityScore) (best : Q) (focused o : option string) :
  focused_tech (tech_lookup_of technologies) dimension measure improves
    scores best focused = Ok o ->
  o = focused \/ exists t, o = Some t /\ In t (map name technologies).
Proof.
  revert best focused. induction scores as [|cs scores IH];
    intros best focused H; cbn [focused_tech] in H.
  - injection H as <-. left. reflexivity.
  - destruct (tech_lookup_of technologies !! cs_technology cs) as [tech|]
      eqn:Hlookup; [|discriminate H].
    cbn [from_option mbind Result_bind] in H.
    destruct (dimensions tech !! dimension) as [d|]; [|apply IH in H; exact H].
    destruct (improves (measure (ds_score d)) best); [|apply IH in H; exact H].
    apply IH in H as [->|H]; [|right; exact H].
    right. exists (name tech). split; [reflexivity|].
    apply in_map, (tech_lookup_value _ _ _ Hlookup).
Qed.

Lemma focused_truthy (technologies : list TechnologyProfile)
    (dimension : string) (measure : Q -> Q) (improves : Q -> Q -> bool)
    (scores : list CompatibilityScore) (best : Q) (o : option string)
    (t : string) :
  focused_tech (tech_lookup_of technologies) dimension measure improves
    scores best None = Ok o ->
  truthy o = Some t ->
  In t (map name technologies) /\ t <> "" /\ nonempty t = true.
Proof.
  intros Hf Ht. pose proof (truthy_nonempty _ _ Ht) as Hne.
  apply focused_tech_name in Hf as [->|(t' & -> & Hin)]; [discriminate Ht|].
  cbn [truthy] in Ht. destruct (nonempty t'); [|discriminate Ht].
  injection Ht as ->. split; [exact Hin|]. split; [|exact Hne].
  apply nonempty_neq, Hne.
Qed.

(** X20. The alternative scenarios, when the function returns, are at most
    three, one of each kind and in the order budget, scalability,
    simplicity; every scenario recommends one of the compared technologies
    by its name; the scalability and the simplicity scenario never
    recommend the technology of the first compatibility score; and [None]
    stands for "no scenario". *)
Theorem alternative_scenarios_shape (technologies : list TechnologyProfile)
    (scores : list CompatibilityScore)
    (o : option (list AlternativeScenario)) :
  _generate_alternative_scenarios technologies scores = Ok o ->
  exists budget scalability simplicity : list AlternativeScenario,
    (length budget <= 1)%nat /\ (length scalability <= 1)%nat /\
    (length simplicity <= 1)%nat /\
    Forall (recommends technologies
              "If budget becomes the primary constraint") budget /\
    Forall (fun s =>
              recommends technologies
                "If scalability becomes the top priority" s /\
              not_first_listed scores s) scalability /\
    Forall (fun s =>
              recommends technologies
                "If team expertise is limited or learning curve is a concern" s
              /\ not_first_listed scores s) simplicity /\
    o = match budget ++ scalability ++ simplicity with
        | [] => None
        | scenarios => Some scenarios
        end.
Proof.
  intros H. unfold _generate_alternative_scenarios in H.
  destruct (focused_tech _ "cost" _ _ scores 0 None) as [b1|e] eqn:F1;
    [|discriminate H].
  cbn [mbind Result_bind] in H.
  match type of H with
  | mbind _ ?stage = _ => destruct stage as [l1|e] eqn:S1; [|discriminate H]
  end.
  assert (H1 : (length l1 <= 1)%nat /\
               Forall (recommends technologies
                         "If budget becomes the primary constraint") l1).
  { destruct (truthy b1) as [t|] eqn:T1.
    - destruct (focused_truthy _ _ _ _ _ _ _ _ F1 T1) as (Hin & Hne & Hb).
      unfold mk_AlternativeScenario in S1. rewrite Hb in S1.
      cbn in S1. injection S1 as <-. split; [cbn; lia|].
      repeat constructor; assumption.
    - injection S1 as <-. split; [cbn; lia|constructor]. }
  clear S1 F1. destruct H1 as [Hlen1 Hrec1].
  cbn [mbind Result_bind] in H.
  destruct (focused_tech _ "scalability" _ _ scores 0 None) as [b2|e] eqn:F2;
    [|discriminate H].
  cbn [mbind Result_bind] in H.
  match type of H with
  | mbind _ ?stage = _ => destruct stage as [l2|e] eqn:S2; [|discriminate H]
  end.
  assert (H2 : exists x2, l2 = l1 ++ x2 /\ (length x2 <= 1)%nat /\
               Forall (fun s =>
                         recommends technologies
                           "If scalability becomes the top priority" s /\
                         not_first_listed scores s) x2).
  { destruct (truthy b2) as [t|] eqn:T2.
    - destruct (focused_truthy _ _ _ _ _ _ _ _ F2 T2) as (Hin & Hne & Hb).
      destruct (head scores) as [first|] eqn:Hhead; [|discriminate S2].
      cbn [from_option mbind Result_bind] in S2.
      destruct (String.eqb t (cs_technology first)) eqn:Heq;
        cbn [negb] in S2.
      + injection S2 as <-. exists []. rewrite app_nil_r.
        split; [reflexivity|]. split; [cbn; lia|constructor].
      + unfold mk_AlternativeScenario in S2. rewrite Hb in S2.
        cbn in S2. injection S2 as <-. eexists. split; [reflexivity|].
        split; [cbn; lia|]. repeat constructor; try assumption.
        intros first' Hfirst. rewrite Hhead in Hfirst.
        injection Hfirst as <-. cbn [as_recommended_tech].
        apply String.eqb_neq, Heq.
    - injection S2 as <-. exists []. rewrite app_nil_r.
      split; [reflexivity|]. split; [cbn; lia|constructor]. }
  clear S2 F2. destruct H2 as (x2 & -> & Hlen2 & Hrec2).
  cbn [mbind Result_bind] in H.
  destruct (focused_tech _ "complexity" _ _ scores 6.0 None) as [b3|e] eqn:F3;
    [|discriminate H].
  cbn [mbind Result_bind] in H.
  match type of H with
  | mbind _ ?stage = _ => destruct stage as [l3|e] eqn:S3; [|discriminate H]
  end.
  assert (H3 : exists x3, l3 = (l1 ++ x2) ++ x3 /\ (length x3 <= 1)%nat /\
               Forall (fun s =>
                         recommends technologies
                           "If team expertise is limited or learning curve is a concern" s /\
                         not_first_listed scores s) x3).
  { destruct (truthy b3) as [t|] eqn:T3.
    - destruct (focused_truthy _ _ _ _ _ _ _ _ F3 T3) as (Hin & Hne & Hb).
      destruct (head scores) as [first|] eqn:Hhead; [|discriminate S3].
      cbn [from_option mbind Result_bind] in S3.
      destruct (String.eqb t (cs_technology first)) eqn:Heq;
        cbn [negb] in S3.
      + injection S3 as <-. exists []. rewrite app_nil_r.
        split; [reflexivity|]. split; [cbn; lia|constructor].
      + unfold mk_AlternativeScenario in S3. rewrite Hb in S3.
        cbn in S3. injection S3 as <-. eexists. split; [reflexivity|].
        split; [cbn; lia|]. repeat constructor; try assumption.
        intros first' Hfirst. rewrite Hhead in Hfirst.
        injection Hfirst as <-. cbn [as_recommended_tech].
        apply String.eqb_neq, Heq.
    - injection S3 as <-. exists []. rewrite app_nil_r.
      split; [reflexivity|]. split; [cbn; lia|constructor]. }
  clear S3 F3. destruct H3 as (x3 & -> & Hlen3 & Hrec3).
  cbn [mbind Result_bind] in H. injection H as <-.
  exists l1, x2, x3. rewrite <- app_assoc. repeat split; try assumption.
  destruct (l1 ++ x2 ++ x3); reflexivity.
Qed.

Lemma alternative_scenarios_shape_witness :
  exists budget scalability simplicity : list AlternativeScenario,
    (length budget <= 1)%nat /\ (length scalability <= 1)%nat /\
    (length simplicity <= 1)%nat /\
    Forall (recommends [REST_profile; GraphQL_profile]
              "If budget becomes the primary constraint") budget /\
    Forall (fun s =>
              recommends [REST_profile; GraphQL_profile]
                "If scalability becomes the top priority" s /\
              not_first_listed sample_scores s) scalability /\
    Forall (fun s =>
              recommends [REST_profile; GraphQL_profile]
                "If team expertise is limited or learning curve is a concern" s
              /\ not_first_listed sample_scores s) simplicity /\
    Some [{| as_scenario := "If budget becomes the primary constraint";
             as_recommended_tech := "GraphQL";
             as_explanation :=
               "This option offers the best cost-effectiveness for the project requirements" |}]
    = match budget ++ scalability ++ simplicity with
      | [] => None
      | scenarios => Some scenarios
      end.
Proof.
  apply (alternative_scenarios_shape [REST_profile; GraphQL_profile]
           sample_scores).
  vm_compute. reflexivity.
Defined.

(** ** Caveats *)

Lemma string_length_append (a b : string) :
  String.length (a +:+ b) = (String.length a + String.length b)%nat.
Proof.
  induction a as [|c a IH]; [reflexivity|].
  simpl. f_equal. exact IH.
Qed.

Lemma experimental_caveat_is_not_tradeoff (technology : string) :
  technology +:+
    " is experimental technology - evaluate production readiness carefully"
  <> tradeoff_caveat.
Proof.
  intros H. apply (f_equal String.length) in H.
  rewrite string_length_append in H.
  assert (Hsuffix :
            String.length
              " is experimental technology - evaluate production readiness carefully"
            = 69%nat) by reflexivity.
  assert (Htarget : String.length tradeoff_caveat = 67%nat) by reflexivity.
  rewrite Hsuffix, Htarget in H. lia.
Qed.

Lemma experimental_caveats_cases (technologies : list TechnologyProfile)
    (scores : list CompatibilityScore) (acc : list string) :
  match experimental_caveats (tech_lookup_of technologies) scores acc with
  | Ok out =>
      Forall (fun cs => In (cs_technology cs) (map name technologies)) scores /\
      exists extra,
        out = acc ++ extra /\ (length extra <= length scores)%nat /\
        Forall (fun c => c <> tradeoff_caveat) extra
  | Raise e =>
      e = KeyError /\
      ~ Forall (fun cs => In (cs_technology cs) (map name technologies)) scores
  end.
Proof.
  revert acc. induction scores as [|cs scores IH]; intros acc;
    cbn [experimental_caveats].
  - split; [constructor|]. exists []. rewrite app_nil_r.
    split; [reflexivity|]. split; [reflexivity|constructor].
  - destruct (tech_lookup_of technologies !! cs_technology cs) as [tech|]
      eqn:Hlookup; cbn [from_option mbind Result_bind].
    2:{ split; [reflexivity|]. intros Hall.
        apply Forall_cons in Hall as [Hin _].
        apply tech_lookup_iff in Hin. rewrite Hlookup in Hin.
        destruct Hin as [x Hx]. discriminate Hx. }
    assert (Hknown : In (cs_technology cs) (map name technologies))
      by (apply tech_lookup_iff; rewrite Hlookup; eauto).
    match goal with
    | |- context [experimental_caveats _ scores ?acc'] =>
        assert (Hacc : exists x, acc' = acc ++ x /\ (length x <= 1)%nat /\
                                 Forall (fun c => c <> tradeoff_caveat) x);
          [|specialize (IH acc');
            destruct (experimental_caveats (tech_lookup_of technologies)
                        scores acc') as [out|e]]
    end.
    { destruct (maturity tech);
        try (exists []; rewrite app_nil_r; split; [reflexivity|];
             split; [cbn; lia|constructor]).
      destruct (Qle_bool 0.7 (cs_score cs)).
      - eexists. split; [reflexivity|]. split; [cbn; lia|].
        repeat constructor. apply experimental_caveat_is_not_tradeoff.
      - exists []. rewrite app_nil_r. split; [reflexivity|].
        split; [cbn; lia|constructor]. }
    + destruct Hacc as (x & Hx & Hlen & Hnot).
      destruct IH as (Hall & extra & -> & Hlen' & Hnot').
      split; [constructor; assumption|].
      exists (x ++ extra). rewrite Hx, <- app_assoc.
      split; [reflexivity|]. split; [rewrite length_app; cbn; lia|].
      apply Forall_app; split; assumption.
    + destruct IH as [-> Hnot]. split; [reflexivity|]. intros Hall.
      apply Forall_cons in Hall as [_ Hall]. exact (Hnot Hall).
Qed.

(** The caveats, part by part. *)
Lemma generate_caveats_cases (technologies : list TechnologyProfile)
    (scores : list CompatibilityScore) (wc : WeightedCriteria) :
  match _generate_caveats technologies scores wc with
  | Ok caveats =>
      scores <> [] /\
      Forall (fun cs => In (cs_technology cs) (map name technologies)) scores /\
      exists other later,
        caveats =
          other
          ++ (if (3 <=? length (List.filter
                                  (fun item => Qlt_bool 0.3 (snd item))
                                  (dimension_weights wc)))%nat
              then [tradeoff_caveat] else [])
          ++ later ++ [general_caveat] /\
        (length other <= 1 + length scores)%nat /\ (length later <= 1)%nat /\
        Forall (fun c => c <> tradeoff_caveat) (other ++ later)
  | Raise e =>
      (e = ValueError /\ scores = []) \/
      (e = KeyError /\ scores <> [] /\
       ~ Forall (fun cs => In (cs_technology cs) (map name technologies))
           scores)
  end.
Proof.
  unfold _generate_caveats.
  destruct scores as [|cs0 rest] eqn:Hscores; [left; auto|].
  rewrite <- Hscores.
  assert (Hne : scores <> []) by (rewrite Hscores; discriminate).
  destruct (list_max (map cs_score scores)) as [mx|] eqn:Hmax;
    [|rewrite Hscores in Hmax; discriminate Hmax].
  cbn [from_option mbind Result_bind].
  match goal with
  | |- context [experimental_caveats _ scores ?acc] =>
      assert (Hlow : (length acc <= 1)%nat /\
                     Forall (fun c => c <> tradeoff_caveat) acc)
        by (destruct (Qlt_bool mx 0.6); cbn [app length];
            (split; [lia|repeat constructor; discriminate]));
      pose proof (experimental_caveats_cases technologies scores acc) as Hexp;
      generalize dependent acc; intros low Hlow Hexp
  end.
  destruct (experimental_caveats (tech_lookup_of technologies) scores low)
    as [out|e]; cbn [mbind Result_bind].
  2:{ right. destruct Hexp as [-> Hnot]. auto. }
  destruct Hexp as (Hall & extra & -> & Hlen & Hnot).
  split; [exact Hne|]. split; [exact Hall|].
  destruct Hlow as [Hlowlen Hlownot].
  exists (low ++ extra).
  match goal with
  | |- context [match sorted_desc cs_score scores with _ => _ end] =>
      idtac
  end.
  set (multi := if (3 <=? _)%nat then [tradeoff_caveat] else []).
  assert (Hmulti : (if (3 <=? length (List.filter
                                        (fun item => Qlt_bool 0.3 (snd item))
                                        (dimension_weights wc)))%nat
                    then (low ++ extra) ++ [tradeoff_caveat]
                    else low ++ extra) = (low ++ extra) ++ multi).
  { unfold multi. destruct (3 <=? _)%nat; [reflexivity|].
    rewrite app_nil_r. reflexivity. }
  unfold tradeoff_caveat in Hmulti at 1. rewrite Hmulti.
  destruct (sorted_desc cs_score scores) as [|first [|second others]].
  - exists []. split; [rewrite <- !app_assoc; reflexivity|].
    split; [rewrite length_app; lia|]. split; [cbn; lia|].
    rewrite app_nil_r. apply Forall_app; split; assumption.
  - exists []. split; [rewrite <- !app_assoc; reflexivity|].
    split; [rewrite length_app; lia|]. split; [cbn; lia|].
    rewrite app_nil_r. apply Forall_app; split; assumption.
  - destruct (Qlt_bool (cs_score first - cs_score second) 0.05).
    + eexists [_]. split; [rewrite <- !app_assoc; reflexivity|].
      split; [rewrite length_app; lia|]. split; [cbn; lia|].
      apply Forall_app; split; [apply Forall_app; split; assumption|].
      repeat constructor. discriminate.
    + exists []. split; [rewrite <- !app_assoc; reflexivity|].
      split; [rewrite length_app; lia|]. split; [cbn; lia|].
      rewrite app_nil_r. apply Forall_app; split; assumption.
Qed.

(** X21. The caveats are produced exactly when there is at least one score
    and every score belongs to one of the technologies; the failures are
    [ValueError] for no score and [KeyError] for an unknown technology.
    The caveats always end with the general reminder that recommendations
    may change, and there are at most four of them besides one per
    score. *)
Theorem generate_caveats_outcome (technologies : list TechnologyProfile)
    (scores : list CompatibilityScore) (wc : WeightedCriteria) :
  ((exists caveats, _generate_caveats technologies scores wc = Ok caveats) <->
   scores <> [] /\
   Forall (fun cs => In (cs_technology cs) (map name technologies)) scores) /\
  (forall caveats, _generate_caveats technologies scores wc = Ok caveats ->
     last caveats = Some general_caveat /\
     (length caveats <= 4 + length scores)%nat) /\
  (forall e, _generate_caveats technologies scores wc = Raise e ->
     (e = ValueError /\ scores = []) \/ (e = KeyError /\ scores <> [])).
Proof.
  pose proof (generate_caveats_cases technologies scores wc) as H.
  destruct (_generate_caveats technologies scores wc) as [caveats|e].
  - destruct H as (Hne & Hall & other & later & -> & Hlen1 & Hlen2 & _).
    split; [|split].
    + split; [auto|]. intros _. eexists. reflexivity.
    + intros c [= <-]. split.
      * rewrite !app_assoc. apply last_snoc.
      * rewrite !length_app.
        match goal with
        | |- context [if ?test then _ else _] => destruct test
        end; cbn [length]; lia.
    + discriminate.
  - split; [|split].
    + split; [intros [c Hc]; discriminate Hc|].
      intros [Hne Hall]. exfalso.
      destruct H as [(_ & Hb)|(_ & _ & Hb)]; auto.
    + discriminate.
    + intros e' [= <-]. destruct H as [H|(He & Hne & _)]; auto.
Qed.

Lemma high_weights_at_most_two (w : Dict) :
  weight_distribution w -> within_limits w = true ->
  (length (List.filter (fun item => Qlt_bool 0.3 (snd item)) w) <= 2)%nat.
Proof.
  intros (Hk & _ & Hs) Hlim.
  destruct (keys_shape w Hk) as (a & b & c & d & e & ->).
  apply within_limits_iff in Hlim.
  cbn [values map snd] in Hs, Hlim. unfold sum in Hs. cbn [fold_left] in Hs.
  repeat match goal with
         | H : Forall _ (_ :: _) |- _ => apply Forall_cons in H as [? H]
         end.
  cbv beta in *. cbn [List.filter snd].
  destruct (Qlt_bool 0.3 a) eqn:Ha, (Qlt_bool 0.3 b) eqn:Hb,
    (Qlt_bool 0.3 c) eqn:Hc, (Qlt_bool 0.3 d) eqn:Hd,
    (Qlt_bool 0.3 e) eqn:He; cbn [length]; try lia;
    repeat match goal with
           | H : Qlt_bool _ _ = true |- _ => apply Qlt_bool_iff in H
           | H : Qlt_bool _ _ = false |- _ => clear H
           end; exfalso; lra.
Qed.

(** X22. For weights that [process_requirements] has returned, with or
    without conflict detection, the caveat about multiple high-priority
    requirements is never given: validated weights sum to 1 with none
    below 0.05, so at most two of them exceed 0.3, and the caveat asks for
    three. *)
Theorem tradeoff_caveat_unreachable
    (detect : ProjectRequirements -> list string) (r : ProjectRequirements)
    (wc : WeightedCriteria) (technologies : list TechnologyProfile)
    (scores : list CompatibilityScore) (caveats : list string) :
  process_requirements_with detect r = Ok wc ->
  _generate_caveats technologies scores wc = Ok caveats ->
  ~ In tradeoff_caveat caveats.
Proof.
  intros Hwc Hcaveats.
  rewrite process_requirements_with_outcome in Hwc.
  destruct (team_size_in_range r); [|discriminate Hwc].
  destruct (detect r); [|discriminate Hwc].
  destruct (within_limits (_calculate_dimension_weights r)) eqn:Hlim;
    [|discriminate Hwc].
  injection Hwc as <-.
  pose proof (high_weights_at_most_two _
                (calculate_dimension_weights_distribution r) Hlim) as Hhigh.
  pose proof (generate_caveats_cases technologies scores
                {| dimension_weights := _calculate_dimension_weights r;
                   priority_factors := _identify_priority_factors r |}) as H.
  rewrite Hcaveats in H. cbn [dimension_weights] in H.
  destruct H as (_ & _ & other & later & -> & _ & _ & Hnot).
  assert (Hmulti : (3 <=? length (List.filter
                                    (fun item => Qlt_bool 0.3 (snd item))
                                    (_calculate_dimension_weights r)))%nat
                   = false) by (apply Nat.leb_gt; lia).
  rewrite Hmulti. cbn [app]. intros Hin.
  apply Forall_app in Hnot as [Hother Hlater].
  rewrite Forall_forall in Hother, Hlater.
  apply in_app_or in Hin as [Hin|Hin];
    [exact (Hother _ (proj2 (list_elem_of_In _ _) Hin) eq_refl)|].
  apply in_app_or in Hin as [Hin|Hin];
    [exact (Hlater _ (proj2 (list_elem_of_In _ _) Hin) eq_refl)|].
  destruct Hin as [Hin|[]]. discriminate Hin.
Qed.

Lemma tradeoff_caveat_unreachable_witness :
  exists wc caveats,
    process_requirements default_requirements = Ok wc /\
    _generate_caveats [REST_profile; GraphQL_profile] sample_scores wc
      = Ok caveats /\
    ~ In tradeoff_caveat caveats.
Proof.
  eexists _, _. split; [vm_compute; reflexivity|].
  split; [vm_compute; reflexivity|].
  eapply (tradeoff_caveat_unreachable _detect_requirement_conflicts
            default_requirements _ [REST_profile; GraphQL_profile]
            sample_scores).
  - vm_compute. reflexivity.
  - vm_compute. reflexivity.
Defined.

(** * The input parser: further properties *)

Lemma size_is_length_iff (l : list string) :
  (size (list_to_set l : gset string) =? length l)%nat = true <->
  List.NoDup l.
Proof.
  rewrite Nat.eqb_eq. split; intros H.
  - apply NoDup_ListNoDup, NoDup_of_size. symmetry. exact H.
  - apply size_list_to_set, NoDup_ListNoDup, H.
Qed.

Lemma NoDup_map_inv {A B : Type} (f : A -> B) (l : list A) :
  List.NoDup (map f l) -> List.NoDup l.
Proof.
  induction l as [|x l IH]; intros H; [constructor|].
  cbn [map] in H. apply List.NoDup_cons_iff in H as [Hnotin Hnd].
  constructor; [|apply IH, Hnd]. intros Hin. apply Hnotin, in_map, Hin.
Qed.

Lemma validate_technology_count_spec (technologies : list string) :
  let accepted :=
    (2 <= length technologies <= 5)%nat /\
    List.NoDup (map (fun tech => strip (lower tech)) technologies) in
  (_validate_technology_count technologies = Ok tt /\ accepted) \/
  (_validate_technology_count technologies = Raise InputValidationError /\
   ~ accepted).
Proof.
  cbv zeta. unfold _validate_technology_count.
  destruct (length technologies <? 2)%nat eqn:H2;
    cbn [raise_if mbind Result_bind].
  { right. split; [reflexivity|]. apply Nat.ltb_lt in H2. lia. }
  destruct (5 <? length technologies)%nat eqn:H5;
    cbn [raise_if mbind Result_bind].
  { right. split; [reflexivity|]. apply Nat.ltb_lt in H5. lia. }
  apply Nat.ltb_ge in H2, H5.
  pose proof (size_is_length_iff
                (map (fun tech => strip (lower tech)) technologies)) as Hiff.
  rewrite length_map in Hiff.
  destruct (size _ =? length technologies)%nat; cbn [negb raise_if].
  - left. split; [reflexivity|]. split; [lia|apply Hiff; reflexivity].
  - right. split; [reflexivity|]. intros [_ Hnd]. apply Hiff in Hnd.
    discriminate Hnd.
Qed.

Lemma validate_team_size_spec (size : Z) :
  (_validate_team_size size = Ok tt /\ (1 <= size <= 1000)%Z) \/
  (_validate_team_size size = Raise InputValidationError /\
   ~ (1 <= size <= 1000)%Z).
Proof.
  unfold _validate_team_size.
  destruct (size <? 1)%Z eqn:H1; cbn [raise_if mbind Result_bind];
    [right; split; [reflexivity|lia]|].
  destruct (1000 <? size)%Z eqn:H2; cbn [raise_if];
    [right; split; [reflexivity|lia]|].
  left. split; [reflexivity|lia].
Qed.

Lemma validate_max_technologies_spec (maximum : Z) :
  (_validate_max_technologies maximum = Ok tt /\ (2 <= maximum <= 5)%Z) \/
  (_validate_max_technologies maximum = Raise InputValidationError /\
   ~ (2 <= maximum <= 5)%Z).
Proof.
  unfold _validate_max_technologies.
  destruct (maximum <? 2)%Z eqn:H1; cbn [raise_if mbind Result_bind];
    [right; split; [reflexivity|lia]|].
  destruct (5 <? maximum)%Z eqn:H2; cbn [raise_if];
    [right; split; [reflexivity|lia]|].
  left. split; [reflexivity|lia].
Qed.

Lemma validate_custom_dimensions_spec (custom_dimensions : list string) :
  (_validate_custom_dimensions custom_dimensions = Ok tt /\
   accepted_custom_dimensions custom_dimensions) \/
  (_validate_custom_dimensions custom_dimensions = Raise InputValidationError /\
   ~ accepted_custom_dimensions custom_dimensions).
Proof.
  unfold _validate_custom_dimensions, accepted_custom_dimensions.
  destruct (List.filter _ custom_dimensions) as [|d ds] eqn:Hf;
    cbn [raise_if mbind Result_bind].
  2:{ right. split; [reflexivity|]. intros (Hall & _).
      assert (Hin : In d (List.filter
                            (fun dimension =>
                               contains standard_dimensions
                                 (strip (lower dimension)))
                            custom_dimensions))
        by (rewrite Hf; left; reflexivity).
      apply filter_In in Hin as [Hin Hstd]. apply contains_In in Hstd.
      rewrite Forall_forall in Hall.
      exact (Hall d (proj2 (list_elem_of_In _ _) Hin) Hstd). }
  assert (Hstd : Forall (fun d => ~ In (strip (lower d)) standard_dimensions)
                   custom_dimensions).
  { apply Forall_forall. intros d Hd Hin. apply list_elem_of_In in Hd.
    assert (Hc : In d (List.filter
                         (fun dimension =>
                            contains standard_dimensions
                              (strip (lower dimension)))
                         custom_dimensions))
      by (apply filter_In; split; [exact Hd|apply contains_In, Hin]).
    rewrite Hf in Hc. destruct Hc. }
  pose proof (size_is_length_iff
                (map (fun dim => strip (lower dim)) custom_dimensions)) as Hiff.
  rewrite length_map in Hiff.
  destruct (size _ =? length custom_dimensions)%nat;
    cbn [negb raise_if mbind Result_bind].
  2:{ right. split; [reflexivity|]. intros (_ & Hnd & _).
      apply Hiff in Hnd. discriminate Hnd. }
  destruct (existsb _ custom_dimensions) eqn:Hblank; cbn [raise_if].
  - right. split; [reflexivity|]. intros (_ & _ & Hall).
    apply existsb_exists in Hblank as (d & Hd & Hb).
    rewrite Forall_forall in Hall.
    specialize (Hall d (proj2 (list_elem_of_In _ _) Hd)).
    rewrite (nonempty_true _ Hall) in Hb. discriminate Hb.
  - left. split; [reflexivity|]. split; [exact Hstd|].
    split; [apply Hiff; reflexivity|].
    apply Forall_forall. intros d Hd Hempty. apply list_elem_of_In in Hd.
    assert (Hex : existsb (fun dimension => negb (nonempty (strip dimension)))
                    custom_dimensions = true).
    { apply existsb_exists. exists d. split; [exact Hd|].
      rewrite Hempty. reflexivity. }
    congruence.
Qed.

Lemma standard_dimension_normal (d : string) :
  In d standard_dimensions -> strip (lower d) = d.
Proof.
  cbn [standard_dimensions In]. intros H.
  repeat destruct H as [<-|H]; try destruct H; vm_compute; reflexivity.
Qed.

(** What the model constructors do with arguments that the parser has
    checked. *)
Lemma model_accepts_checked_arguments (args : ParsedArgs) :
  accepted_arguments args ->
  (project_requirements ←
     mk_ProjectRequirements (arg_team_size args) (arg_budget args)
       (arg_timeline args) (arg_scalability args) (arg_expertise args);
   output_preferences ←
     mk_OutputPreferences (negb (arg_no_matrix args))
       (negb (arg_no_recommendation args)) (arg_max_technologies args);
   mk_ComparisonRequest (arg_technologies args) project_requirements
     (match arg_custom_dimensions args with
      | Some (c :: cs) => Some (c :: cs)
      | _ => None
      end)
     output_preferences) = Ok (request_of args).
Proof.
  intros (Hcount & Hnd & Hteam & Hcustom & Hmax).
  unfold mk_ProjectRequirements, mk_OutputPreferences, mk_ComparisonRequest,
    validate_unique_technologies.
  assert (H1 : (arg_team_size args <? 1)%Z = false) by lia.
  assert (H2 : (arg_max_technologies args <? 2)%Z = false) by lia.
  assert (H3 : (5 <? arg_max_technologies args)%Z = false) by lia.
  assert (H4 : (length (arg_technologies args) <? 2)%nat = false)
    by (apply Nat.ltb_ge; lia).
  assert (H5 : (5 <? length (arg_technologies args))%nat = false)
    by (apply Nat.ltb_ge; lia).
  rewrite H1, H2, H3, H4, H5. cbn [orb raise_if mbind Result_bind].
  assert (Huniq : (length (arg_technologies args)
                   =? size (list_to_set (arg_technologies args) : gset string))%nat
                  = true).
  { rewrite Nat.eqb_sym. apply size_is_length_iff.
    apply (NoDup_map_inv _ _ Hnd). }
  rewrite Huniq. cbn [negb raise_if mbind Result_bind].
  unfold request_of.
  destruct (arg_custom_dimensions args) as [[|c cs]|]; try reflexivity.
  unfold validate_custom_dimensions.
  destruct Hcustom as (Hstd & _ & _).
  rewrite (filter_none (contains standard_dimensions) (c :: cs)).
  - reflexivity.
  - eapply Forall_impl; [exact Hstd|]. intros d Hd. cbv beta.
    destruct (contains standard_dimensions d) eqn:Hc; [|reflexivity].
    apply contains_In in Hc. exfalso. apply Hd.
    rewrite (standard_dimension_normal d Hc). exact Hc.
Qed.

Lemma convert_cases (args : ParsedArgs) :
  match _convert_to_comparison_request args with
  | Ok request => accepted_arguments args /\ request = request_of args
  | Raise e => e = InputValidationError /\ ~ accepted_arguments args
  end.
Proof.
  unfold _convert_to_comparison_request.
  destruct (validate_technology_count_spec (arg_technologies args))
    as [[-> Htech]|[-> Htech]]; cbn [mbind Result_bind];
    [|split; [reflexivity|intros (H1 & H2 & _); apply Htech; auto]].
  destruct (validate_team_size_spec (arg_team_size args))
    as [[-> Hteam]|[-> Hteam]]; cbn [mbind Result_bind];
    [|split; [reflexivity|intros (_ & _ & H & _); exact (Hteam H)]].
  assert (Hcustom :
            (match arg_custom_dimensions args with
             | Some (c :: cs) => _validate_custom_dimensions (c :: cs)
             | _ => Ok tt
             end = Ok tt /\
             match arg_custom_dimensions args with
             | Some (c :: cs) => accepted_custom_dimensions (c :: cs)
             | _ => True
             end) \/
            (match arg_custom_dimensions args with
             | Some (c :: cs) => _validate_custom_dimensions (c :: cs)
             | _ => Ok tt
             end = Raise InputValidationError /\
             ~ match arg_custom_dimensions args with
               | Some (c :: cs) => accepted_custom_dimensions (c :: cs)
               | _ => True
               end)).
  { destruct (arg_custom_dimensions args) as [[|c cs]|]; auto.
    apply validate_custom_dimensions_spec. }
  destruct Hcustom as [[-> Hcustom]|[-> Hcustom]]; cbn [mbind Result_bind];
    [|split; [reflexivity|intros (_ & _ & _ & H & _); exact (Hcustom H)]].
  destruct (validate_max_technologies_spec (arg_max_technologies args))
    as [[-> Hmax]|[-> Hmax]]; cbn [mbind Result_bind];
    [|split; [reflexivity|intros (_ & _ & _ & _ & H); exact (Hmax H)]].
  assert (Hacc : accepted_arguments args).
  { destruct Htech. repeat split; try tauto; try lia. }
  rewrite (model_accepts_checked_arguments args Hacc).
  cbn [wrap_InputValidationError]. auto.
Qed.

Lemma case_variant_normal (dimension : string) :
  In (lower dimension) standard_dimensions ->
  strip (lower dimension) = lower dimension.
Proof.
  generalize (lower dimension). intros d.
  cbn [standard_dimensions In]. intros H.
  repeat destruct H as [<-|H]; try destruct H; vm_compute; reflexivity.
Qed.

(** C8: a request whose custom dimensions hold a case variant of a standard
    dimension name (a name that, lowered, is one of the five standard
    names, such as "Cost") is rejected.  The collision check of the parser
    lowers the names, so the variant is among the conflicting names and the
    check raises [InputValidationError]; the conversion of the arguments,
    the one place that builds a [ComparisonRequest], raises it as well, so
    that no request with such a dimension comes into being. *)
Theorem case_variant_of_standard_dimension_rejected (args : ParsedArgs)
    (custom_dimensions : list string) (dimension : string) :
  arg_custom_dimensions args = Some custom_dimensions ->
  In dimension custom_dimensions ->
  In (lower dimension) standard_dimensions ->
  In dimension
    (List.filter
       (fun dimension => contains standard_dimensions (strip (lower dimension)))
       custom_dimensions) /\
  _validate_custom_dimensions custom_dimensions = Raise InputValidationError /\
  _convert_to_comparison_request args = Raise InputValidationError.
Proof.
  intros Hcustom Hin Hvariant.
  assert (Hstd : In (strip (lower dimension)) standard_dimensions)
    by (rewrite (case_variant_normal dimension Hvariant); exact Hvariant).
  split; [|split].
  - apply filter_In. split; [exact Hin|apply contains_In, Hstd].
  - apply (parser_rejects_case_variants custom_dimensions dimension Hin Hstd).
  - pose proof (convert_cases args) as H.
    destruct (_convert_to_comparison_request args) as [request|e].
    + exfalso. destruct H as [(_ & _ & _ & Hacc & _) _].
      rewrite Hcustom in Hacc.
      destruct custom_dimensions as [|c cs]; [destruct Hin|].
      destruct Hacc as (Hall & _). rewrite Forall_forall in Hall.
      exact (Hall dimension (proj2 (list_elem_of_In _ _) Hin) Hstd).
    + destruct H as [-> _]. reflexivity.
Qed.

Lemma case_variant_of_standard_dimension_rejected_witness :
  In "Cost"
    (List.filter
       (fun dimension => contains standard_dimensions (strip (lower dimension)))
       ["Cost"]) /\
  _validate_custom_dimensions ["Cost"] = Raise InputValidationError /\
  _convert_to_comparison_request
    {| arg_technologies := ["React"; "Vue"]; arg_team_size := 3;
       arg_budget := BUDGET_MEDIUM; arg_timeline := MODERATE;
       arg_scalability := SCALE_MEDIUM; arg_expertise := INTERMEDIATE;
       arg_custom_dimensions := Some ["Cost"];
       arg_no_matrix := false; arg_no_recommendation := false;
       arg_max_technologies := 5 |} = Raise InputValidationError.
Proof.
  apply (case_variant_of_standard_dimension_rejected
           {| arg_technologies := ["React"; "Vue"]; arg_team_size := 3;
              arg_budget := BUDGET_MEDIUM; arg_timeline := MODERATE;
              arg_scalability := SCALE_MEDIUM; arg_expertise := INTERMEDIATE;
              arg_custom_dimensions := Some ["Cost"];
              arg_no_matrix := false; arg_no_recommendation := false;
              arg_max_technologies := 5 |} ["Cost"] "Cost").
  - reflexivity.
  - left. reflexivity.
  - vm_compute. auto 10.
Defined.

(** X23. The parser turns the arguments into a request exactly when there
    are 2 to 5 technologies that stay distinct when lowered and stripped,
    the team size is between 1 and 1000, the custom dimensions (if any) are
    not blank, stay distinct and differ from the standard dimensions when
    lowered and stripped, and the maximum number of technologies is between
    2 and 5.  The request then mirrors the arguments: the checks of the
    request model never reject what the parser has accepted.  Every failure
    is an [InputValidationError]. *)
Theorem parser_outcome (args : ParsedArgs) :
  ((exists request, _convert_to_comparison_request args = Ok request) <->
   accepted_arguments args) /\
  (forall request, _convert_to_comparison_request args = Ok request ->
     request = request_of args) /\
  (forall e, _convert_to_comparison_request args = Raise e ->
     e = InputValidationError).
Proof.
  pose proof (convert_cases args) as H.
  destruct (_convert_to_comparison_request args) as [request|e].
  - destruct H as [Hacc Hreq]. split; [|split].
    + split; [auto|]. intros _. exists request. reflexivity.
    + intros r [= <-]. exact Hreq.
    + discriminate.
  - destruct H as [-> Hnot]. split; [|split].
    + split; [intros [r Hr]; discriminate Hr|]. intros H. destruct (Hnot H).
    + discriminate.
    + intros e' [= <-]. reflexivity.
Qed.

(** * The command-line run: further properties *)

Lemma resolve_fold (kb : list (string * TechnologyProfile))
    (names : list string) (profiles : list TechnologyProfile)
    (unknown fallback : list string) :
  exists profiles' unknown' fallback',
    fold_left (resolve_step kb) names (profiles, unknown, fallback) =
      (profiles ++ profiles', unknown ++ unknown', fallback ++ fallback') /\
    length profiles' = length (named names) /\
    unknown' = List.filter (fun n => negb (nonempty n)) names /\
    Forall (resolved_profile kb) profiles'.
Proof.
  revert profiles unknown fallback.
  induction names as [|n names IH]; intros profiles unknown fallback.
  - exists [], [], []. rewrite !app_nil_r. repeat split. constructor.
  - cbn [fold_left]. unfold resolve_step at 2.
    destruct (get_technology_profile kb n) as [p|] eqn:Hget.
    + destruct (IH (profiles ++ [p]) unknown fallback)
        as (ps & us & fs & -> & Hlen & Hus & Hall).
      assert (Hn : nonempty n = true).
      { destruct n; [discriminate Hget|reflexivity]. }
      exists (p :: ps), us, fs. rewrite <- app_assoc.
      split; [reflexivity|]. unfold named in *. cbn [List.filter].
      rewrite Hn. cbn [negb length]. split; [lia|]. split; [exact Hus|].
      constructor; [|exact Hall]. left.
      apply (get_technology_profile_from_kb kb n p Hget).
    + pose proof (get_technology_profile_with_fallback_cases kb n) as Hcases.
      destruct (get_technology_profile_with_fallback kb n)
        as [[p synthesized]|e].
      * destruct Hcases as [Hne Hcases].
        assert (Hfallback : _create_fallback_profile n = Ok p).
        { destruct synthesized; [apply Hcases|].
          rewrite Hget in Hcases. discriminate Hcases. }
        destruct (IH (profiles ++ [p]) unknown (fallback ++ [n]))
          as (ps & us & fs & -> & Hlen & Hus & Hall).
        exists (p :: ps), us, (n :: fs). rewrite <- !app_assoc.
        split; [reflexivity|]. unfold named in *. cbn [List.filter].
        rewrite (nonempty_true _ Hne). cbn [negb length].
        split; [lia|]. split; [exact Hus|].
        constructor; [|exact Hall]. right. exists n. exact Hfallback.
      * destruct Hcases as [_ ->].
        destruct (IH profiles (unknown ++ [""]) fallback)
          as (ps & us & fs & -> & Hlen & Hus & Hall).
        exists ps, ("" :: us), fs. rewrite <- !app_assoc.
        split; [reflexivity|]. unfold named in *. cbn [List.filter nonempty negb].
        split; [exact Hlen|]. split; [rewrite Hus; reflexivity|exact Hall].
Qed.

Lemma knowledge_base_valid :
  forallb valid_profile_bool (map snd knowledge_base) = true.
Proof. vm_compute. reflexivity. Qed.

Lemma resolved_profile_valid (profile : TechnologyProfile) :
  resolved_profile knowledge_base profile -> valid_TechnologyProfile profile.
Proof.
  intros [Hin|[n Hn]].
  - apply valid_profile_bool_sound.
    pose proof knowledge_base_valid as H. rewrite List.forallb_forall in H.
    apply H, Hin.
  - pose proof (fallback_profile_cases n) as H. rewrite Hn in H. apply H.
Qed.

Lemma named_length (names : list string) :
  (length (named names) <= length names)%nat.
Proof.
  unfold named. induction names as [|n names IH]; [reflexivity|].
  cbn [List.filter]. destruct (nonempty n); cbn [length]; lia.
Qed.

Lemma valid_profiles_not_data_poor (technologies : list TechnologyProfile) :
  Forall valid_TechnologyProfile technologies ->
  data_poor technologies = 0%nat.
Proof.
  intros Hvalid. unfold data_poor. rewrite filter_none; [reflexivity|].
  eapply Forall_impl; [exact Hvalid|]. intros t Ht. cbv beta.
  apply Nat.ltb_ge. pose proof (valid_profile_size t Ht). lia.
Qed.

(** The run, stage by stage, over the knowledge base of the analyzer. *)
Lemma run_analysis_cases (request : ComparisonRequest) :
  (length (req_technologies request) <= 5)%nat ->
  match run_analysis knowledge_base request with
  | RequirementsFailed =>
      exists e,
        process_requirements_with (fun _ => [])
          (req_project_requirements request) = Raise e
  | TooFewTechnologies =>
      (exists wc,
         process_requirements_with (fun _ => [])
           (req_project_requirements request) = Ok wc) /\
      (length (named (req_technologies request)) < 2)%nat
  | ComparisonFailed =>
      (exists wc,
         process_requirements_with (fun _ => [])
           (req_project_requirements request) = Ok wc) /\
      (2 <= length (named (req_technologies request)))%nat /\
      ~ custom_dimensions_accepted (req_custom_dimensions request)
  | UnexpectedError => False
  | Analysed profiles comparison recommendation =>
      length profiles = length (named (req_technologies request)) /\
      (2 <= length profiles <= 5)%nat /\
      Forall (resolved_profile knowledge_base) profiles /\
      custom_dimensions_accepted (req_custom_dimensions request) /\
      (exists wc,
         process_requirements_with (fun _ => [])
           (req_project_requirements request) = Ok wc /\
         generate_comparison profiles wc (req_custom_dimensions request)
           = Ok comparison) /\
      (is_Some recommendation <->
       include_recommendation (req_output_preferences request) = true /\
       List.NoDup (map name profiles))
  end.
Proof.
  intros Hfive. unfold run_analysis.
  destruct (run_process_requirements_snd (req_project_requirements request))
    as [Hsnd Hnever].
  rewrite Hsnd.
  destruct (process_requirements_with (fun _ => [])
              (req_project_requirements request)) as [wc|e] eqn:Hwc;
    [|eauto].
  unfold resolve_technologies.
  destruct (resolve_fold knowledge_base (req_technologies request) [] [] [])
    as (profiles & unknown & fallback & -> & Hlen & _ & Hresolved).
  cbn [app].
  pose proof (named_length (req_technologies request)) as Hnamed.
  destruct (length profiles <? 2)%nat eqn:Htwo.
  { apply Nat.ltb_lt in Htwo. split; [eauto|lia]. }
  apply Nat.ltb_ge in Htwo.
  assert (Hvalid : Forall valid_TechnologyProfile profiles).
  { eapply Forall_impl; [exact Hresolved|]. intros p.
    apply resolved_profile_valid. }
  assert (Hweights : dimension_weights wc <> []).
  { rewrite process_requirements_with_outcome in Hwc.
    destruct (team_size_in_range _); [|discriminate Hwc].
    cbn beta iota in Hwc.
    destruct (within_limits _); [|discriminate Hwc].
    injection Hwc as <-. cbn [dimension_weights].
    pose proof (keys_calculate_dimension_weights
                  (req_project_requirements request)) as Hk.
    destruct (_calculate_dimension_weights _); [discriminate Hk|discriminate]. }
  pose proof (generate_comparison_cases profiles wc
                (req_custom_dimensions request)) as Hcmp.
  pose proof (valid_profiles_not_data_poor profiles Hvalid) as Hpoor.
  destruct (generate_comparison profiles wc (req_custom_dimensions request))
    as [comparison|e] eqn:Hgen.
  - destruct Hcmp as (_ & _ & _ & Hnames & Hcustom & _ & _ & _ & Hscores).
    split; [exact Hlen|]. split; [lia|]. split; [exact Hresolved|].
    split; [exact Hcustom|]. split; [exists wc; auto|].
    destruct (comparison_scores_rankable profiles wc _ Hnames Hscores)
      as [Hmap Hrank].
    destruct (include_recommendation (req_output_preferences request)).
    2:{ split; [intros [x Hx]; discriminate Hx|intros [H _]; discriminate H]. }
    pose proof (generate_recommendation_cases profiles
                  (cr_compatibility_scores comparison) wc) as Hrec.
    destruct (generate_recommendation profiles
                (cr_compatibility_scores comparison) wc) as [rec|e].
    + destruct Hrec as (_ & _ & _ & Hnd & _). rewrite Hmap in Hnd.
      split; [intros _; auto|intros _; eauto].
    + split; [intros [x Hx]; discriminate Hx|]. intros [_ Hnd]. exfalso.
      assert (Hsame : length (cr_compatibility_scores comparison)
                      = length profiles).
      { rewrite <- (length_map cs_technology), Hmap. apply length_map. }
      destruct Hrec as [(_ & [Hb|Hb])|(_ & _ & _ & Hb)].
      * rewrite Hb in Htwo. cbn in Htwo. lia.
      * exact (Hb Hsame).
      * apply Hb. split; [exact Hrank|]. rewrite Hmap. exact Hnd.
  - destruct Hcmp as [(_ & Hb)|[(_ & _ & Hb)|(-> & _ & Hb)]].
    + lia.
    + destruct Hb as [Hb|Hb]; [congruence|lia].
    + split; [eauto|]. split; [lia|]. destruct Hb as [Hb|Hb]; [|exact Hb].
      exfalso. apply Exists_exists in Hb as (t & Hin & Ht).
      rewrite Forall_forall in Hvalid. destruct (Hvalid t Hin) as (Hname & _).
      exact (Hname Ht).
Qed.

(** X24. A run over at most five requested names never ends at its
    handlers for unexpected errors: the comparison raises neither
    [InsufficientDataError], whose handler calls a method that the
    application class does not have, nor [ValueError].  When the run
    reaches the formatter, one profile stands for each non-empty requested
    name, every profile satisfies the profile invariant, and a
    recommendation is attached exactly when it was asked for and the
    resolved profiles have distinct names. *)
Theorem run_analysis_outcome (request : ComparisonRequest) :
  (length (req_technologies request) <= 5)%nat ->
  run_analysis knowledge_base request <> UnexpectedError /\
  forall profiles comparison recommendation,
    run_analysis knowledge_base request
      = Analysed profiles comparison recommendation ->
    length profiles = length (named (req_technologies request)) /\
    Forall valid_TechnologyProfile profiles /\
    cr_technologies comparison = map name profiles /\
    (is_Some recommendation <->
     include_recommendation (req_output_preferences request) = true /\
     List.NoDup (map name profiles)).
Proof.
  intros Hfive. pose proof (run_analysis_cases request Hfive) as H.
  split.
  - intros Heq. rewrite Heq in H. exact H.
  - intros profiles comparison recommendation Heq. rewrite Heq in H.
    destruct H as (Hlen & _ & Hresolved & _ & (wc & _ & Hcmp) & Hrec).
    split; [exact Hlen|]. split.
    + eapply Forall_impl; [exact Hresolved|]. intros p.
      apply resolved_profile_valid.
    + split; [|exact Hrec].
      pose proof (generate_comparison_cases profiles wc
                    (req_custom_dimensions request)) as Hcases.
      rewrite Hcmp in Hcases. apply Hcases.
Qed.

Lemma run_analysis_outcome_witness :
  run_analysis knowledge_base (request_of sample_arguments)
    <> UnexpectedError /\
  forall profiles comparison recommendation,
    run_analysis knowledge_base (request_of sample_arguments)
      = Analysed profiles comparison recommendation ->
    length profiles
      = length (named (req_technologies (request_of sample_arguments))) /\
    Forall valid_TechnologyProfile profiles /\
    cr_technologies comparison = map name profiles /\
    (is_Some recommendation <->
     include_recommendation
       (req_output_preferences (request_of sample_arguments)) = true /\
     List.NoDup (map name profiles)).
Proof.
  apply (run_analysis_outcome (request_of sample_arguments)).
  cbn. lia.
Defined.

Lemma parsed_custom_dimensions (args : ParsedArgs) :
  accepted_arguments args ->
  custom_dimensions_accepted (req_custom_dimensions (request_of args)) <->
  (custom_count (request_of args) <= 5)%nat.
Proof.
  intros (_ & _ & _ & Hcustom & _).
  unfold custom_count, request_of, custom_dimensions_accepted.
  cbn [req_custom_dimensions].
  destruct (arg_custom_dimensions args) as [[|c cs]|]; cbn [default];
    try (split; [intros _; cbn; lia|intros _; exact I]).
  destruct Hcustom as (Hstd & _ & _). split; [intros [_ H]; exact H|].
  intros Hlen. split; [|exact Hlen].
  eapply Forall_impl; [exact Hstd|]. intros d Hd Hin. apply Hd.
  rewrite (standard_dimension_normal d Hin). exact Hin.
Qed.

(** X25. What becomes of a request that the parser has accepted.  The run
    stops at the requirements exactly when a calculated weight leaves the
    range 0.05 to 0.6; otherwise it stops for want of technologies exactly
    when fewer than two requested names are non-empty; otherwise the
    comparison fails exactly when there are more than five custom
    dimensions; otherwise the data reaches the formatter.  Conflicting
    requirements and unknown technologies stop nothing. *)
Theorem parsed_request_outcome (args : ParsedArgs)
    (request : ComparisonRequest) :
  _convert_to_comparison_request args = Ok request ->
  let weights :=
    _calculate_dimension_weights (req_project_requirements request) in
  let names := named (req_technologies request) in
  match run_analysis knowledge_base request with
  | RequirementsFailed => within_limits weights = false
  | TooFewTechnologies =>
      within_limits weights = true /\ (length names < 2)%nat
  | ComparisonFailed =>
      within_limits weights = true /\ (2 <= length names)%nat /\
      (5 < custom_count request)%nat
  | Analysed profiles comparison recommendation =>
      within_limits weights = true /\ (2 <= length names)%nat /\
      (custom_count request <= 5)%nat /\
      length profiles = length names
  | UnexpectedError => False
  end.
Proof.
  intros Hparsed. cbv zeta.
  pose proof (convert_cases args) as Hconv. rewrite Hparsed in Hconv.
  destruct Hconv as [Hacc ->].
  pose proof (parsed_custom_dimensions args Hacc) as Hcustom.
  assert (Hfive : (length (req_technologies (request_of args)) <= 5)%nat).
  { destruct Hacc as (Hcount & _). cbn [request_of req_technologies]. lia. }
  assert (Hrange : team_size_in_range
                     (req_project_requirements (request_of args)) = true).
  { destruct Hacc as (_ & _ & Hteam & _).
    apply team_size_in_range_iff.
    cbn [request_of req_project_requirements team_size]. exact Hteam. }
  pose proof (process_requirements_with_outcome (fun _ => [])
                (req_project_requirements (request_of args))) as Hout.
  rewrite Hrange in Hout. cbn beta iota in Hout.
  pose proof (run_analysis_cases (request_of args) Hfive) as H.
  destruct (run_analysis knowledge_base (request_of args))
    as [profiles comparison recommendation| | | |].
  - destruct H as (Hlen & Htwo & _ & Hc & (wc & Hwc & _) & _).
    rewrite Hwc in Hout.
    destruct (within_limits _); [|discriminate Hout].
    split; [reflexivity|]. split; [lia|]. split; [apply Hcustom, Hc|exact Hlen].
  - destruct H as [e He]. rewrite He in Hout.
    destruct (within_limits _); [discriminate Hout|reflexivity].
  - destruct H as ((wc & Hwc) & Htwo). rewrite Hwc in Hout.
    destruct (within_limits _); [|discriminate Hout].
    split; [reflexivity|exact Htwo].
  - destruct H as ((wc & Hwc) & Htwo & Hc). rewrite Hwc in Hout.
    destruct (within_limits _); [|discriminate Hout].
    split; [reflexivity|]. split; [exact Htwo|].
    apply Nat.nle_gt. intros Hle. apply Hc, Hcustom, Hle.
  - exact H.
Qed.

Lemma parsed_request_outcome_witness :
  match run_analysis knowledge_base (request_of sample_arguments) with
  | RequirementsFailed =>
      within_limits
        (_calculate_dimension_weights
           (req_project_requirements (request_of sample_arguments))) = false
  | TooFewTechnologies =>
      within_limits
        (_calculate_dimension_weights
           (req_project_requirements (request_of sample_arguments))) = true /\
      (length (named (req_technologies (request_of sample_arguments))) < 2)%nat
  | ComparisonFailed =>
      within_limits
        (_calculate_dimension_weights
           (req_project_requirements (request_of sample_arguments))) = true /\
      (2 <= length (named (req_technologies (request_of sample_arguments))))%nat
      /\ (5 < custom_count (request_of sample_arguments))%nat
  | Analysed profiles comparison recommendation =>
      within_limits
        (_calculate_dimension_weights
           (req_project_requirements (request_of sample_arguments))) = true /\
      (2 <= length (named (req_technologies (request_of sample_arguments))))%nat
      /\ (custom_count (request_of sample_arguments) <= 5)%nat /\
      length profiles
        = length (named (req_technologies (request_of sample_arguments)))
  | UnexpectedError => False
  end.
Proof.
  apply (parsed_request_outcome sample_arguments (request_of sample_arguments)).
  vm_compute. reflexivity.
Defined.
